(** * Overmind pathing: cost matrices, route restriction, search wrapper,
      distance memo and geometry helpers ([Pathing] class)

    A shallow embedding of the [Pathing] class of the repository and the
    properties its specification states about it.  JavaScript numbers that
    the code only uses as integers are [Z]; objects used as dictionaries are
    [gmap string _]; optional fields are [option]; the engine's cost
    matrices live in an explicit heap because the code caches them on room
    objects and hands the same object out again. *)

From Stdlib Require Import ZArith List String Bool Lia QArith_base.
From stdpp Require Import base option list gmap strings pretty.
From Equations Require Import Equations.
Import ListNotations.

Local Open Scope Z_scope.

(** ** A state monad for the stateful parts *)

Definition ST (S A : Type) : Type := S -> A * S.

Definition pure {S A} (a : A) : ST S A := fun s => (a, s).
Definition bind {S A B} (c : ST S A) (k : A -> ST S B) : ST S B :=
  fun s => let (a, s') := c s in k a s'.
Definition gets {S A} (f : S -> A) : ST S A := fun s => (f s, s).
Definition modify {S} (f : S -> S) : ST S unit := fun s => (tt, f s).

Notation "'do' x <- c ; k" := (bind c (fun x => k))
  (at level 10, x name, c at level 100, k at level 200).
Notation "'run' c ; k" := (bind c (fun _ => k))
  (at level 10, c at level 100, k at level 200).

(** A loop that also grows a local array: the body returns the array. *)
Fixpoint foldM {S A B} (xs : list A) (acc : B) (f : B -> A -> ST S B) : ST S B :=
  match xs with
  | [] => pure acc
  | a :: rest => do acc' <- f acc a; foldM rest acc' f
  end.

(** [_.forEach(xs, f)] and [for (let x of xs) f(x)] for an effectful body. *)
Fixpoint forEach {S A} (xs : list A) (f : A -> ST S unit) : ST S unit :=
  match xs with
  | [] => pure tt
  | a :: rest => run f a; forEach rest f
  end.

(** A loop whose body may [return] from the enclosing function: the first
    iteration that yields a value ends the loop. *)
Fixpoint firstSome {A B} (xs : list A) (f : A -> option B) : option B :=
  match xs with
  | [] => None
  | a :: rest => match f a with Some b => Some b | None => firstSome rest f end
  end.

(** [for (let i = lo; i <= hi; i++)]: the values the loop variable takes. *)
Definition fromTo (lo hi : Z) : list Z :=
  map (fun k => lo + Z.of_nat k) (seq 0 (Z.to_nat (hi - lo + 1))).

(** ** World data *)

Inductive Terrain := plain | swamp | wall.

Module RoomPosition.
Record t := mk { x : Z; y : Z; roomName : string }.
End RoomPosition.

Inductive StructureType :=
| STRUCTURE_ROAD | STRUCTURE_WALL | STRUCTURE_RAMPART | STRUCTURE_CONTAINER
| STRUCTURE_SPAWN | STRUCTURE_EXTENSION | STRUCTURE_TOWER | STRUCTURE_KEEPER_LAIR.

Record Structure := mkStructure
  { s_pos : RoomPosition.t; structureType : StructureType; isWalkable : bool }.

Record ConstructionSite := mkSite
  { site_pos : RoomPosition.t; my : bool; site_isWalkable : bool }.

(** A creep with the results of [getActiveBodyparts(ATTACK)] and
    [getActiveBodyparts(RANGED_ATTACK)]. *)
Record Creep := mkCreep
  { c_pos : RoomPosition.t; activeAttack : Z; activeRangedAttack : Z }.

(** An observed room: what [room.find(FIND_STRUCTURES)],
    [room.find(FIND_CONSTRUCTION_SITES)], [room.find(FIND_CREEPS)],
    [room.hostiles] and [room.keeperLairs] return during the tick. *)
Record Room := mkRoom
  { name : string;
    find_structures : list Structure;
    find_construction_sites : list ConstructionSite;
    find_creeps : list Creep;
    hostiles : list Creep;
    keeperLairs : list Structure }.

Definition StructureType_eqb (a b : StructureType) : bool :=
  match a, b with
  | STRUCTURE_ROAD, STRUCTURE_ROAD | STRUCTURE_WALL, STRUCTURE_WALL
  | STRUCTURE_RAMPART, STRUCTURE_RAMPART
  | STRUCTURE_CONTAINER, STRUCTURE_CONTAINER
  | STRUCTURE_SPAWN, STRUCTURE_SPAWN | STRUCTURE_EXTENSION, STRUCTURE_EXTENSION
  | STRUCTURE_TOWER, STRUCTURE_TOWER
  | STRUCTURE_KEEPER_LAIR, STRUCTURE_KEEPER_LAIR => true
  | _, _ => false
  end.

(** ** Cost matrices *)

(** Modelled from the spec: [PathFinder.CostMatrix] is a type of the game
    engine, not of this repository.  The specification describes it as a
    dense grid of byte costs, one entry per tile of the 50 x 50 region
    (0 unset, 1..253 explicit, 254 soft obstacle, 255 impassable), a written
    value being clamped to a byte.  The model is a model of the tiles of the
    grid.  The specification does not say what a read or a write does at
    coordinates off the grid; here such a write stores nothing and such a
    read gives 0, which need not be what the engine does there.  The loops
    of this class whose coordinates can leave the grid are those around a
    hostile and around a keeper lair; what is proved of the cells they write
    is proved for loops that stay on the grid. *)
Module CostMatrix.

Record t := mk { _bits : list Z }.

Definition new : t := mk (replicate 2500%nat 0).

Definition in_grid (x y : Z) : bool :=
  (0 <=? x) && (x <=? 49) && (0 <=? y) && (y <=? 49).

Definition index (x y : Z) : nat := Z.to_nat (x * 50 + y).

(** A stored value is a byte. *)
Definition clamp (val : Z) : Z := Z.min (Z.max 0 val) 255.

Definition get (m : t) (x y : Z) : Z :=
  if in_grid x y then default 0 (_bits m !! index x y) else 0.

Definition set (m : t) (x y val : Z) : t :=
  if in_grid x y
  then mk (<[index x y := clamp val]> (_bits m))
  else m.

(** The grid has its 2500 entries and each is a byte. *)
Definition wf (m : t) : Prop :=
  length (_bits m) = 2500%nat /\ Forall (fun b => 0 <= b <= 255) (_bits m).

End CostMatrix.

(** Matrices are objects: a reference names a cell of the heap, [clone]
    allocates a new cell, [set] updates a cell in place. *)
Abbreviation MatrixRef := nat (only parsing).

(** The per-tick matrices cached on a room object. *)
Record RoomCache := mkCache
  { _defaultMatrix : option MatrixRef;
    _directMatrix : option MatrixRef;
    _creepMatrix : option MatrixRef;
    _kitingMatrix : option MatrixRef;
    _skMatrix : option MatrixRef }.

Definition noCache : RoomCache := mkCache None None None None None.

Record Store := mkStore
  { heap : list CostMatrix.t;
    roomCache : gmap string RoomCache }.

Definition deref (s : Store) (r : MatrixRef) : CostMatrix.t :=
  default CostMatrix.new (heap s !! r).

Definition cacheOf (s : Store) (room : Room) : RoomCache :=
  default noCache (roomCache s !! name room).

Definition alloc (m : CostMatrix.t) : ST Store MatrixRef :=
  fun s => (length (heap s), mkStore (heap s ++ [m]) (roomCache s)).

(** [new PathFinder.CostMatrix()] *)
Definition newMatrix : ST Store MatrixRef := alloc CostMatrix.new.

(** [matrix.clone()] *)
Definition clone (r : MatrixRef) : ST Store MatrixRef :=
  fun s => alloc (deref s r) s.

(** [matrix.get(x, y)] *)
Definition mget (r : MatrixRef) (x y : Z) : ST Store Z :=
  gets (fun s => CostMatrix.get (deref s r) x y).

(** [matrix.set(x, y, val)] *)
Definition mset (r : MatrixRef) (x y val : Z) : ST Store unit :=
  modify (fun s =>
    mkStore (<[r := CostMatrix.set (deref s r) x y val]> (heap s)) (roomCache s)).

Definition setCache (room : Room) (f : RoomCache -> RoomCache) : ST Store unit :=
  modify (fun s =>
    mkStore (heap s) (<[name room := f (cacheOf s room)]> (roomCache s))).

(** ** The world outside the class *)

Inductive RoomType :=
| ROOMTYPE_SOURCEKEEPER | ROOMTYPE_CORE | ROOMTYPE_CONTROLLER | ROOMTYPE_ALLEY.

Definition RoomType_eqb (a b : RoomType) : bool :=
  match a, b with
  | ROOMTYPE_SOURCEKEEPER, ROOMTYPE_SOURCEKEEPER | ROOMTYPE_CORE, ROOMTYPE_CORE
  | ROOMTYPE_CONTROLLER, ROOMTYPE_CONTROLLER | ROOMTYPE_ALLEY, ROOMTYPE_ALLEY => true
  | _, _ => false
  end.

(** What a room callback gives the search: [false], [true] or a matrix.  The
    search only reads a matrix it is handed, so it is handed its contents. *)
Inductive CallbackResult :=
| CbBool (b : bool)
| CbMatrix (m : CostMatrix.t).

(** The value of a route callback: a finite cost or
    [Number.POSITIVE_INFINITY]. *)
Inductive RouteCost :=
| POSITIVE_INFINITY
| Cost (q : Q).

Record RouteStep := mkStep { exit : Z; room : string }.

Record PathFinderPath := mkPath { path : list RoomPosition.t; incomplete : bool }.

Record Goal := mkGoal { pos : RoomPosition.t; goal_range : option Z }.

(** [PathFinder.search] takes one goal or an array of goals. *)
Inductive Goals :=
| OneGoal (g : Goal)
| ManyGoals (gs : list Goal).

Record SearchOpts := mkSearchOpts
  { so_maxOps : option Z;
    so_maxRooms : option Z;
    so_plainCost : option Z;
    so_swampCost : option Z;
    so_flee : bool }.

Record RoomMemory := mkRoomMemory { avoid : option bool }.

(** The engine and the rest of the bot, as far as this class calls them:
    [Game.rooms], [Game.map], [Memory.rooms], [Cartographer.roomType],
    [PathFinder.search] and the [name] getter of a position. *)
Record World := mkWorld
  { Game_rooms : string -> option Room;
    getRoomLinearDistance : string -> string -> Z;
    getTerrainAt : Z -> Z -> string -> Terrain;
    Game_map_findRoute :
      string -> string -> (string -> RouteCost) -> option (list RouteStep);
    Memory_rooms : gmap string RoomMemory;
    roomType : string -> RoomType;
    PathFinder_search :
      RoomPosition.t -> Goals -> SearchOpts ->
      (string -> ST Store CallbackResult) -> ST Store PathFinderPath;
    pos_name : RoomPosition.t -> string }.

(** ** Move options *)

Definition DEFAULT_MAXOPS : Z := 20000.

Record TerrainCosts := mkTerrainCosts { plainCost : Z; swampCost : Z }.

Record MoveOptions := mkOptions
  { ignoreCreeps : option bool;
    maxOps : option Z;
    range : option Z;
    terrainCosts : option TerrainCosts;
    movingTarget : option bool;
    route : option (gmap string bool);
    useFindRoute : option bool;
    direct : option bool;
    ensurePath : option bool;
    maxRooms : option Z;
    allowHostile : option bool;
    avoidSK : option bool;
    ignoreStructures : option bool;
    obstacles : option (list RoomPosition.t);
    modifyRoomCallback : option (Room -> CostMatrix.t -> CallbackResult);
    restrictDistance : option Z;
    preferHighway : option bool }.

(** [{}] *)
Definition noOptions : MoveOptions :=
  mkOptions None None None None None None None None None None None None None
            None None None None.

(** Truthiness of an optional boolean, and of an optional number. *)
Definition truthy (b : option bool) : bool := default false b.
Definition truthyNum (n : option Z) : bool :=
  match n with Some v => negb (v =? 0) | None => false end.

(** [n || d] for an optional number [n]: [d] replaces an absent or zero [n]. *)
Definition orNumber (n : option Z) (d : Z) : Z :=
  match n with
  | Some v => if v =? 0 then d else v
  | None => d
  end.

(** [_.defaults]: a field is assigned only where it is still undefined. *)
Definition dflt {A} (field : option A) (a : A) : option A :=
  match field with Some v => Some v | None => Some a end.

Definition with_ignoreCreeps (v : option bool) (o : MoveOptions) :=
  mkOptions v (maxOps o) (range o) (terrainCosts o) (movingTarget o) (route o)
    (useFindRoute o) (direct o) (ensurePath o) (maxRooms o) (allowHostile o)
    (avoidSK o) (ignoreStructures o) (obstacles o) (modifyRoomCallback o)
    (restrictDistance o) (preferHighway o).
Definition with_maxOps (v : option Z) (o : MoveOptions) :=
  mkOptions (ignoreCreeps o) v (range o) (terrainCosts o) (movingTarget o) (route o)
    (useFindRoute o) (direct o) (ensurePath o) (maxRooms o) (allowHostile o)
    (avoidSK o) (ignoreStructures o) (obstacles o) (modifyRoomCallback o)
    (restrictDistance o) (preferHighway o).
Definition with_range (v : option Z) (o : MoveOptions) :=
  mkOptions (ignoreCreeps o) (maxOps o) v (terrainCosts o) (movingTarget o) (route o)
    (useFindRoute o) (direct o) (ensurePath o) (maxRooms o) (allowHostile o)
    (avoidSK o) (ignoreStructures o) (obstacles o) (modifyRoomCallback o)
    (restrictDistance o) (preferHighway o).
Definition with_terrainCosts (v : option TerrainCosts) (o : MoveOptions) :=
  mkOptions (ignoreCreeps o) (maxOps o) (range o) v (movingTarget o) (route o)
    (useFindRoute o) (direct o) (ensurePath o) (maxRooms o) (allowHostile o)
    (avoidSK o) (ignoreStructures o) (obstacles o) (modifyRoomCallback o)
    (restrictDistance o) (preferHighway o).
Definition with_useFindRoute (v : option bool) (o : MoveOptions) :=
  mkOptions (ignoreCreeps o) (maxOps o) (range o) (terrainCosts o) (movingTarget o)
    (route o) v (direct o) (ensurePath o) (maxRooms o) (allowHostile o)
    (avoidSK o) (ignoreStructures o) (obstacles o) (modifyRoomCallback o)
    (restrictDistance o) (preferHighway o).
Definition with_direct (v : option bool) (o : MoveOptions) :=
  mkOptions (ignoreCreeps o) (maxOps o) (range o) (terrainCosts o) (movingTarget o)
    (route o) (useFindRoute o) v (ensurePath o) (maxRooms o) (allowHostile o)
    (avoidSK o) (ignoreStructures o) (obstacles o) (modifyRoomCallback o)
    (restrictDistance o) (preferHighway o).
Definition with_restrictDistance (v : option Z) (o : MoveOptions) :=
  mkOptions (ignoreCreeps o) (maxOps o) (range o) (terrainCosts o) (movingTarget o)
    (route o) (useFindRoute o) (direct o) (ensurePath o) (maxRooms o) (allowHostile o)
    (avoidSK o) (ignoreStructures o) (obstacles o) (modifyRoomCallback o)
    v (preferHighway o).
Definition with_obstacles (v : option (list RoomPosition.t)) (o : MoveOptions) :=
  mkOptions (ignoreCreeps o) (maxOps o) (range o) (terrainCosts o) (movingTarget o)
    (route o) (useFindRoute o) (direct o) (ensurePath o) (maxRooms o) (allowHostile o)
    (avoidSK o) (ignoreStructures o) v (modifyRoomCallback o)
    (restrictDistance o) (preferHighway o).
Definition with_ensurePath (v : option bool) (o : MoveOptions) :=
  mkOptions (ignoreCreeps o) (maxOps o) (range o) (terrainCosts o) (movingTarget o)
    (route o) (useFindRoute o) (direct o) v (maxRooms o) (allowHostile o)
    (avoidSK o) (ignoreStructures o) (obstacles o) (modifyRoomCallback o)
    (restrictDistance o) (preferHighway o).

(** ** Cost matrix computations *)

(** [Pathing.getDefaultMatrix]: impassable structures and own construction
    sites are set to 0xff, roads to 1. *)
Definition getDefaultMatrix (room : Room) : ST Store MatrixRef :=
  do cache <- gets (fun s => cacheOf s room);
  match _defaultMatrix cache with
  | Some m => pure m
  | None =>
      do matrix <- newMatrix;
      do impassibleStructures <-
        foldM (find_structures room) [] (fun impassibleStructures s =>
          if StructureType_eqb (structureType s) STRUCTURE_ROAD
          then run mset matrix (RoomPosition.x (s_pos s)) (RoomPosition.y (s_pos s)) 1;
               pure impassibleStructures
          else if negb (isWalkable s)
          then pure (impassibleStructures ++ [s])
          else pure impassibleStructures);
      run forEach impassibleStructures (fun s =>
        mset matrix (RoomPosition.x (s_pos s)) (RoomPosition.y (s_pos s)) 255);
      run forEach (find_construction_sites room) (fun site =>
        if my site && negb (site_isWalkable site)
        then mset matrix (RoomPosition.x (site_pos site)) (RoomPosition.y (site_pos site)) 255
        else pure tt);
      run setCache room (fun c =>
        mkCache (Some matrix) (_directMatrix c) (_creepMatrix c)
                (_kitingMatrix c) (_skMatrix c));
      pure matrix
  end.

(** [Pathing.getDirectMatrix]: as the default matrix, ignoring roads. *)
Definition getDirectMatrix (room : Room) : ST Store MatrixRef :=
  do cache <- gets (fun s => cacheOf s room);
  match _directMatrix cache with
  | Some m => pure m
  | None =>
      do matrix <- newMatrix;
      do impassibleStructures <-
        foldM (find_structures room) [] (fun impassibleStructures s =>
          if negb (isWalkable s)
          then pure (impassibleStructures ++ [s])
          else pure impassibleStructures);
      run forEach impassibleStructures (fun s =>
        mset matrix (RoomPosition.x (s_pos s)) (RoomPosition.y (s_pos s)) 255);
      run forEach (find_construction_sites room) (fun site =>
        if my site && negb (site_isWalkable site)
        then mset matrix (RoomPosition.x (site_pos site)) (RoomPosition.y (site_pos site)) 255
        else pure tt);
      run setCache room (fun c =>
        mkCache (_defaultMatrix c) (Some matrix) (_creepMatrix c)
                (_kitingMatrix c) (_skMatrix c));
      pure matrix
  end.

(** [Pathing.getCreepMatrix]: the default matrix with every creep blocked. *)
Definition getCreepMatrix (room : Room) : ST Store MatrixRef :=
  do cache <- gets (fun s => cacheOf s room);
  match _creepMatrix cache with
  | Some m => pure m
  | None =>
      do base <- getDefaultMatrix room;
      do matrix <- clone base;
      run forEach (find_creeps room) (fun c =>
        mset matrix (RoomPosition.x (c_pos c)) (RoomPosition.y (c_pos c)) 255);
      run setCache room (fun c =>
        mkCache (_defaultMatrix c) (_directMatrix c) (Some matrix)
                (_kitingMatrix c) (_skMatrix c));
      pure matrix
  end.

(** The hostiles [getKitingMatrix] keeps away from: those with an active
    ATTACK or RANGED_ATTACK part. *)
Definition avoidCreeps (room : Room) : list Creep :=
  filter (fun c => (0 <? activeAttack c) || (0 <? activeRangedAttack c))
         (hostiles room).

(** [Pathing.getKitingMatrix] *)
Definition getKitingMatrix (room : Room) : ST Store MatrixRef :=
  do cache <- gets (fun s => cacheOf s room);
  match _kitingMatrix cache with
  | Some m => pure m
  | None =>
      do base <- getCreepMatrix room;
      do matrix <- clone base;
      run forEach (avoidCreeps room) (fun avoidCreep =>
        forEach (fromTo (-3) 3) (fun dx =>
          forEach (fromTo (-3) 3) (fun dy =>
            do cost <- mget matrix (RoomPosition.x (c_pos avoidCreep) + dx)
                                   (RoomPosition.y (c_pos avoidCreep) + dy);
            let cost := cost + (40 - 10 * Z.max (Z.abs dx) (Z.abs dy)) in
            mset matrix (RoomPosition.x (c_pos avoidCreep) + dx)
                        (RoomPosition.y (c_pos avoidCreep) + dy) cost)));
      run setCache room (fun c =>
        mkCache (_defaultMatrix c) (_directMatrix c) (_creepMatrix c)
                (Some matrix) (_skMatrix c));
      pure matrix
  end.

Section Pathing.

Variable W : World.

(** [Pathing.getSkMatrix]: source keeper lairs are kept at range 5. *)
Definition getSkMatrix (room : Room) : ST Store MatrixRef :=
  if negb (RoomType_eqb (roomType W (name room)) ROOMTYPE_SOURCEKEEPER)
  then getDefaultMatrix room
  else
    do cache <- gets (fun s => cacheOf s room);
    match _skMatrix cache with
    | Some m => pure m
    | None =>
        do base <- getDefaultMatrix room;
        do matrix <- clone base;
        let avoidRange := 5 in
        run forEach (keeperLairs room) (fun lair =>
          forEach (fromTo (- avoidRange) avoidRange) (fun dx =>
            forEach (fromTo (- avoidRange) avoidRange) (fun dy =>
              mset matrix (RoomPosition.x (s_pos lair) + dx) (RoomPosition.y (s_pos lair) + dy) 255)));
        run setCache room (fun c =>
          mkCache (_defaultMatrix c) (_directMatrix c) (_creepMatrix c)
                  (_kitingMatrix c) (Some matrix));
        pure matrix
    end.

(** [Pathing.getCostMatrix]: the matrix the options select, with the
    caller's obstacles registered on a copy. *)
Definition getCostMatrix (room : Room) (options : MoveOptions) (clone_ : bool)
  : ST Store MatrixRef :=
  do matrix <-
    (if bool_decide (ignoreCreeps options = Some false) then getCreepMatrix room
     else if truthy (avoidSK options) then getSkMatrix room
     else if truthy (ignoreStructures options) then newMatrix
     else if truthy (direct options) then getDirectMatrix room
     else getDefaultMatrix room);
  do matrix <-
    (match obstacles options with
     | Some (o :: os) =>
         do matrix <- clone matrix;
         run forEach (o :: os) (fun obstacle =>
           if String.eqb (RoomPosition.roomName obstacle) (name room)
           then mset matrix (RoomPosition.x obstacle) (RoomPosition.y obstacle) 255
           else pure tt);
         pure matrix
     | _ => pure matrix
     end);
  if clone_ then clone matrix else pure matrix.

(** ** State of the class: matrices, memo tables, log *)

Inductive LogMessage :=
| PathFailedWithoutFindRoute (origin destination : RoomPosition.t)
| SecondAttempt (successful : bool)
| CouldntFindRoute (origin destination : string)
| IncompletePath (startPos endPos : RoomPosition.t)
| IsReachableSingleRoom.

Inductive LogEntry :=
| log_warning (msg : LogMessage)
| log_alert (msg : LogMessage)
| log_error (msg : LogMessage).

(** [Memory.pathing.distances] and [Memory.pathing.weightedDistances] are
    two-level dictionaries; [store] holds the matrices of the tick. *)
Record State := mkState
  { store : Store;
    distances : gmap string (gmap string Z);
    weightedDistances : gmap string (gmap string Z);
    log : list LogEntry }.

Definition liftStore {A} (c : ST Store A) : ST State A :=
  fun st => let (a, s') := c (store st) in
            (a, mkState s' (distances st) (weightedDistances st) (log st)).

Definition logEntry (e : LogEntry) : ST State unit :=
  modify (fun st =>
    mkState (store st) (distances st) (weightedDistances st) (log st ++ [e])).

(** ** Room avoidance *)

(** [Pathing.shouldAvoid], as the conditions that call it read it. *)
Definition shouldAvoid (roomName : string) : bool :=
  match Memory_rooms W !! roomName with
  | Some mem => truthy (avoid mem)
  | None => false
  end.

(** ** Route restriction *)

(** The [routeCallback] closure of [findRoute]. *)
Definition routeCallback (origin destination : string) (options : MoveOptions)
    (restrictDistance : Z) (highwayBias : Q) (roomName : string) : RouteCost :=
  let rangeToRoom := getRoomLinearDistance W origin roomName in
  if restrictDistance <? rangeToRoom then POSITIVE_INFINITY
  else if negb (truthy (allowHostile options)) && shouldAvoid roomName
          && negb (String.eqb roomName destination)
          && negb (String.eqb roomName origin)
  then POSITIVE_INFINITY
  else if truthy (preferHighway options)
          && RoomType_eqb (roomType W roomName) ROOMTYPE_ALLEY
  then Cost (1 # 1)
  else Cost highwayBias.

(** [Pathing.findRoute] *)
Definition findRoute (origin destination : string) (options : MoveOptions)
  : ST State (option (gmap string bool)) :=
  let linearDistance := getRoomLinearDistance W origin destination in
  let restrictDistance := orNumber (restrictDistance options) (linearDistance + 10) in
  let allowedRooms : gmap string bool :=
    <[destination := true]> (<[origin := true]> ∅) in
  let highwayBias : Q := if truthy (preferHighway options) then 5 # 2 else 1 # 1 in
  let ret :=
    Game_map_findRoute W origin destination
      (routeCallback origin destination options restrictDistance highwayBias) in
  match ret with
  | None =>
      run logEntry (log_warning (CouldntFindRoute origin destination));
      pure None
  | Some steps =>
      pure (Some (fold_left (fun allowedRooms value =>
                               <[room value := true]> allowedRooms)
                            steps allowedRooms))
  end.

(** ** Searching *)

(** [Pathing.roomCallback] *)
Definition roomCallback (roomName : string) (origin destination : RoomPosition.t)
    (allowedRooms : option (gmap string bool)) (options : MoveOptions)
  : ST Store CallbackResult :=
  if match allowedRooms with
     | Some allowed => negb (default false (allowed !! roomName))
     | None => false
     end
  then pure (CbBool false)
  else if negb (truthy (allowHostile options)) && shouldAvoid roomName
          && negb (String.eqb roomName (RoomPosition.roomName origin))
          && negb (String.eqb roomName (RoomPosition.roomName destination))
  then pure (CbBool false)
  else
    match Game_rooms W roomName with
    | Some room =>
        do matrix <- getCostMatrix room options false;
        match modifyRoomCallback options with
        | Some modify_ =>
            do copy <- clone matrix;
            do m <- gets (fun s => deref s copy);
            pure (modify_ room m)
        | None =>
            do m <- gets (fun s => deref s matrix);
            pure (CbMatrix m)
        end
    | None => pure (CbBool true)
    end.

(** The [_.defaults] call of [findPath]. *)
Definition findPath_defaults (options : MoveOptions) : MoveOptions :=
  let options := with_ignoreCreeps (dflt (ignoreCreeps options) true) options in
  let options := with_maxOps (dflt (maxOps options) DEFAULT_MAXOPS) options in
  let options := with_range (dflt (range options) 1) options in
  with_terrainCosts (dflt (terrainCosts options) (mkTerrainCosts 1 5)) options.

(** A call of [findPath] may call itself once more, and only while
    [useFindRoute] is still undefined. *)
Definition retriesLeft (options : MoveOptions) : nat :=
  match useFindRoute options with None => 1 | Some _ => 0 end.

(** [Pathing.findPath].  The options object is mutated in place and
    reused by the retry, so the retry receives the updated record. *)
Equations? findPath (origin destination : RoomPosition.t) (options : MoveOptions)
  : ST State PathFinderPath by wf (retriesLeft options) lt :=
findPath origin destination options0 :=
  let options := findPath_defaults options0 in
  let options :=
    if truthy (movingTarget options) then with_range (Some 0) options else options in
  let roomDistance :=
    getRoomLinearDistance W (RoomPosition.roomName origin)
                            (RoomPosition.roomName destination) in
  let allowedRooms := route options in
  do allowedRooms <-
    (if negb (bool_decide (is_Some allowedRooms))
        && (truthy (useFindRoute options)
            || (bool_decide (useFindRoute options = None) && (2 <? roomDistance)))
     then findRoute (RoomPosition.roomName origin)
                    (RoomPosition.roomName destination) options
     else pure allowedRooms);
  let options :=
    if truthy (direct options)
    then with_terrainCosts (Some (mkTerrainCosts 1 1)) options else options in
  let callback := fun roomName =>
    roomCallback roomName origin destination allowedRooms options in
  do ret <- liftStore
    (PathFinder_search W origin (OneGoal (mkGoal destination (range options)))
       (mkSearchOpts (maxOps options) (maxRooms options)
                     (plainCost <$> terrainCosts options)
                     (swampCost <$> terrainCosts options) false)
       callback);
  if incomplete ret && truthy (ensurePath options)
  then
    match useFindRoute options as u
          return useFindRoute options = u -> ST State PathFinderPath with
    | None => fun _ =>
        if roomDistance <=? 2
        then
          run logEntry (log_warning (PathFailedWithoutFindRoute origin destination));
          let options := with_useFindRoute (Some true) options in
          do ret <- findPath origin destination options;
          run logEntry (log_warning (SecondAttempt (negb (incomplete ret))));
          pure ret
        else pure ret
    | Some _ => fun _ => pure ret
    end eq_refl
  else pure ret.
Proof.
  assert (Hundef : useFindRoute options0 = None).
  { revert e. subst options3 options2 options1.
    destruct (truthy (direct _)), (truthy (movingTarget _)); simpl; auto. }
  unfold retriesLeft. rewrite Hundef. simpl. lia.
Qed.

(** The [_.defaults] call of [findShortestPath]. *)
Definition findShortestPath_defaults (options : MoveOptions) : MoveOptions :=
  let options := with_ignoreCreeps (dflt (ignoreCreeps options) true) options in
  let options := with_range (dflt (range options) 1) options in
  with_direct (dflt (direct options) true) options.

(** [Pathing.findShortestPath] *)
Definition findShortestPath (startPos endPos : RoomPosition.t) (options : MoveOptions)
  : ST State PathFinderPath :=
  let options := findShortestPath_defaults options in
  do ret <- findPath startPos endPos options;
  run (if incomplete ret
       then logEntry (log_alert (IncompletePath startPos endPos))
       else pure tt);
  pure ret.

(** ** Distance and path weight *)

(** [[a, b].sort()] on two strings. *)
Definition sortNames (a b : string) : string * string :=
  if String.ltb b a then (b, a) else (a, b).

(** A number is falsy when it is absent or 0. *)
Definition falsyNum (v : option Z) : bool := negb (truthyNum v).

Definition lookup2 (table : gmap string (gmap string Z)) (k1 k2 : string)
  : option Z :=
  match table !! k1 with Some row => row !! k2 | None => None end.

(** [table[k1][k2] = v], the row [table[k1]] being an object already. *)
Definition insert2 (k1 k2 : string) (v : Z) (table : gmap string (gmap string Z))
  : gmap string (gmap string Z) :=
  <[k1 := <[k2 := v]> (default ∅ (table !! k1))]> table.

(** [if (!table[k1]) table[k1] = {}] *)
Definition ensureRow (k1 : string) (table : gmap string (gmap string Z))
  : gmap string (gmap string Z) :=
  match table !! k1 with Some _ => table | None => <[k1 := ∅]> table end.

Definition modifyDistances (f : gmap string (gmap string Z) -> gmap string (gmap string Z))
  : ST State unit :=
  modify (fun st =>
    mkState (store st) (f (distances st)) (weightedDistances st) (log st)).

Definition modifyWeightedDistances
    (f : gmap string (gmap string Z) -> gmap string (gmap string Z))
  : ST State unit :=
  modify (fun st =>
    mkState (store st) (distances st) (f (weightedDistances st)) (log st)).

(** [Pathing.distance]; the result is a number or [undefined]. *)
Definition distance (arg1 arg2 : RoomPosition.t) : ST State (option Z) :=
  let '(name1, name2) := sortNames (pos_name W arg1) (pos_name W arg2) in
  run modifyDistances (ensureRow name1);
  do cached <- gets (fun st => lookup2 (distances st) name1 name2);
  run (if falsyNum cached
       then
         do ret <- findShortestPath arg1 arg2 noOptions;
         if negb (incomplete ret)
         then modifyDistances (insert2 name1 name2 (Z.of_nat (length (path ret))))
         else pure tt
       else pure tt);
  gets (fun st => lookup2 (distances st) name1 name2).

(** Modelled from the spec: [pos.room], [pos.lookForStructure] and
    [pos.lookFor(LOOK_TERRAIN)] are prototype extensions defined outside
    this class.  The specification gives their use here: a tile of an
    unobserved region, a road-covered tile, and the terrain of the tile. *)
Definition pos_room (pos : RoomPosition.t) : option Room :=
  Game_rooms W (RoomPosition.roomName pos).

Definition lookForStructure (room : Room) (pos : RoomPosition.t)
    (type : StructureType) : option Structure :=
  find (fun s => StructureType_eqb (structureType s) type
                 && (RoomPosition.x (s_pos s) =? RoomPosition.x pos)
                 && (RoomPosition.y (s_pos s) =? RoomPosition.y pos))
       (find_structures room).

Definition lookForTerrain (pos : RoomPosition.t) : Terrain :=
  getTerrainAt W (RoomPosition.x pos) (RoomPosition.y pos) (RoomPosition.roomName pos).

(** The weight [calculatePathWeight] adds for one tile of the path. *)
Definition tileWeight (pos : RoomPosition.t) : Z :=
  match pos_room pos with
  | None => 1
  | Some room =>
      match lookForStructure room pos STRUCTURE_ROAD with
      | Some _ => 1
      | None =>
          match lookForTerrain pos with
          | plain => 2
          | swamp => 10
          | wall => 0
          end
      end
  end.

(** [Pathing.calculatePathWeight] *)
Definition calculatePathWeight (startPos endPos : RoomPosition.t)
    (options : MoveOptions) : ST State Z :=
  let options := with_range (dflt (range options) 1) options in
  do ret <- findPath startPos endPos options;
  pure (fold_left (fun weight pos => weight + tileWeight pos) (path ret) 0).

(** [Pathing.weightedDistance] *)
Definition weightedDistance (arg1 arg2 : RoomPosition.t) : ST State (option Z) :=
  let '(pos1, pos2) :=
    if String.ltb (pos_name W arg1) (pos_name W arg2)
    then (arg1, arg2) else (arg2, arg1) in
  run modifyWeightedDistances (ensureRow (pos_name W pos1));
  do cached <- gets (fun st =>
    lookup2 (weightedDistances st) (pos_name W pos1) (pos_name W pos2));
  run (if falsyNum cached
       then
         do weight <- calculatePathWeight pos1 pos2 noOptions;
         modifyWeightedDistances (insert2 (pos_name W pos1) (pos_name W pos2) weight)
       else pure tt);
  gets (fun st => lookup2 (weightedDistances st) (pos_name W pos1) (pos_name W pos2)).

(** ** Reachability and the nearest walkable tile *)

(** An obstacle is a position or an object that has one. *)
Inductive Obstacle :=
| IsPos (p : RoomPosition.t)
| HasPos (pos : RoomPosition.t).

(** The [_.defaults] call of [isReachable]. *)
Definition isReachable_defaults (options : MoveOptions) : MoveOptions :=
  let options := with_ignoreCreeps (dflt (ignoreCreeps options) true) options in
  let options := with_range (dflt (range options) 1) options in
  let options := with_maxOps (dflt (maxOps options) 1000) options in
  with_ensurePath (dflt (ensurePath options) false) options.

(** The matrix [isReachable] seeds with its obstacles.  It is local to the
    call and never cached, so it is a plain value here. *)
Definition obstacleMatrix (obstacles : list Obstacle) : CostMatrix.t :=
  fold_left (fun matrix obstacle =>
               match obstacle with
               | HasPos pos =>
                   CostMatrix.set matrix (RoomPosition.x pos) (RoomPosition.y pos) 254
               | IsPos p =>
                   CostMatrix.set matrix (RoomPosition.x p) (RoomPosition.y p) 254
               end)
            obstacles CostMatrix.new.

(** [Pathing.isReachable] *)
Definition isReachable (startPos endPos : RoomPosition.t)
    (obstacles : list Obstacle) (options : MoveOptions) : ST State bool :=
  let options := isReachable_defaults options in
  if negb (String.eqb (RoomPosition.roomName startPos) (RoomPosition.roomName endPos))
  then
    run logEntry (log_error IsReachableSingleRoom);
    pure false
  else
    let matrix := obstacleMatrix obstacles in
    let callback := fun roomName : string =>
      if String.eqb roomName (RoomPosition.roomName endPos)
      then pure (CbMatrix matrix) else pure (CbBool false) in
    do ret <- liftStore
      (PathFinder_search W startPos (OneGoal (mkGoal endPos (range options)))
         (mkSearchOpts (maxOps options) (Some 1) (Some 1) (Some 5) false)
         callback);
    if incomplete ret then pure false
    else
      match firstSome (path ret) (fun pos =>
              if 100 <? CostMatrix.get matrix (RoomPosition.x pos) (RoomPosition.y pos)
              then Some false else None) with
      | Some result => pure result
      | None => pure true
      end.

(** [Pathing.findPathablePosition]: the rings around (25, 25) are scanned
    column by column; the first tile that is not a wall is returned. *)
Definition findPathablePosition (roomName : string) : RoomPosition.t :=
  match
    firstSome (fromTo 0 22) (fun radius =>
      firstSome (fromTo (- radius) radius) (fun dx =>
        firstSome (fromTo (- radius) radius) (fun dy =>
          if negb (Z.abs dy =? radius) && negb (Z.abs dx =? radius)
          then None
          else
            let x := 25 + dx in
            let y := 25 + dy in
            match getTerrainAt W x y roomName with
            | wall => None
            | _ => Some (RoomPosition.mk x y roomName)
            end)))
  with
  | Some found => found
  | None => RoomPosition.mk (-10) (-10) "cannotFindPathablePosition"
  end.

End Pathing.

(** ** The rest of the class: flee searches, more matrix operations,
       directions and serialized paths *)

(** Modelled from the spec: the direction constants are constants of the
    game engine.  The specification gives their codes: one digit, 1 to 8, in
    compass order starting at North, clockwise. *)
Inductive DirectionConstant :=
| TOP | TOP_RIGHT | RIGHT | BOTTOM_RIGHT | BOTTOM | BOTTOM_LEFT | LEFT | TOP_LEFT.

Definition directionCode (direction : DirectionConstant) : Z :=
  match direction with
  | TOP => 1 | TOP_RIGHT => 2 | RIGHT => 3 | BOTTOM_RIGHT => 4
  | BOTTOM => 5 | BOTTOM_LEFT => 6 | LEFT => 7 | TOP_LEFT => 8
  end.

(** [Pathing.oppositeDirection] *)
Definition oppositeDirection (direction : DirectionConstant) : DirectionConstant :=
  match direction with
  | TOP => BOTTOM
  | TOP_LEFT => BOTTOM_RIGHT
  | LEFT => RIGHT
  | BOTTOM_LEFT => TOP_RIGHT
  | BOTTOM => TOP
  | BOTTOM_RIGHT => TOP_LEFT
  | RIGHT => LEFT
  | TOP_RIGHT => BOTTOM_LEFT
  end.

(** [array[i]] for a number [i]: undefined outside the array. *)
Definition arrayAt (array : list Z) (i : Z) : option Z :=
  if i <? 0 then None else array !! Z.to_nat i.

(** How a call of [positionAtDirection] ends: it returns undefined, it
    returns a position, or, when the direction is no index of the offset
    arrays, both coordinates are NaN, the bounds test lets them through and
    [new RoomPosition(NaN, NaN, roomName)] is evaluated: the constructor of
    the engine does not accept these coordinates and throws. *)
Inductive PositionResult :=
| undefined_position
| position_at (p : RoomPosition.t)
| constructor_throws.

(** [Pathing.positionAtDirection] *)
Definition positionAtDirection (origin : RoomPosition.t) (direction : Z)
  : PositionResult :=
  let offsetX := [0; 0; 1; 1; 1; 0; -1; -1; -1] in
  let offsetY := [0; -1; -1; 0; 1; 1; 1; 0; -1] in
  match arrayAt offsetX direction, arrayAt offsetY direction with
  | Some ox, Some oy =>
      let x := RoomPosition.x origin + ox in
      let y := RoomPosition.y origin + oy in
      if (49 <? x) || (x <? 0) || (49 <? y) || (y <? 0)
      then undefined_position
      else position_at (RoomPosition.mk x y (RoomPosition.roomName origin))
  | _, _ => constructor_throws
  end.

(** A number or NaN. *)
Inductive JsNumber :=
| NaN
| Num (n : Z).

(** [Number.parseInt] of a string of one character: the value of a decimal
    digit, NaN for anything else. *)
Definition parseIntChar (c : Ascii.ascii) : JsNumber :=
  let code := Z.of_nat (Ascii.nat_of_ascii c) in
  if (48 <=? code) && (code <=? 57) then Num (code - 48) else NaN.

(** The part of [creep.memory._go] the class reads, and the part of a
    [Zerg] it reads. *)
Record MoveData := mkMoveData { md_path : option string }.

Record Zerg := mkZerg { zerg_pos : RoomPosition.t; memory_go : option MoveData }.

(** [Pathing.nextDirectionInPath] *)
Definition nextDirectionInPath (creep : Zerg) : option JsNumber :=
  match memory_go creep with
  | None => None
  | Some moveData =>
      match md_path moveData with
      | None => None
      | Some EmptyString => None
      | Some (String first _) => Some (parseIntChar first)
      end
  end.

(** [Pathing.nextPositionInPath] *)
Definition nextPositionInPath (creep : Zerg) : PositionResult :=
  match nextDirectionInPath creep with
  | None | Some NaN => undefined_position
  | Some (Num nextDir) =>
      if nextDir =? 0 then undefined_position
      else positionAtDirection (zerg_pos creep) nextDir
  end.

(** A line drawn by [new RoomVisual(roomName).line(from, to, style)]. *)
Record VisualLine := mkLine
  { line_room : string;
    line_from : RoomPosition.t;
    line_to : RoomPosition.t;
    line_color : string;
    line_style : string }.

(** [for (x = lo; x < bound; x += step)]: the values of the loop variable.
    The loop need not end; [fuel] bounds the number of iterations, and
    [unfinished] tells whether the loop was still running when it was used
    up. *)
Fixpoint stepped (fuel : nat) (x bound step : Z) : list Z :=
  match fuel with
  | O => []
  | S fuel' => if x <? bound then x :: stepped fuel' (x + step) bound step else []
  end.

Fixpoint unfinished (fuel : nat) (x bound step : Z) : bool :=
  match fuel with
  | O => x <? bound
  | S fuel' => if x <? bound then unfinished fuel' (x + step) bound step else false
  end.

(** [Pathing.blockExits] *)
Definition blockExits (fuel : nat) (matrix : MatrixRef) (rangeToEdge : Z)
  : ST Store unit :=
  run forEach (stepped fuel rangeToEdge (50 - rangeToEdge) (49 - rangeToEdge * 2))
        (fun x =>
           forEach (fromTo rangeToEdge (49 - rangeToEdge)) (fun y =>
             mset matrix x y 255));
  forEach (fromTo rangeToEdge (49 - rangeToEdge)) (fun x =>
    forEach (stepped fuel rangeToEdge (50 - rangeToEdge) (49 - rangeToEdge * 2))
      (fun y => mset matrix x y 255)).

Section PathingMore.

Variable W : World.

(** Modelled from the spec: [normalizePos] is a helper defined outside this
    class; the specification describes it as the single normalization of a
    position or a position-bearing entity to its position. *)
Definition normalizePos (target : Obstacle) : RoomPosition.t :=
  match target with
  | IsPos p => p
  | HasPos pos => pos
  end.

(** [Pathing.kitingRoomCallback]: the body of the method, called on the
    class. *)
Definition kitingRoomCallback (roomName : string) : ST Store CallbackResult :=
  match Game_rooms W roomName with
  | Some room =>
      do matrix <- getKitingMatrix room;
      do m <- gets (fun s => deref s matrix);
      pure (CbMatrix m)
  | None => pure (CbBool true)
  end.

(** The [callback] closure of [findFleePath]. *)
Definition fleeCallback (creepPos : RoomPosition.t) (options : MoveOptions)
    (roomName : string) : ST Store CallbackResult :=
  if negb (truthy (allowHostile options)) && shouldAvoid W roomName
     && negb (String.eqb roomName (RoomPosition.roomName creepPos))
  then pure (CbBool false)
  else
    match Game_rooms W roomName with
    | Some room =>
        do matrix <- getCostMatrix W room options false;
        match modifyRoomCallback options with
        | Some modify_ =>
            do copy <- clone matrix;
            do m <- gets (fun s => deref s copy);
            pure (modify_ room m)
        | None =>
            do m <- gets (fun s => deref s matrix);
            pure (CbMatrix m)
        end
    | None => pure (CbBool true)
    end.

(** [Pathing.findFleePath] *)
Definition findFleePath (creepPos : RoomPosition.t) (fleeFrom : list Obstacle)
    (options : MoveOptions) : ST Store PathFinderPath :=
  let options :=
    with_terrainCosts (dflt (terrainCosts options) (mkTerrainCosts 1 5)) options in
  let options :=
    match range options with
    | None =>
        with_range
          (Some (if 1 <? default 1 (plainCost <$> terrainCosts options) then 20 else 10))
          options
    | Some _ => options
    end in
  let fleeFromPos := map normalizePos fleeFrom in
  let avoidGoals := map (fun pos => mkGoal pos (range options)) fleeFromPos in
  PathFinder_search W creepPos (ManyGoals avoidGoals)
    (mkSearchOpts None None
                  (plainCost <$> terrainCosts options)
                  (swampCost <$> terrainCosts options) true)
    (fleeCallback creepPos options).

(** [Pathing.setCostsInRange] *)
Definition setCostsInRange (matrix : MatrixRef) (pos : Obstacle) (range cost : Z)
    (add : bool) : ST Store unit :=
  let pos := normalizePos pos in
  forEach (fromTo (- range) range) (fun dx =>
    let x := RoomPosition.x pos + dx in
    if (x <? 0) || (49 <? x) then pure tt
    else
      forEach (fromTo (- range) range) (fun dy =>
        let y := RoomPosition.y pos + dy in
        if (y <? 0) || (49 <? y) then pure tt
        else
          let terrain := getTerrainAt W x y (RoomPosition.roomName pos) in
          match terrain with
          | wall => pure tt
          | _ =>
              do currentCost <- mget matrix x y;
              let currentCost :=
                if currentCost =? 0
                then match terrain with
                     | plain => currentCost + 2
                     | _ => currentCost + 10
                     end
                else currentCost in
              if (255 <=? currentCost) || (cost <? currentCost) then pure tt
              else mset matrix x y
                        (if add then Z.min (cost + currentCost) 200 else cost)
          end)).

(** A saved path: [{path, length, tick}]. *)
Record CachedPath := mkCachedPath
  { cp_path : list RoomPosition.t;
    cp_length : Z;
    cp_tick : Z }.

(** [Pathing.savePath], on the table [Memory.pathing.paths] and with the
    value of [Game.time].  [_.first] of an empty path is undefined and reading
    its [name] throws: the result is [None] then. *)
Definition savePath (Game_time : Z) (path : list RoomPosition.t)
    (paths : gmap string (gmap string CachedPath))
  : option (gmap string (gmap string CachedPath)) :=
  let savedPath := mkCachedPath path (Z.of_nat (length path)) Game_time in
  match head path, last path with
  | Some first, Some last_ =>
      let originName := pos_name W first in
      let destinationName := pos_name W last_ in
      let paths :=
        match paths !! originName with
        | Some _ => paths
        | None => <[originName := ∅]> paths
        end in
      Some (<[originName := <[destinationName := savedPath]>
                              (default ∅ (paths !! originName))]> paths)
  | _, _ => None
  end.

(** The text [serializedPath += direction] appends for a direction. *)
Definition directionText (direction : option Z) : string :=
  match direction with
  | Some d => pretty d
  | None => "undefined"
  end.

Section SerializePath.

(** [lastPosition.getDirectionTo(position)], a method of the game engine:
    a direction, or undefined when the two positions coincide. *)
Variable getDirectionTo : RoomPosition.t -> RoomPosition.t -> option Z.

(** One iteration of the loop of [serializePath], on the serialized path,
    the last position and the lines drawn so far. *)
Definition serializeStep (color : string)
    (acc : string * RoomPosition.t * list VisualLine) (position : RoomPosition.t)
  : string * RoomPosition.t * list VisualLine :=
  let '(serializedPath, lastPosition, lines) := acc in
  if String.eqb (RoomPosition.roomName position) (RoomPosition.roomName lastPosition)
  then (String.append serializedPath
                      (directionText (getDirectionTo lastPosition position)),
        position,
        lines ++ [mkLine (RoomPosition.roomName position) position lastPosition
                         color "dashed"])
  else (serializedPath, position, lines).

(** [Pathing.serializePath]: the serialized path and the lines drawn. *)
Definition serializePath (startPos : RoomPosition.t) (path : list RoomPosition.t)
    (color : string) : string * list VisualLine :=
  let '(serializedPath, _, lines) :=
    fold_left (serializeStep color) path (EmptyString, startPos, []) in
  (serializedPath, lines).

End SerializePath.

End PathingMore.

(** ** Sample worlds *)

Module Samples.

Local Open Scope string_scope.

(** Rooms along one row of the map: the distance between two of them is
    the difference of their columns. *)
Definition column (roomName : string) : Z :=
  if String.eqb roomName "W1N1" then 1
  else if String.eqb roomName "W2N1" then 2
  else if String.eqb roomName "W3N1" then 3
  else if String.eqb roomName "W5N1" then 5
  else if String.eqb roomName "W6N1" then 6
  else 40.

Definition linearDistance (a b : string) : Z := Z.abs (column a - column b).

Definition emptyStore : Store := mkStore [] ∅.
Definition emptyState : State := mkState emptyStore ∅ ∅ [].

(** A route oracle that knows the direct neighbour step only. *)
Definition directRoute (origin destination : string)
    (routeCallback : string -> RouteCost) : option (list RouteStep) :=
  match routeCallback destination with
  | POSITIVE_INFINITY => None
  | Cost _ => Some [mkStep 7 destination]
  end.

Definition noRoute (origin destination : string)
    (routeCallback : string -> RouteCost) : option (list RouteStep) := None.

Definition allPlain (x y : Z) (roomName : string) : Terrain := plain.

(** A region that is open except for its centre tile, and one where the
    first tile of the first ring is walled as well. *)
Definition centreWalled (x y : Z) (roomName : string) : Terrain :=
  if ((x =? 25) && (y =? 25))%Z then wall else plain.

Definition centreAndCornerWalled (x y : Z) (roomName : string) : Terrain :=
  if ((x =? 25) && (y =? 25))%Z || ((x =? 24) && (y =? 24))%Z then wall else plain.

Definition nameOf (p : RoomPosition.t) : string :=
  RoomPosition.roomName p ++ ":" ++ pretty (RoomPosition.x p)
                          ++ ":" ++ pretty (RoomPosition.y p).

(** A search that fails. *)
Definition failingSearch (origin : RoomPosition.t) (goal : Goals)
    (opts : SearchOpts) (roomCallback : string -> ST Store CallbackResult)
  : ST Store PathFinderPath :=
  pure (mkPath [] true).

Definition world (rooms : string -> option Room)
    (terrain : Z -> Z -> string -> Terrain)
    (route : string -> string -> (string -> RouteCost) -> option (list RouteStep))
    (search : RoomPosition.t -> Goals -> SearchOpts ->
              (string -> ST Store CallbackResult) -> ST Store PathFinderPath)
  : World :=
  mkWorld rooms linearDistance terrain route ∅ (fun _ => ROOMTYPE_CONTROLLER)
          search nameOf.

(** A route oracle that accepts the direct step to the destination only if
    the callback gives the destination a finite cost. *)
Definition routeWorld : World :=
  world (fun _ => None) allPlain directRoute failingSearch.

(** A search that reports a complete path over the tiles (5, 6) and (5, 7)
    of W1N1, whatever the matrix says. *)
Definition straightSearch (origin : RoomPosition.t) (goal : Goals)
    (opts : SearchOpts) (roomCallback : string -> ST Store CallbackResult)
  : ST Store PathFinderPath :=
  pure (mkPath [RoomPosition.mk 5 6 "W1N1"; RoomPosition.mk 5 7 "W1N1"] false).

Definition straightWorld : World :=
  world (fun _ => None) allPlain noRoute straightSearch.

(** A search that completes only when the room callback closes the side
    region W3N1; left open, the search strays into it and gives up. *)
Definition detourSearch (origin : RoomPosition.t) (goal : Goals)
    (opts : SearchOpts) (roomCallback : string -> ST Store CallbackResult)
  : ST Store PathFinderPath :=
  do answer <- roomCallback "W3N1";
  match answer with
  | CbBool false =>
      pure (mkPath [RoomPosition.mk 49 5 "W1N1"; RoomPosition.mk 0 5 "W2N1"] false)
  | _ => pure (mkPath [RoomPosition.mk 6 5 "W1N1"] true)
  end.

Definition detourWorld : World :=
  world (fun _ => None) allPlain directRoute detourSearch.

Definition ensured : MoveOptions := with_ensurePath (Some true) noOptions.

(** A search that gives up after one tile. *)
Definition strandedSearch (origin : RoomPosition.t) (goal : Goals)
    (opts : SearchOpts) (roomCallback : string -> ST Store CallbackResult)
  : ST Store PathFinderPath :=
  pure (mkPath [RoomPosition.mk 6 5 "W1N1"] true).

Definition strandedWorld : World :=
  world (fun _ => None) allPlain noRoute strandedSearch.

(** A search that gives up when it starts in W1N1 and finds a two-tile path
    when it starts anywhere else. *)
Definition oneWaySearch (origin : RoomPosition.t) (goal : Goals)
    (opts : SearchOpts) (roomCallback : string -> ST Store CallbackResult)
  : ST Store PathFinderPath :=
  if String.eqb (RoomPosition.roomName origin) "W1N1"
  then pure (mkPath [] true)
  else pure (mkPath [RoomPosition.mk 0 5 "W2N1"; RoomPosition.mk 49 5 "W1N1"] false).

Definition oneWayWorld : World :=
  world (fun _ => None) allPlain noRoute oneWaySearch.

(** A region with walls at (10, 10) and (11, 11); one observed room without
    any structure, and one with a road on the wall at (11, 11), a rampart
    over a road at (20, 20) and a constructed wall at (30, 30). *)
Definition twoWalls (x y : Z) (roomName : string) : Terrain :=
  if ((x =? 10) && (y =? 10))%Z || ((x =? 11) && (y =? 11))%Z then wall else plain.

Definition bareRoom : Room := mkRoom "W1N1" [] [] [] [] [].

Definition builtRoom : Room :=
  mkRoom "W1N1"
    [mkStructure (RoomPosition.mk 11 11 "W1N1") STRUCTURE_ROAD true;
     mkStructure (RoomPosition.mk 20 20 "W1N1") STRUCTURE_ROAD true;
     mkStructure (RoomPosition.mk 20 20 "W1N1") STRUCTURE_RAMPART true;
     mkStructure (RoomPosition.mk 30 30 "W1N1") STRUCTURE_WALL false]
    [] [] [] [].

Definition twoWallsWorld (room : Room) : World :=
  world (fun roomName => if String.eqb roomName "W1N1" then Some room else None)
        twoWalls noRoute failingSearch.

(** A room with one hostile attacker at (10, 10) and a constructed wall at
    (14, 14), four tiles away diagonally. *)
Definition attacker : Creep := mkCreep (RoomPosition.mk 10 10 "W1N1") 2 0.

Definition kitingRoom : Room :=
  mkRoom "W1N1"
    [mkStructure (RoomPosition.mk 14 14 "W1N1") STRUCTURE_WALL false]
    [] [attacker] [attacker] [].

(** Two different obstacle sets for the built room. *)
Definition obstaclesNorth : list RoomPosition.t :=
  [RoomPosition.mk 5 5 "W1N1"; RoomPosition.mk 6 5 "W1N1"].

Definition obstaclesSouth : list RoomPosition.t :=
  [RoomPosition.mk 5 40 "W1N1"; RoomPosition.mk 20 20 "W1N1"].

Definition posA : RoomPosition.t := RoomPosition.mk 5 5 "W1N1".
Definition posB : RoomPosition.t := RoomPosition.mk 5 5 "W2N1".

Definition override3 : MoveOptions := with_restrictDistance (Some 3) noOptions.

Definition centreWalledWorld : World :=
  world (fun _ => None) centreWalled noRoute failingSearch.

Definition cornerWalledWorld : World :=
  world (fun _ => None) centreAndCornerWalled noRoute failingSearch.

End Samples.

(** ** More samples *)

Module MoreSamples.

Local Open Scope string_scope.

(** A direction oracle: the compass direction of the second position seen
    from the first, undefined when they coincide. *)
Definition compassTo (a b : RoomPosition.t) : option Z :=
  let dx := RoomPosition.x b - RoomPosition.x a in
  let dy := RoomPosition.y b - RoomPosition.y a in
  (if 0 <? dx then Some (if dy <? 0 then 2 else if 0 <? dy then 4 else 3)
   else if dx <? 0 then Some (if dy <? 0 then 8 else if 0 <? dy then 6 else 7)
   else (if dy <? 0 then Some 1 else if 0 <? dy then Some 5 else None))%Z.

(** A path that walks two tiles in W1N1, crosses into W2N1 and walks one
    tile there. *)
Definition crossing : list RoomPosition.t :=
  [RoomPosition.mk 48 5 "W1N1"; RoomPosition.mk 49 6 "W1N1";
   RoomPosition.mk 0 6 "W2N1"; RoomPosition.mk 1 6 "W2N1"].

Definition walker (path : string) : Zerg :=
  mkZerg (RoomPosition.mk 47 5 "W1N1") (Some (mkMoveData (Some path))).

(** A room with one hostile attacker at (10, 10) and nothing built. *)
Definition openKitingRoom : Room :=
  mkRoom "W1N1" [] [] [Samples.attacker] [Samples.attacker] [].

(** A keeper room with one lair at (10, 10), in a world where every room is
    a keeper room. *)
Definition keeperRoom : Room :=
  mkRoom "W5N5" [] [] [] []
         [mkStructure (RoomPosition.mk 10 10 "W5N5") STRUCTURE_KEEPER_LAIR false].

Definition keeperWorld : World :=
  mkWorld (fun _ => None) Samples.linearDistance Samples.allPlain Samples.noRoute ∅
          (fun _ => ROOMTYPE_SOURCEKEEPER) Samples.failingSearch Samples.nameOf.

End MoreSamples.

(** * Vocabulary of the statements *)

Section Vocabulary.

Import CostMatrix.

Variable W : World.

(** ** Matrices in the heap *)

(** [updates r F c]: the computation [c] rewrites the matrix at [r] by [F]
    and does nothing else. *)
Definition updates (r : MatrixRef) (F : CostMatrix.t -> CostMatrix.t)
    (c : ST Store unit) : Prop :=
  forall s, (r < length (heap s))%nat ->
    c s = (tt, mkStore (<[r := F (deref s r)]> (heap s)) (roomCache s)).

(** A cache keeps what an earlier cache held. *)
Definition keeps (c c' : RoomCache) : Prop :=
  (forall r, _defaultMatrix c = Some r -> _defaultMatrix c' = Some r)
  /\ (forall r, _directMatrix c = Some r -> _directMatrix c' = Some r)
  /\ (forall r, _creepMatrix c = Some r -> _creepMatrix c' = Some r)
  /\ (forall r, _kitingMatrix c = Some r -> _kitingMatrix c' = Some r)
  /\ (forall r, _skMatrix c = Some r -> _skMatrix c' = Some r).

(** [extends s s']: every matrix of [s] is in [s'] with the same cells, and
    every cached matrix of [s] is still the cached matrix in [s']. *)
Definition extends (s s' : Store) : Prop :=
  (exists fresh, heap s' = heap s ++ fresh)
  /\ (forall room, keeps (cacheOf s room) (cacheOf s' room)).

(** The reference is held by one of the slots. *)
Definition cachedIn (c : RoomCache) (r : MatrixRef) : Prop :=
  _defaultMatrix c = Some r \/ _directMatrix c = Some r \/ _creepMatrix c = Some r
  \/ _kitingMatrix c = Some r \/ _skMatrix c = Some r.

(** References held by the caches point into the heap. *)
Definition store_wf (s : Store) : Prop :=
  forall room r, cachedIn (cacheOf s room) r -> (r < length (heap s))%nat.

(** What a caching getter guarantees: the store is extended, stays well
    formed, and the returned matrix is in the heap. *)
Definition getter_ok (s : Store) (result : MatrixRef * Store) : Prop :=
  extends s (snd result) /\ store_wf (snd result)
  /\ (fst result < length (heap (snd result)))%nat.

(** ** The cells the matrix builders write *)

(** [s.structureType == STRUCTURE_ROAD] *)
Definition isRoad (s : Structure) : bool :=
  StructureType_eqb (structureType s) STRUCTURE_ROAD.

(** The position is on the tile (x, y). *)
Definition onTile (p : RoomPosition.t) (x y : Z) : bool :=
  (RoomPosition.x p =? x) && (RoomPosition.y p =? y).

(** A road on the tile. *)
Definition roadAt (room : Room) (x y : Z) : bool :=
  existsb (fun s => isRoad s && onTile (s_pos s) x y) (find_structures room).

(** A structure on the tile that is not a road and not walkable. *)
Definition impassableAt (room : Room) (x y : Z) : bool :=
  existsb (fun s => negb (isRoad s) && negb (isWalkable s) && onTile (s_pos s) x y)
          (find_structures room).

(** A construction site of the player on the tile that is not walkable. *)
Definition blockingSiteAt (room : Room) (x y : Z) : bool :=
  existsb (fun site => my site && negb (site_isWalkable site) && onTile (site_pos site) x y)
          (find_construction_sites room).

(** The cells [getDefaultMatrix] writes, as a function of the room. *)
Definition defaultContent (room : Room) : CostMatrix.t :=
  let m :=
    fold_left (fun m s =>
                 if isRoad s
                 then set m (RoomPosition.x (s_pos s)) (RoomPosition.y (s_pos s)) 1
                 else m)
              (find_structures room) new in
  let impassibleStructures :=
    fold_left (fun acc s =>
                 if isRoad s then acc
                 else if negb (isWalkable s) then acc ++ [s] else acc)
              (find_structures room) [] in
  let m :=
    fold_left (fun m s => set m (RoomPosition.x (s_pos s)) (RoomPosition.y (s_pos s)) 255)
              impassibleStructures m in
  fold_left (fun m site =>
               if my site && negb (site_isWalkable site)
               then set m (RoomPosition.x (site_pos site))
                          (RoomPosition.y (site_pos site)) 255
               else m)
            (find_construction_sites room) m.

(** The cells [getDirectMatrix] writes. *)
Definition directContent (room : Room) : CostMatrix.t :=
  let impassibleStructures :=
    fold_left (fun acc s => if negb (isWalkable s) then acc ++ [s] else acc)
              (find_structures room) [] in
  let m :=
    fold_left (fun m s => set m (RoomPosition.x (s_pos s)) (RoomPosition.y (s_pos s)) 255)
              impassibleStructures new in
  fold_left (fun m site =>
               if my site && negb (site_isWalkable site)
               then set m (RoomPosition.x (site_pos site))
                          (RoomPosition.y (site_pos site)) 255
               else m)
            (find_construction_sites room) m.

(** The cells [getCreepMatrix] writes on its copy of the default matrix. *)
Definition creepContent (room : Room) (m : CostMatrix.t) : CostMatrix.t :=
  fold_left (fun m c => set m (RoomPosition.x (c_pos c)) (RoomPosition.y (c_pos c)) 255)
            (find_creeps room) m.

(** The offsets around a hostile, in the order of the two loops. *)
Definition offsets3 : list (Z * Z) :=
  flat_map (fun dx => map (pair dx) (fromTo (-3) 3)) (fromTo (-3) 3).

(** The body of the two offset loops of [getKitingMatrix], for a hostile at
    (cx, cy). *)
Definition addAt (cx cy : Z) (m : CostMatrix.t) (offset : Z * Z) : CostMatrix.t :=
  set m (cx + fst offset) (cy + snd offset)
      (get m (cx + fst offset) (cy + snd offset)
       + (40 - 10 * Z.max (Z.abs (fst offset)) (Z.abs (snd offset)))).

(** What [getKitingMatrix] does around one hostile. *)
Definition kiteAround (avoidCreep : Creep) (m : CostMatrix.t) : CostMatrix.t :=
  fold_left (fun m dx =>
    fold_left (fun m dy =>
      set m (RoomPosition.x (c_pos avoidCreep) + dx) (RoomPosition.y (c_pos avoidCreep) + dy)
          (get m (RoomPosition.x (c_pos avoidCreep) + dx)
                 (RoomPosition.y (c_pos avoidCreep) + dy)
           + (40 - 10 * Z.max (Z.abs dx) (Z.abs dy))))
      (fromTo (-3) 3) m)
    (fromTo (-3) 3) m.

(** The cells [getKitingMatrix] writes on its copy of the creep matrix. *)
Definition kitingContent (room : Room) (m : CostMatrix.t) : CostMatrix.t :=
  fold_left (fun m avoidCreep => kiteAround avoidCreep m) (avoidCreeps room) m.

(** The penalty one hostile puts on a tile. *)
Definition penalty (avoidCreep : Creep) (x y : Z) : Z :=
  let range := Z.max (Z.abs (x - RoomPosition.x (c_pos avoidCreep)))
                     (Z.abs (y - RoomPosition.y (c_pos avoidCreep))) in
  if range <=? 3 then 40 - 10 * range else 0.

(** The sum of a list of numbers. *)
Definition sumZ (zs : list Z) : Z := fold_right Z.add 0 zs.

(** The cells [getSkMatrix] writes on its copy of the default matrix. *)
Definition skContent (room : Room) (m : CostMatrix.t) : CostMatrix.t :=
  fold_left (fun m lair =>
    fold_left (fun m dx =>
      fold_left (fun m dy =>
        set m (RoomPosition.x (s_pos lair) + dx) (RoomPosition.y (s_pos lair) + dy) 255)
        (fromTo (- 5) 5) m)
      (fromTo (- 5) 5) m)
    (keeperLairs room) m.

(** The cells [getCostMatrix] writes on its copy for the caller's obstacles. *)
Definition registerObstacles (room : Room) (obstacles : list RoomPosition.t)
    (m : CostMatrix.t) : CostMatrix.t :=
  fold_left (fun m obstacle =>
               if String.eqb (RoomPosition.roomName obstacle) (name room)
               then set m (RoomPosition.x obstacle) (RoomPosition.y obstacle) 255
               else m)
            obstacles m.

(** The matrix the options select, before obstacles and copying: the first
    step of [getCostMatrix]. *)
Definition baseMatrix (room : Room) (options : MoveOptions) : ST Store MatrixRef :=
  if bool_decide (ignoreCreeps options = Some false) then getCreepMatrix room
  else if truthy (avoidSK options) then getSkMatrix W room
  else if truthy (ignoreStructures options) then newMatrix
  else if truthy (direct options) then getDirectMatrix room
  else getDefaultMatrix room.

(** The room cache after [room._defaultMatrix = matrix], and likewise for the
    other slots. *)
Definition cacheDefault (r : MatrixRef) (c : RoomCache) : RoomCache :=
  mkCache (Some r) (_directMatrix c) (_creepMatrix c) (_kitingMatrix c) (_skMatrix c).

Definition cacheDirect (r : MatrixRef) (c : RoomCache) : RoomCache :=
  mkCache (_defaultMatrix c) (Some r) (_creepMatrix c) (_kitingMatrix c) (_skMatrix c).

Definition cacheCreep (r : MatrixRef) (c : RoomCache) : RoomCache :=
  mkCache (_defaultMatrix c) (_directMatrix c) (Some r) (_kitingMatrix c) (_skMatrix c).

Definition cacheKiting (r : MatrixRef) (c : RoomCache) : RoomCache :=
  mkCache (_defaultMatrix c) (_directMatrix c) (_creepMatrix c) (Some r) (_skMatrix c).

Definition cacheSk (r : MatrixRef) (c : RoomCache) : RoomCache :=
  mkCache (_defaultMatrix c) (_directMatrix c) (_creepMatrix c) (_kitingMatrix c) (Some r).

(** ** Route restriction *)

(** The value of the local [restrictDistance] of [findRoute]. *)
Definition restrictRadius (origin destination : string) (options : MoveOptions) : Z :=
  orNumber (restrictDistance options)
           (getRoomLinearDistance W origin destination + 10).

(** The value of the local [highwayBias] of [findRoute]. *)
Definition highwayBiasOf (options : MoveOptions) : Q :=
  if truthy (preferHighway options) then 5 # 2 else 1 # 1.

(** The callback [findRoute] hands to [Game.map.findRoute]. *)
Definition findRoute_callback (origin destination : string) (options : MoveOptions)
  : string -> RouteCost :=
  routeCallback W origin destination options
                (restrictRadius origin destination options) (highwayBiasOf options).

(** ** The search wrapper *)

(** The options object as [findPath] leaves it before the search: defaults
    filled in, range 0 for a moving target, flat terrain costs when direct. *)
Definition prepared (options : MoveOptions) : MoveOptions :=
  let options := findPath_defaults options in
  let options :=
    if truthy (movingTarget options) then with_range (Some 0) options else options in
  if truthy (direct options)
  then with_terrainCosts (Some (mkTerrainCosts 1 1)) options else options.

(** One attempt: the body of [findPath] up to and including its single call
    of [PathFinder.search]. *)
Definition attempt (origin destination : RoomPosition.t) (options : MoveOptions)
  : ST State PathFinderPath :=
  let options := findPath_defaults options in
  let options :=
    if truthy (movingTarget options) then with_range (Some 0) options else options in
  let roomDistance :=
    getRoomLinearDistance W (RoomPosition.roomName origin)
                            (RoomPosition.roomName destination) in
  let allowedRooms := route options in
  do allowedRooms <-
    (if negb (bool_decide (is_Some allowedRooms))
        && (truthy (useFindRoute options)
            || (bool_decide (useFindRoute options = None) && (2 <? roomDistance)))
     then findRoute W (RoomPosition.roomName origin)
                      (RoomPosition.roomName destination) options
     else pure allowedRooms);
  let options :=
    if truthy (direct options)
    then with_terrainCosts (Some (mkTerrainCosts 1 1)) options else options in
  liftStore
    (PathFinder_search W origin (OneGoal (mkGoal destination (range options)))
       (mkSearchOpts (maxOps options) (maxRooms options)
                     (plainCost <$> terrainCosts options)
                     (swampCost <$> terrainCosts options) false)
       (fun roomName =>
          roomCallback W roomName origin destination allowedRooms options)).

(** The state after one more log entry. *)
Definition logged (e : LogEntry) (st : State) : State :=
  mkState (store st) (distances st) (weightedDistances st) (log st ++ [e]).

(** ** The distance memo *)

(** The pair of positions [weightedDistance] works with. *)
Definition weightedPair (arg1 arg2 : RoomPosition.t) : RoomPosition.t * RoomPosition.t :=
  if String.ltb (pos_name W arg1) (pos_name W arg2) then (arg1, arg2) else (arg2, arg1).

(** ** Reachability and the nearest walkable tile *)

(** The position of an obstacle. *)
Definition obstaclePos (obstacle : Obstacle) : RoomPosition.t :=
  match obstacle with IsPos p => p | HasPos pos => pos end.

(** Whether one of the obstacles sits on the tile (x, y). *)
Definition onObstacle (obstacles : list Obstacle) (x y : Z) : bool :=
  existsb (fun obstacle => (RoomPosition.x (obstaclePos obstacle) =? x)
                           && (RoomPosition.y (obstaclePos obstacle) =? y))
          obstacles.

(** The search [isReachable] runs once the two positions share a region. *)
Definition isReachable_search (startPos endPos : RoomPosition.t)
    (obstacles : list Obstacle) (options : MoveOptions) : ST Store PathFinderPath :=
  PathFinder_search W startPos
    (OneGoal (mkGoal endPos (range (isReachable_defaults options))))
    (mkSearchOpts (maxOps (isReachable_defaults options)) (Some 1) (Some 1) (Some 5) false)
    (fun roomName : string =>
       if String.eqb roomName (RoomPosition.roomName endPos)
       then pure (CbMatrix (obstacleMatrix obstacles)) else pure (CbBool false)).

(** The offsets from the centre in the order [findPathablePosition] visits
    them: ring by ring, each ring column by column. *)
Definition scanOffsets : list (Z * Z) :=
  flat_map (fun radius =>
    flat_map (fun dx =>
      flat_map (fun dy =>
        if negb (Z.abs dy =? radius) && negb (Z.abs dx =? radius)
        then [] else [(dx, dy)])
        (fromTo (- radius) radius))
      (fromTo (- radius) radius))
    (fromTo 0 22).

(** What the loop body does with one scanned offset. *)
Definition probe (roomName : string) (offset : Z * Z) : option RoomPosition.t :=
  let x := 25 + fst offset in
  let y := 25 + snd offset in
  match getTerrainAt W x y roomName with
  | wall => None
  | _ => Some (RoomPosition.mk x y roomName)
  end.

(** The position returned when no tile is found. *)
Definition sentinel : RoomPosition.t :=
  RoomPosition.mk (-10) (-10) "cannotFindPathablePosition".

End Vocabulary.

(** * Vocabulary of the statements about the rest of the class *)

Section MoreVocabulary.

Import CostMatrix.

Variable W : World.

(** ** Directions *)

(** The step a direction takes on the grid: x grows to the right, y grows
    to the bottom. *)
Definition directionOffset (direction : DirectionConstant) : Z * Z :=
  match direction with
  | TOP => (0, -1) | TOP_RIGHT => (1, -1) | RIGHT => (1, 0) | BOTTOM_RIGHT => (1, 1)
  | BOTTOM => (0, 1) | BOTTOM_LEFT => (-1, 1) | LEFT => (-1, 0) | TOP_LEFT => (-1, -1)
  end.

(** The position is a tile of the grid. *)
Definition onGrid (p : RoomPosition.t) : Prop :=
  in_grid (RoomPosition.x p) (RoomPosition.y p) = true.

(** The range between two positions of one room: the larger of the two
    coordinate differences. *)
Definition rangeBetween (p q : RoomPosition.t) : Z :=
  Z.max (Z.abs (RoomPosition.x p - RoomPosition.x q))
        (Z.abs (RoomPosition.y p - RoomPosition.y q)).

(** ** Serialized paths *)

(** The steps of a path that stay in one room, each with the position it
    starts from; [serializePath] encodes exactly these. *)
Fixpoint sameRoomSteps (lastPosition : RoomPosition.t) (path : list RoomPosition.t)
  : list (RoomPosition.t * RoomPosition.t) :=
  match path with
  | [] => []
  | position :: rest =>
      (if String.eqb (RoomPosition.roomName position) (RoomPosition.roomName lastPosition)
       then [(lastPosition, position)] else [])
      ++ sameRoomSteps position rest
  end.

(** The digits written for a list of steps. *)
Definition stepCodes (getDirectionTo : RoomPosition.t -> RoomPosition.t -> option Z)
    (steps : list (RoomPosition.t * RoomPosition.t)) : string :=
  fold_right (fun step codes =>
                String.append (directionText (getDirectionTo (fst step) (snd step)))
                              codes)
             EmptyString steps.

(** The line drawn for a step. *)
Definition stepLine (color : string) (step : RoomPosition.t * RoomPosition.t)
  : VisualLine :=
  mkLine (RoomPosition.roomName (snd step)) (snd step) (fst step) color "dashed".

(** ** Matrix operations *)

(** The tile lies on the square ring of tiles at distance [rangeToEdge] from
    the edge of the grid. *)
Definition onRing (rangeToEdge x y : Z) : bool :=
  (rangeToEdge <=? x) && (x <=? 49 - rangeToEdge)
  && (rangeToEdge <=? y) && (y <=? 49 - rangeToEdge)
  && ((x =? rangeToEdge) || (x =? 49 - rangeToEdge)
      || (y =? rangeToEdge) || (y =? 49 - rangeToEdge)).

(** The cost [setCostsInRange] compares with the new one: an unset tile
    counts as its terrain. *)
Definition effectiveCost (terrain : Terrain) (currentCost : Z) : Z :=
  if currentCost =? 0
  then match terrain with
       | plain => currentCost + 2
       | _ => currentCost + 10
       end
  else currentCost.

(** What [setCostsInRange] writes on a tile it visits, if anything. *)
Definition rangeCost (terrain : Terrain) (cost : Z) (add : bool) (currentCost : Z)
  : option Z :=
  match terrain with
  | wall => None
  | _ =>
      let currentCost := effectiveCost terrain currentCost in
      if (255 <=? currentCost) || (cost <? currentCost) then None
      else Some (if add then Z.min (cost + currentCost) 200 else cost)
  end.

Definition writeInRange (roomName : string) (cost : Z) (add : bool) (x y currentCost : Z)
  : option Z :=
  if in_grid x y then rangeCost (getTerrainAt W x y roomName) cost add currentCost
  else None.

(** The tile is within [range] of the centre in both coordinates. *)
Definition inRangeOf (centre : RoomPosition.t) (range x y : Z) : bool :=
  (Z.abs (x - RoomPosition.x centre) <=? range)
  && (Z.abs (y - RoomPosition.y centre) <=? range).

(** The tiles [setCostsInRange] visits, in the order of its two loops. *)
Definition rangeCells (centre : RoomPosition.t) (range : Z) : list (Z * Z) :=
  flat_map (fun dx => map (fun dy => (RoomPosition.x centre + dx,
                                      RoomPosition.y centre + dy))
                          (fromTo (- range) range))
           (fromTo (- range) range).

(** A loop body that rewrites the tile it visits from the cost it reads
    there. *)
Definition pointStep (upd : Z -> Z -> Z -> option Z) (m : CostMatrix.t) (c : Z * Z)
  : CostMatrix.t :=
  match upd (fst c) (snd c) (get m (fst c) (snd c)) with
  | Some v => set m (fst c) (snd c) v
  | None => m
  end.

(** ** What the derived matrices mark *)

(** A structure on the tile that is not walkable, roads included. *)
Definition unwalkableAt (room : Room) (x y : Z) : bool :=
  existsb (fun s => negb (isWalkable s) && onTile (s_pos s) x y) (find_structures room).

(** A creep on the tile. *)
Definition creepAt (room : Room) (x y : Z) : bool :=
  existsb (fun c => onTile (c_pos c) x y) (find_creeps room).

(** A keeper lair within range 5 of the tile. *)
Definition lairNear (room : Room) (x y : Z) : bool :=
  existsb (fun lair => inRangeOf (s_pos lair) 5 x y) (keeperLairs room).

(** ** Routes *)

(** The room is the origin, the destination or the room of a step of the
    route. *)
Definition onRoute (origin destination : string) (steps : list RouteStep)
    (roomName : string) : bool :=
  String.eqb roomName origin || String.eqb roomName destination
  || existsb (fun step => String.eqb (room step) roomName) steps.

(** One of the obstacles whose room name is the room's is on the tile. *)
Definition obstacleHere (room : Room) (obstacles : list RoomPosition.t) (x y : Z)
  : bool :=
  existsb (fun obstacle => String.eqb (RoomPosition.roomName obstacle) (name room)
                           && onTile obstacle x y)
          obstacles.

(** ** Saved paths *)

(** [paths[originName][destinationName]] *)
Definition savedAt (paths : gmap string (gmap string CachedPath))
    (originName destinationName : string) : option CachedPath :=
  match paths !! originName with
  | Some row => row !! destinationName
  | None => None
  end.

End MoreVocabulary.

(** * Properties *)

(** ** Loops *)

Lemma firstSome_ext {A B} (xs : list A) (f g : A -> option B) :
  (forall a, f a = g a) -> firstSome xs f = firstSome xs g.
Proof.
  intros Hfg. induction xs as [|a rest IH]; simpl; [reflexivity|].
  rewrite Hfg, IH. reflexivity.
Qed.

Lemma firstSome_app {A B} (xs ys : list A) (f : A -> option B) :
  firstSome (xs ++ ys) f =
  match firstSome xs f with Some b => Some b | None => firstSome ys f end.
Proof.
  induction xs as [|a rest IH]; simpl; [reflexivity|].
  destruct (f a); [reflexivity | exact IH].
Qed.

Lemma firstSome_flat_map {A B C} (xs : list A) (g : A -> list B) (f : B -> option C) :
  firstSome (flat_map g xs) f = firstSome xs (fun a => firstSome (g a) f).
Proof.
  induction xs as [|a rest IH]; simpl; [reflexivity|].
  rewrite firstSome_app, IH. reflexivity.
Qed.

Lemma firstSome_None {A B} (xs : list A) (f : A -> option B) :
  Forall (fun a => f a = None) xs -> firstSome xs f = None.
Proof.
  induction 1 as [|a rest Ha _ IH]; simpl; [reflexivity|].
  rewrite Ha. exact IH.
Qed.

(** ** Cost matrix cells *)

Module CostMatrixFacts.

Import CostMatrix.

Lemma in_grid_spec (x y : Z) :
  in_grid x y = true <-> 0 <= x <= 49 /\ 0 <= y <= 49.
Proof. unfold in_grid. rewrite !andb_true_iff, !Z.leb_le. lia. Qed.

Lemma index_lt (x y : Z) : in_grid x y = true -> (index x y < 2500)%nat.
Proof. rewrite in_grid_spec. unfold index. lia. Qed.

Lemma index_inj (x y x' y' : Z) :
  in_grid x y = true -> in_grid x' y' = true ->
  index x y = index x' y' -> x = x' /\ y = y'.
Proof. rewrite !in_grid_spec. unfold index. lia. Qed.

Lemma length_new : length (_bits new) = 2500%nat.
Proof. reflexivity. Qed.

Lemma length_set (m : t) (x y val : Z) :
  length (_bits (set m x y val)) = length (_bits m).
Proof.
  unfold set. destruct (in_grid x y); simpl; [apply length_insert | reflexivity].
Qed.

Lemma get_new (x y : Z) : get new x y = 0.
Proof.
  unfold get. destruct (in_grid x y) eqn:Hg; [|reflexivity].
  change (_bits new) with (replicate 2500%nat 0).
  rewrite lookup_replicate_2; [reflexivity | apply index_lt, Hg].
Qed.

Lemma get_outside (m : t) (x y : Z) : in_grid x y = false -> get m x y = 0.
Proof. unfold get. intros ->. reflexivity. Qed.

Lemma get_set_same (m : t) (x y val : Z) :
  length (_bits m) = 2500%nat -> in_grid x y = true ->
  get (set m x y val) x y = clamp val.
Proof.
  intros Hlen Hg. unfold get, set. rewrite Hg. simpl.
  rewrite list_lookup_insert_eq; [reflexivity|].
  rewrite Hlen. apply index_lt, Hg.
Qed.

Lemma get_set_other (m : t) (x y x' y' val : Z) :
  (x, y) <> (x', y') -> get (set m x y val) x' y' = get m x' y'.
Proof.
  intros Hne. unfold get, set.
  destruct (in_grid x y) eqn:Hg; [|reflexivity].
  destruct (in_grid x' y') eqn:Hg'; [|reflexivity]. simpl.
  rewrite list_lookup_insert_ne; [reflexivity|].
  intros Heq. apply index_inj in Heq; [|assumption..].
  destruct Heq; congruence.
Qed.

Lemma get_set (m : t) (x y x' y' val : Z) :
  length (_bits m) = 2500%nat ->
  get (set m x y val) x' y' =
  if in_grid x y && (x =? x') && (y =? y') then clamp val else get m x' y'.
Proof.
  intros Hlen.
  destruct (in_grid x y) eqn:Hg; simpl.
  - destruct (Z.eqb_spec x x') as [->|Hx]; simpl.
    + destruct (Z.eqb_spec y y') as [->|Hy].
      * apply get_set_same; assumption.
      * apply get_set_other. congruence.
    + apply get_set_other. congruence.
  - unfold set. rewrite Hg. reflexivity.
Qed.

Lemma wf_new : wf new.
Proof.
  split; [reflexivity|]. change (_bits new) with (replicate 2500%nat 0).
  apply Forall_replicate. lia.
Qed.

Lemma wf_set (m : t) (x y val : Z) : wf m -> wf (set m x y val).
Proof.
  intros [Hlen Hbytes]. split; [rewrite length_set; exact Hlen|].
  unfold set. destruct (in_grid x y); [|exact Hbytes]. simpl.
  apply Forall_insert; [exact Hbytes|]. unfold clamp. lia.
Qed.

Lemma get_byte (m : t) (x y : Z) : wf m -> 0 <= get m x y <= 255.
Proof.
  intros [_ Hbytes]. unfold get. destruct (in_grid x y); [|lia].
  destruct (_bits m !! index x y) as [b|] eqn:Hb; simpl; [|lia].
  rewrite Forall_forall in Hbytes. apply Hbytes.
  apply list_elem_of_lookup. eauto.
Qed.

End CostMatrixFacts.

(** ** Matrices in the heap *)

Section Heap.

Lemma deref_insert (s : Store) (r : MatrixRef) (m : CostMatrix.t) :
  (r < length (heap s))%nat ->
  deref (mkStore (<[r := m]> (heap s)) (roomCache s)) r = m.
Proof.
  intros Hr. unfold deref. cbn [heap].
  rewrite list_lookup_insert_eq by exact Hr. reflexivity.
Qed.

Lemma updates_mset (r : MatrixRef) (x y val : Z) :
  updates r (fun m => CostMatrix.set m x y val) (mset r x y val).
Proof. intros s _. reflexivity. Qed.

Lemma updates_pure (r : MatrixRef) : updates r (fun m => m) (pure tt).
Proof.
  intros s Hr. unfold pure. f_equal. destruct s as [h c]. cbn [heap roomCache] in *.
  f_equal. symmetry. unfold deref. cbn [heap].
  destruct (lookup_lt_is_Some_2 h r Hr) as [m Hm]. rewrite Hm. cbn [default].
  apply list_insert_id. exact Hm.
Qed.

Lemma updates_bind (r : MatrixRef) (F G : CostMatrix.t -> CostMatrix.t)
    (c1 c2 : ST Store unit) :
  updates r F c1 -> updates r G c2 ->
  updates r (fun m => G (F m)) (run c1; c2).
Proof.
  intros H1 H2 s Hr. unfold bind. rewrite (H1 s Hr).
  rewrite H2 by (cbn [heap]; rewrite length_insert; exact Hr).
  rewrite deref_insert by exact Hr. cbn [heap roomCache].
  rewrite list_insert_insert_eq. reflexivity.
Qed.

Lemma updates_ext (r : MatrixRef) (F G : CostMatrix.t -> CostMatrix.t)
    (c : ST Store unit) :
  (forall m, F m = G m) -> updates r F c -> updates r G c.
Proof. intros Hfg Hc s Hr. rewrite (Hc s Hr), Hfg. reflexivity. Qed.

Lemma updates_forEach {A} (r : MatrixRef) (F : A -> CostMatrix.t -> CostMatrix.t)
    (f : A -> ST Store unit) (xs : list A) :
  (forall a, updates r (F a) (f a)) ->
  updates r (fun m => fold_left (fun m a => F a m) xs m) (forEach xs f).
Proof.
  intros Hf. induction xs as [|a rest IH]; cbn [forEach fold_left].
  - apply updates_pure.
  - eapply updates_ext; [|apply (updates_bind r (F a) _ _ _ (Hf a) IH)].
    reflexivity.
Qed.

(** The body of the kiting loop: read a cell, add, write it back. *)
Lemma updates_add (r : MatrixRef) (x y delta : Z) :
  updates r (fun m => CostMatrix.set m x y (CostMatrix.get m x y + delta))
          (do cost <- mget r x y; let cost := cost + delta in mset r x y cost).
Proof. intros s _. reflexivity. Qed.

(** A loop that rewrites the matrix at [r] and grows a local array. *)
Lemma foldM_updates {A B} (r : MatrixRef) (F : A -> CostMatrix.t -> CostMatrix.t)
    (G : B -> A -> B) (f : B -> A -> ST Store B) (xs : list A) :
  (forall acc a s, (r < length (heap s))%nat ->
     f acc a s = (G acc a, mkStore (<[r := F a (deref s r)]> (heap s)) (roomCache s))) ->
  forall acc s, (r < length (heap s))%nat ->
    foldM xs acc f s
    = (fold_left G xs acc,
       mkStore (<[r := fold_left (fun m a => F a m) xs (deref s r)]> (heap s))
               (roomCache s)).
Proof.
  intros Hf. induction xs as [|a rest IH]; intros acc s Hr; cbn [foldM fold_left].
  - pose proof (updates_pure r s Hr) as Hid. unfold pure in *.
    injection Hid as Hid. rewrite <- Hid. destruct s; reflexivity.
  - unfold bind. rewrite (Hf acc a s Hr).
    rewrite IH by (cbn [heap]; rewrite length_insert; exact Hr).
    rewrite deref_insert by exact Hr. cbn [heap roomCache].
    rewrite list_insert_insert_eq. reflexivity.
Qed.

(** A matrix that is allocated and then filled by [c] ends up as one new
    cell at the end of the heap. *)
Lemma alloc_then_update {A} (m0 : CostMatrix.t) (F : CostMatrix.t -> CostMatrix.t)
    (c : MatrixRef -> ST Store unit) (k : MatrixRef -> ST Store A) (s : Store) :
  (forall r, updates r F (c r)) ->
  (do r <- alloc m0; run c r; k r) s
  = k (length (heap s)) (mkStore (heap s ++ [F m0]) (roomCache s)).
Proof.
  intros Hc. unfold bind, alloc.
  rewrite Hc by (cbn [heap]; rewrite length_app; simpl; lia).
  f_equal. unfold deref. cbn [heap roomCache].
  rewrite lookup_app_r by lia. rewrite Nat.sub_diag. cbn [lookup list_lookup default].
  rewrite insert_app_r_alt by lia. rewrite Nat.sub_diag. reflexivity.
Qed.

Lemma updates_if (r : MatrixRef) (b : bool) (F G : CostMatrix.t -> CostMatrix.t)
    (c1 c2 : ST Store unit) :
  updates r F c1 -> updates r G c2 ->
  updates r (fun m => if b then F m else G m) (if b then c1 else c2).
Proof. destruct b; intros H1 H2; assumption. Qed.

(** On a cell that has just been allocated at the end of the heap. *)
Lemma step_fresh {A} (h : list CostMatrix.t) (c : gmap string RoomCache)
    (m : CostMatrix.t) (F : CostMatrix.t -> CostMatrix.t)
    (cmd : ST Store unit) (k : ST Store A) :
  updates (length h) F cmd ->
  (run cmd; k) (mkStore (h ++ [m]) c) = k (mkStore (h ++ [F m]) c).
Proof.
  intros Hcmd. unfold bind.
  rewrite Hcmd by (cbn [heap]; rewrite length_app; simpl; lia).
  unfold deref. cbn [heap roomCache].
  rewrite lookup_app_r by lia. rewrite Nat.sub_diag. cbn [lookup list_lookup default].
  rewrite insert_app_r_alt by lia. rewrite Nat.sub_diag. reflexivity.
Qed.

Lemma step_fresh_foldM {A B C} (h : list CostMatrix.t) (c : gmap string RoomCache)
    (m : CostMatrix.t) (F : A -> CostMatrix.t -> CostMatrix.t) (G : B -> A -> B)
    (f : B -> A -> ST Store B) (xs : list A) (acc : B) (k : B -> ST Store C) :
  (forall acc a s, (length h < length (heap s))%nat ->
     f acc a s = (G acc a, mkStore (<[length h := F a (deref s (length h))]> (heap s))
                                   (roomCache s))) ->
  (do acc' <- foldM xs acc f; k acc') (mkStore (h ++ [m]) c)
  = k (fold_left G xs acc)
      (mkStore (h ++ [fold_left (fun m a => F a m) xs m]) c).
Proof.
  intros Hf. unfold bind.
  rewrite (foldM_updates (length h) F G f xs Hf)
    by (cbn [heap]; rewrite length_app; simpl; lia).
  unfold deref. cbn [heap roomCache].
  rewrite lookup_app_r by lia. rewrite Nat.sub_diag. cbn [lookup list_lookup default].
  rewrite insert_app_r_alt by lia. rewrite Nat.sub_diag. reflexivity.
Qed.

Lemma deref_fresh (h : list CostMatrix.t) (c : gmap string RoomCache) (m : CostMatrix.t) :
  deref (mkStore (h ++ [m]) c) (length h) = m.
Proof.
  unfold deref. cbn [heap]. rewrite lookup_app_r by lia.
  rewrite Nat.sub_diag. reflexivity.
Qed.

Lemma deref_old (h : list CostMatrix.t) (c c' : gmap string RoomCache)
    (fresh : list CostMatrix.t) (r : MatrixRef) :
  (r < length h)%nat -> deref (mkStore (h ++ fresh) c) r = deref (mkStore h c') r.
Proof.
  intros Hr. unfold deref. cbn [heap]. rewrite lookup_app_l by exact Hr. reflexivity.
Qed.

End Heap.

(** ** The default matrix *)

Section DefaultMatrix.

Import CostMatrix CostMatrixFacts.

Lemma getDefaultMatrix_hit (room : Room) (s : Store) (r : MatrixRef) :
  _defaultMatrix (cacheOf s room) = Some r -> getDefaultMatrix room s = (r, s).
Proof. intros Hhit. unfold getDefaultMatrix, bind, gets. rewrite Hhit. reflexivity. Qed.

Lemma getDefaultMatrix_miss (room : Room) (s : Store) :
  _defaultMatrix (cacheOf s room) = None ->
  getDefaultMatrix room s
  = (length (heap s),
     mkStore (heap s ++ [defaultContent room])
             (<[name room := cacheDefault (length (heap s)) (cacheOf s room)]>
                (roomCache s))).
Proof.
  intros Hmiss. destruct s as [h c].
  unfold getDefaultMatrix. unfold bind at 1. unfold gets. rewrite Hmiss.
  unfold bind at 1. unfold newMatrix, alloc. cbn [heap roomCache].
  rewrite (step_fresh_foldM h c new
             (fun a m => if isRoad a
                         then set m (RoomPosition.x (s_pos a)) (RoomPosition.y (s_pos a)) 1
                         else m)
             (fun acc a => if isRoad a then acc
                           else if negb (isWalkable a) then acc ++ [a] else acc));
    cycle 1.
  { intros acc a s Hs.
    cbv beta. fold (isRoad a). destruct (isRoad a).
    - reflexivity.
    - pose proof (updates_pure (length h) s Hs) as Hid. unfold pure in *.
      injection Hid as Hid. rewrite <- Hid.
      destruct (negb (isWalkable a)); destruct s; reflexivity. }
  erewrite step_fresh by (apply updates_forEach; intros; apply updates_mset).
  erewrite step_fresh
    by (apply updates_forEach; intros; apply updates_if;
        [apply updates_mset | apply updates_pure]).
  reflexivity.
Qed.

Lemma fold_set_length {A} (xs : list A) (sel : A -> bool) (px py : A -> Z) (v : Z)
    (m : CostMatrix.t) :
  length (_bits (fold_left (fun m a => if sel a then set m (px a) (py a) v else m) xs m))
  = length (_bits m).
Proof.
  revert m. induction xs as [|a rest IH]; intros m; cbn [fold_left]; [reflexivity|].
  rewrite IH. destruct (sel a); [apply length_set | reflexivity].
Qed.

(** A loop that writes one value on selected tiles: a tile ends with that
    value if the loop selected it, and keeps its cost otherwise. *)
Lemma fold_set_get {A} (xs : list A) (sel : A -> bool) (px py : A -> Z) (v : Z)
    (m : CostMatrix.t) (x y : Z) :
  length (_bits m) = 2500%nat ->
  get (fold_left (fun m a => if sel a then set m (px a) (py a) v else m) xs m) x y
  = if in_grid x y && existsb (fun a => sel a && (px a =? x) && (py a =? y)) xs
    then clamp v else get m x y.
Proof.
  revert m. induction xs as [|a rest IH]; intros m Hlen; cbn [fold_left existsb].
  - rewrite andb_false_r. reflexivity.
  - rewrite IH by (destruct (sel a); [rewrite length_set|]; exact Hlen).
    destruct (in_grid x y) eqn:Hg; cbn [andb].
    + destruct (existsb _ rest); [rewrite orb_true_r; reflexivity|].
      rewrite orb_false_r. destruct (sel a); cbn [andb]; [|reflexivity].
      rewrite get_set by exact Hlen.
      destruct (Z.eqb_spec (px a) x) as [->|]; [|rewrite andb_false_r; reflexivity].
      destruct (Z.eqb_spec (py a) y) as [->|]; [|rewrite andb_false_r; reflexivity].
      rewrite Hg. reflexivity.
    + destruct (sel a); [|reflexivity].
      rewrite !get_outside by exact Hg. reflexivity.
Qed.

Lemma impassibleStructures_filter (xs : list Structure) (acc : list Structure) :
  fold_left (fun acc s => if isRoad s then acc
                          else if negb (isWalkable s) then acc ++ [s] else acc) xs acc
  = acc ++ List.filter (fun s => negb (isRoad s) && negb (isWalkable s)) xs.
Proof.
  revert acc. induction xs as [|s rest IH]; intros acc; cbn [fold_left List.filter].
  - rewrite app_nil_r. reflexivity.
  - rewrite IH. destruct (isRoad s); cbn [negb andb]; [reflexivity|].
    destruct (negb (isWalkable s)); [|reflexivity].
    rewrite <- app_assoc. reflexivity.
Qed.

Lemma existsb_filter {A} (p q : A -> bool) (xs : list A) :
  existsb p (List.filter q xs) = existsb (fun a => q a && p a) xs.
Proof.
  induction xs as [|a rest IH]; cbn [List.filter existsb]; [reflexivity|].
  destruct (q a); cbn [existsb andb]; rewrite IH; reflexivity.
Qed.

Lemma existsb_ext {A} (p q : A -> bool) (xs : list A) :
  (forall a, p a = q a) -> existsb p xs = existsb q xs.
Proof.
  intros Hpq. induction xs as [|a rest IH]; cbn [existsb]; [reflexivity|].
  rewrite Hpq, IH. reflexivity.
Qed.

Lemma defaultContent_length (room : Room) :
  length (_bits (defaultContent room)) = 2500%nat.
Proof.
  unfold defaultContent. cbv zeta. rewrite fold_set_length.
  rewrite (fold_set_length _ (fun _ => true)). rewrite fold_set_length.
  apply length_new.
Qed.

Lemma defaultContent_get (room : Room) (x y : Z) :
  get (defaultContent room) x y =
  if in_grid x y && (blockingSiteAt room x y || impassableAt room x y) then 255
  else if in_grid x y && roadAt room x y then 1
  else 0.
Proof.
  unfold defaultContent. cbv zeta.
  rewrite fold_set_get; cycle 1.
  { rewrite (fold_set_length _ (fun _ => true)). rewrite fold_set_length.
    apply length_new. }
  rewrite (fold_set_get _ (fun _ => true))
    by (rewrite fold_set_length; apply length_new).
  rewrite fold_set_get by apply length_new.
  rewrite get_new, impassibleStructures_filter, app_nil_l, existsb_filter.
  unfold blockingSiteAt, impassableAt, roadAt, onTile.
  destruct (in_grid x y); cbn [andb]; [|reflexivity].
  match goal with |- context [existsb ?f (find_construction_sites room)] =>
    replace (existsb f (find_construction_sites room))
      with (existsb (fun site => my site && negb (site_isWalkable site)
                                 && ((RoomPosition.x (site_pos site) =? x)
                                     && (RoomPosition.y (site_pos site) =? y)))
                    (find_construction_sites room))
      by (apply existsb_ext; intros; rewrite !andb_assoc; reflexivity)
  end.
  destruct (existsb _ (find_construction_sites room)); cbn [orb]; [reflexivity|].
  match goal with |- context [if existsb ?f (find_structures room) then clamp 255 else _] =>
    replace (existsb f (find_structures room))
      with (existsb (fun s => negb (isRoad s) && negb (isWalkable s)
                              && ((RoomPosition.x (s_pos s) =? x)
                                  && (RoomPosition.y (s_pos s) =? y)))
                    (find_structures room))
      by (apply existsb_ext; intros; cbn [andb]; rewrite !andb_assoc; reflexivity)
  end.
  destruct (existsb _ (find_structures room)); [reflexivity|].
  match goal with |- context [if existsb ?f (find_structures room) then clamp 1 else _] =>
    replace (existsb f (find_structures room))
      with (existsb (fun s => isRoad s && ((RoomPosition.x (s_pos s) =? x)
                                           && (RoomPosition.y (s_pos s) =? y)))
                    (find_structures room))
      by (apply existsb_ext; intros; rewrite !andb_assoc; reflexivity)
  end.
  destruct (existsb _ (find_structures room)); reflexivity.
Qed.

End DefaultMatrix.

(** C2, as stated, fails: the default matrix is built from structures and
    construction sites only.  A wall tile without any structure is left at
    0, not 255; a wall tile with a road on it gets the passable cost 1. *)
Lemma getDefaultMatrix_wall_tile_counterexample :
  getTerrainAt (Samples.twoWallsWorld Samples.bareRoom) 10 10 "W1N1" = wall
  /\ Game_rooms (Samples.twoWallsWorld Samples.bareRoom) "W1N1" = Some Samples.bareRoom
  /\ CostMatrix.get
       (deref (snd (getDefaultMatrix Samples.bareRoom Samples.emptyStore))
              (fst (getDefaultMatrix Samples.bareRoom Samples.emptyStore))) 10 10 = 0
  /\ getTerrainAt (Samples.twoWallsWorld Samples.builtRoom) 11 11 "W1N1" = wall
  /\ Game_rooms (Samples.twoWallsWorld Samples.builtRoom) "W1N1" = Some Samples.builtRoom
  /\ CostMatrix.get
       (deref (snd (getDefaultMatrix Samples.builtRoom Samples.emptyStore))
              (fst (getDefaultMatrix Samples.builtRoom Samples.emptyStore))) 11 11 = 1.
Proof. vm_compute. repeat split; reflexivity. Qed.

(** C2 (amended): in the default matrix built for an observed region, a tile
    with a structure that is neither a road nor walkable (a constructed wall,
    say) costs 255, a tile with a non-walkable construction site of the
    player costs 255, a road tile with neither costs 1, and every other tile
    is left at 0.  The terrain is not consulted: a wall tile gets one of
    these values like any other tile, 0 when nothing is built on it. *)
Theorem getDefaultMatrix_cells (room : Room) (s : Store) (x y : Z) :
  _defaultMatrix (cacheOf s room) = None ->
  CostMatrix.in_grid x y = true ->
  let cost :=
    CostMatrix.get (deref (snd (getDefaultMatrix room s))
                          (fst (getDefaultMatrix room s))) x y in
  (impassableAt room x y = true -> cost = 255)
  /\ (blockingSiteAt room x y = true -> cost = 255)
  /\ (impassableAt room x y = false -> blockingSiteAt room x y = false ->
      roadAt room x y = true -> cost = 1)
  /\ (impassableAt room x y = false -> blockingSiteAt room x y = false ->
      roadAt room x y = false -> cost = 0).
Proof.
  intros Hmiss Hgrid. cbv zeta.
  rewrite (getDefaultMatrix_miss room s Hmiss). cbn [fst snd].
  rewrite deref_fresh, defaultContent_get, Hgrid. cbn [andb].
  repeat split.
  - intros ->. rewrite orb_true_r. reflexivity.
  - intros ->. reflexivity.
  - intros -> -> ->. reflexivity.
  - intros -> -> ->. reflexivity.
Qed.

Lemma getDefaultMatrix_cells_witness :
  _defaultMatrix (cacheOf Samples.emptyStore Samples.builtRoom) = None
  /\ CostMatrix.in_grid 30 30 = true
  /\ impassableAt Samples.builtRoom 30 30 = true
  /\ CostMatrix.get
       (deref (snd (getDefaultMatrix Samples.builtRoom Samples.emptyStore))
              (fst (getDefaultMatrix Samples.builtRoom Samples.emptyStore))) 30 30 = 255.
Proof.
  assert (Hmiss : _defaultMatrix (cacheOf Samples.emptyStore Samples.builtRoom) = None)
    by reflexivity.
  assert (Hgrid : CostMatrix.in_grid 30 30 = true) by reflexivity.
  assert (Hwall : impassableAt Samples.builtRoom 30 30 = true) by reflexivity.
  split; [exact Hmiss | split; [exact Hgrid | split; [exact Hwall|]]].
  exact (proj1 (getDefaultMatrix_cells Samples.builtRoom Samples.emptyStore 30 30
                  Hmiss Hgrid) Hwall).
Defined.

(** ** The nearest walkable tile *)

Section FindPathablePosition.

Variable W : World.
Variable roomName : string.

Lemma probe_wall (dx dy : Z) :
  getTerrainAt W (25 + dx) (25 + dy) roomName = wall -> probe W roomName (dx, dy) = None.
Proof. unfold probe. simpl. intros ->. reflexivity. Qed.

Lemma probe_open (dx dy : Z) :
  getTerrainAt W (25 + dx) (25 + dy) roomName <> wall ->
  probe W roomName (dx, dy) = Some (RoomPosition.mk (25 + dx) (25 + dy) roomName).
Proof.
  unfold probe. simpl. destruct (getTerrainAt W _ _ _); congruence.
Qed.

Lemma findPathablePosition_scan :
  findPathablePosition W roomName =
  default sentinel (firstSome scanOffsets (probe W roomName)).
Proof.
  unfold findPathablePosition, scanOffsets.
  rewrite firstSome_flat_map.
  erewrite firstSome_ext; [reflexivity|].
  intros radius. cbv beta. rewrite firstSome_flat_map.
  apply firstSome_ext. intros dx. rewrite firstSome_flat_map.
  apply firstSome_ext. intros dy.
  destruct (negb (Z.abs dy =? radius) && negb (Z.abs dx =? radius)); simpl.
  - reflexivity.
  - unfold probe; simpl. destruct (getTerrainAt W _ _ _); reflexivity.
Qed.

Lemma scanOffsets_head :
  exists rest, scanOffsets = (0, 0) :: (-1, -1) :: (-1, 0) :: rest.
Proof. eexists. vm_compute. reflexivity. Qed.

Lemma scanOffsets_bounds :
  Forall (fun offset => -22 <= fst offset <= 22 /\ -22 <= snd offset <= 22)
         scanOffsets.
Proof.
  apply Forall_forall. intros [dx dy] Hin.
  assert (Hb : forallb (fun o => (-22 <=? fst o) && (fst o <=? 22)
                                 && (-22 <=? snd o) && (snd o <=? 22))
                       scanOffsets = true) by (vm_compute; reflexivity).
  rewrite forallb_forall in Hb. apply list_elem_of_In in Hin.
  specialize (Hb _ Hin). simpl in *. lia.
Qed.

End FindPathablePosition.

(** C9, as stated, fails: with only the centre tile walled, (24, 25) is open
    and still the result is (24, 24), the first tile the first ring scans. *)
Lemma findPathablePosition_centre_walled_counterexample :
  getTerrainAt Samples.centreWalledWorld 25 25 "W1N1" = wall /\
  getTerrainAt Samples.centreWalledWorld 24 25 "W1N1" <> wall /\
  findPathablePosition Samples.centreWalledWorld "W1N1"
    = RoomPosition.mk 24 24 "W1N1" /\
  findPathablePosition Samples.centreWalledWorld "W1N1"
    <> RoomPosition.mk 24 25 "W1N1".
Proof. vm_compute. repeat split; congruence. Qed.

(** C9 (amended): [findPathablePosition] returns the first tile that is not
    a wall in its scan order (rings of radius 0 to 22 around (25, 25), each
    ring column by column from the offset (-radius, -radius)), and the
    sentinel (-10, -10, "cannotFindPathablePosition") when there is none.
    So an open centre gives (25, 25); a walled centre gives (24, 24) when
    that tile is open, and (24, 25) only when (24, 24) is walled too. *)
Theorem findPathablePosition_first_open_tile (W : World) (roomName : string) :
  findPathablePosition W roomName
    = default sentinel (firstSome scanOffsets (probe W roomName))
  /\ (getTerrainAt W 25 25 roomName <> wall ->
      findPathablePosition W roomName = RoomPosition.mk 25 25 roomName)
  /\ (getTerrainAt W 25 25 roomName = wall ->
      getTerrainAt W 24 24 roomName <> wall ->
      findPathablePosition W roomName = RoomPosition.mk 24 24 roomName)
  /\ (getTerrainAt W 25 25 roomName = wall ->
      getTerrainAt W 24 24 roomName = wall ->
      getTerrainAt W 24 25 roomName <> wall ->
      findPathablePosition W roomName = RoomPosition.mk 24 25 roomName)
  /\ ((forall x y, 3 <= x <= 47 -> 3 <= y <= 47 ->
                   getTerrainAt W x y roomName = wall) ->
      findPathablePosition W roomName = sentinel).
Proof.
  rewrite findPathablePosition_scan.
  destruct scanOffsets_head as [rest Hscan].
  split; [reflexivity|].
  repeat split.
  - intros H0. rewrite Hscan. cbn [firstSome].
    rewrite (probe_open W roomName 0 0 H0). reflexivity.
  - intros H0 H1. rewrite Hscan. cbn [firstSome].
    rewrite (probe_wall W roomName 0 0 H0), (probe_open W roomName (-1) (-1) H1).
    reflexivity.
  - intros H0 H1 H2. rewrite Hscan. cbn [firstSome].
    rewrite (probe_wall W roomName 0 0 H0), (probe_wall W roomName (-1) (-1) H1),
            (probe_open W roomName (-1) 0 H2).
    reflexivity.
  - intros Hwalls. rewrite firstSome_None; [reflexivity|].
    eapply Forall_impl; [apply scanOffsets_bounds|].
    intros [dx dy] Hb. simpl in Hb. apply probe_wall, Hwalls; lia.
Qed.

Lemma findPathablePosition_first_open_tile_witness :
  getTerrainAt Samples.cornerWalledWorld 25 25 "W1N1" = wall /\
  getTerrainAt Samples.cornerWalledWorld 24 24 "W1N1" = wall /\
  getTerrainAt Samples.cornerWalledWorld 24 25 "W1N1" <> wall /\
  findPathablePosition Samples.cornerWalledWorld "W1N1"
    = RoomPosition.mk 24 25 "W1N1".
Proof.
  pose (W := Samples.cornerWalledWorld).
  assert (H0 : getTerrainAt W 25 25 "W1N1" = wall) by reflexivity.
  assert (H1 : getTerrainAt W 24 24 "W1N1" = wall) by reflexivity.
  assert (H2 : getTerrainAt W 24 25 "W1N1" <> wall) by (vm_compute; discriminate).
  split; [exact H0 | split; [exact H1 | split; [exact H2 |]]].
  exact (proj1 (proj2 (proj2 (proj2 (findPathablePosition_first_open_tile W "W1N1"))))
               H0 H1 H2).
Defined.

(** ** Route restriction *)

Section FindRoute.

Variable W : World.

Lemma findRoute_unfold (origin destination : string) (options : MoveOptions) (st : State) :
  findRoute W origin destination options st =
  match Game_map_findRoute W origin destination
          (findRoute_callback W origin destination options) with
  | None =>
      (None, mkState (store st) (distances st) (weightedDistances st)
                     (log st ++ [log_warning (CouldntFindRoute origin destination)]))
  | Some steps =>
      (Some (fold_left (fun allowedRooms value => <[room value := true]> allowedRooms)
                       steps (<[destination := true]> (<[origin := true]> ∅))), st)
  end.
Proof.
  unfold findRoute, findRoute_callback, restrictRadius, highwayBiasOf.
  destruct (Game_map_findRoute W origin destination _); reflexivity.
Qed.

Lemma allowed_fold_keeps (steps : list RouteStep) (allowed : gmap string bool)
    (roomName : string) :
  allowed !! roomName = Some true ->
  fold_left (fun allowedRooms value => <[room value := true]> allowedRooms)
            steps allowed !! roomName = Some true.
Proof.
  revert allowed. induction steps as [|step rest IH]; intros allowed Hin; simpl.
  - exact Hin.
  - apply IH. rewrite lookup_insert. case_decide; [reflexivity | exact Hin].
Qed.

End FindRoute.

(** C4, as stated, fails: with an override of 3 and a linear distance of 5
    the radius is 3, not max(5 + 10, 3) = 15.  A region at distance 4 is
    given an infinite cost, and so is the destination, which lies within 15:
    the route oracle is left without a route. *)
Lemma findRoute_override_below_default_counterexample :
  restrictDistance Samples.override3 = Some 3 /\
  getRoomLinearDistance Samples.routeWorld "W1N1" "W6N1" = 5 /\
  restrictRadius Samples.routeWorld "W1N1" "W6N1" Samples.override3 = 3 /\
  restrictRadius Samples.routeWorld "W1N1" "W6N1" Samples.override3 <> Z.max (5 + 10) 3 /\
  getRoomLinearDistance Samples.routeWorld "W1N1" "W5N1" <= Z.max (5 + 10) 3 /\
  findRoute_callback Samples.routeWorld "W1N1" "W6N1" Samples.override3 "W5N1"
    = POSITIVE_INFINITY /\
  fst (findRoute Samples.routeWorld "W1N1" "W6N1" Samples.override3 Samples.emptyState)
    = None.
Proof. vm_compute. repeat split; congruence. Qed.

(** C4 (amended): the restriction radius of the callback that [findRoute]
    hands to the route oracle is the caller's [restrictDistance] when that
    is given and not zero, and linearDistance + 10 otherwise.  Every region
    whose linear distance from the origin exceeds this radius gets the cost
    +infinity, and a region within the radius that is not avoided gets a
    finite cost. *)
Theorem findRoute_restriction_radius (W : World) (origin destination : string)
    (options : MoveOptions) :
  let linearDistance := getRoomLinearDistance W origin destination in
  let radius := restrictRadius W origin destination options in
  radius = match restrictDistance options with
           | Some override => if override =? 0 then linearDistance + 10 else override
           | None => linearDistance + 10
           end
  /\ (forall st,
        fst (findRoute W origin destination options st) =
        match Game_map_findRoute W origin destination
                (findRoute_callback W origin destination options) with
        | Some steps =>
            Some (fold_left (fun allowedRooms value => <[room value := true]> allowedRooms)
                            steps (<[destination := true]> (<[origin := true]> ∅)))
        | None => None
        end)
  /\ (forall roomName,
        radius < getRoomLinearDistance W origin roomName ->
        findRoute_callback W origin destination options roomName = POSITIVE_INFINITY)
  /\ (forall roomName,
        getRoomLinearDistance W origin roomName <= radius ->
        shouldAvoid W roomName = false ->
        findRoute_callback W origin destination options roomName <> POSITIVE_INFINITY).
Proof.
  cbv zeta. split; [reflexivity|]. split; [|split].
  - intros st. rewrite findRoute_unfold.
    destruct (Game_map_findRoute W origin destination _); reflexivity.
  - intros roomName Hfar. unfold findRoute_callback, routeCallback.
    destruct (Z.ltb_spec (restrictRadius W origin destination options)
                         (getRoomLinearDistance W origin roomName)); [reflexivity | lia].
  - intros roomName Hnear Havoid. unfold findRoute_callback, routeCallback.
    destruct (Z.ltb_spec (restrictRadius W origin destination options)
                         (getRoomLinearDistance W origin roomName)); [lia|].
    rewrite Havoid, andb_false_r. simpl.
    destruct (truthy (preferHighway options) && _); discriminate.
Qed.

Lemma findRoute_restriction_radius_witness :
  restrictRadius Samples.routeWorld "W1N1" "W6N1" Samples.override3
    < getRoomLinearDistance Samples.routeWorld "W1N1" "W5N1" /\
  findRoute_callback Samples.routeWorld "W1N1" "W6N1" Samples.override3 "W5N1"
    = POSITIVE_INFINITY.
Proof.
  split; [reflexivity|].
  apply (proj1 (proj2 (proj2
           (findRoute_restriction_radius Samples.routeWorld "W1N1" "W6N1"
                                         Samples.override3)))).
  reflexivity.
Defined.

(** C10: a set of allowed regions returned by [findRoute] contains the origin
    and the destination, whatever regions the oracle's route goes through;
    and a set is returned exactly when the oracle found a route. *)
Theorem findRoute_allows_endpoints (W : World) (origin destination : string)
    (options : MoveOptions) (st : State) (allowedRooms : gmap string bool) :
  fst (findRoute W origin destination options st) = Some allowedRooms ->
  allowedRooms !! origin = Some true /\ allowedRooms !! destination = Some true
  /\ is_Some (Game_map_findRoute W origin destination
                (findRoute_callback W origin destination options)).
Proof.
  rewrite findRoute_unfold.
  destruct (Game_map_findRoute W origin destination _) as [steps|]; simpl;
    [|discriminate].
  intros [= <-]. split; [|split; [|eauto]].
  - apply allowed_fold_keeps. rewrite lookup_insert. case_decide; [reflexivity|].
    apply lookup_insert_eq.
  - apply allowed_fold_keeps. apply lookup_insert_eq.
Qed.

Lemma findRoute_allows_endpoints_witness :
  fst (findRoute Samples.routeWorld "W1N1" "W2N1" noOptions Samples.emptyState)
    = Some (<["W2N1" := true]> (<["W2N1" := true]> (<["W1N1" := true]> ∅)))
  /\ (<["W2N1" := true]> (<["W2N1" := true]> (<["W1N1" := true]> (∅ : gmap string bool))))
       !! "W1N1" = Some true.
Proof.
  assert (Hrun : fst (findRoute Samples.routeWorld "W1N1" "W2N1" noOptions
                               Samples.emptyState)
                 = Some (<["W2N1" := true]> (<["W2N1" := true]> (<["W1N1" := true]> ∅))))
    by reflexivity.
  split; [exact Hrun|].
  exact (proj1 (findRoute_allows_endpoints Samples.routeWorld "W1N1" "W2N1" noOptions
                  Samples.emptyState _ Hrun)).
Defined.

(** ** Reachability *)

Section IsReachable.

Import CostMatrix CostMatrixFacts.

Variable W : World.

Lemma obstacle_fold_get (obstacles : list Obstacle) (m : CostMatrix.t) (x y : Z) :
  length (_bits m) = 2500%nat ->
  get (fold_left (fun matrix obstacle =>
                    match obstacle with
                    | HasPos pos => set matrix (RoomPosition.x pos) (RoomPosition.y pos) 254
                    | IsPos p => set matrix (RoomPosition.x p) (RoomPosition.y p) 254
                    end) obstacles m) x y
  = if in_grid x y && onObstacle obstacles x y then 254 else get m x y.
Proof.
  revert m. induction obstacles as [|obstacle rest IH]; intros m Hlen; simpl.
  - rewrite andb_false_r. reflexivity.
  - rewrite IH by (destruct obstacle; rewrite length_set; exact Hlen).
    destruct (in_grid x y) eqn:Hg; simpl.
    + destruct (onObstacle rest x y); [rewrite orb_true_r; reflexivity|].
      rewrite orb_false_r.
      assert (Hset : get (set m (RoomPosition.x (obstaclePos obstacle))
                                (RoomPosition.y (obstaclePos obstacle)) 254) x y
                     = if (RoomPosition.x (obstaclePos obstacle) =? x)
                          && (RoomPosition.y (obstaclePos obstacle) =? y)
                       then 254 else get m x y).
      { rewrite get_set by exact Hlen.
        destruct (Z.eqb_spec (RoomPosition.x (obstaclePos obstacle)) x) as [->|];
          [|rewrite andb_false_r; reflexivity].
        destruct (Z.eqb_spec (RoomPosition.y (obstaclePos obstacle)) y) as [->|];
          [|rewrite andb_false_r; reflexivity].
        rewrite Hg. reflexivity. }
      destruct obstacle; exact Hset.
    + rewrite !get_outside by exact Hg.
      reflexivity.
Qed.

Lemma obstacleMatrix_get (obstacles : list Obstacle) (x y : Z) :
  get (obstacleMatrix obstacles) x y
  = if in_grid x y && onObstacle obstacles x y then 254 else 0.
Proof.
  unfold obstacleMatrix. rewrite obstacle_fold_get by apply length_new.
  rewrite get_new. reflexivity.
Qed.

Lemma firstSome_all {A} (xs : list A) (bad : A -> bool) :
  match firstSome xs (fun a => if bad a then Some false else None) with
  | Some result => result
  | None => true
  end = forallb (fun a => negb (bad a)) xs.
Proof.
  induction xs as [|a rest IH]; simpl; [reflexivity|].
  destruct (bad a); simpl; [reflexivity | exact IH].
Qed.

End IsReachable.

(** C7: [isReachable] logs an error and answers false when the two
    positions are in different regions; otherwise it runs one single-region
    search over a matrix whose obstacle tiles cost 254 and all other tiles 0,
    and answers true exactly when the search is complete and no tile of the
    returned path costs more than 100, that is, lies on an obstacle. *)
Theorem isReachable_answer (W : World) (startPos endPos : RoomPosition.t)
    (obstacles : list Obstacle) (options : MoveOptions) (st : State) :
  (RoomPosition.roomName startPos <> RoomPosition.roomName endPos ->
   isReachable W startPos endPos obstacles options st
   = (false, mkState (store st) (distances st) (weightedDistances st)
                     (log st ++ [log_error IsReachableSingleRoom])))
  /\ (RoomPosition.roomName startPos = RoomPosition.roomName endPos ->
      let (ret, store') :=
        isReachable_search W startPos endPos obstacles options (store st) in
      isReachable W startPos endPos obstacles options st
      = (negb (incomplete ret)
         && forallb (fun pos =>
                       negb (100 <? CostMatrix.get (obstacleMatrix obstacles)
                                      (RoomPosition.x pos) (RoomPosition.y pos)))
                    (path ret),
         mkState store' (distances st) (weightedDistances st) (log st)))
  /\ (forall x y,
        CostMatrix.get (obstacleMatrix obstacles) x y
        = if CostMatrix.in_grid x y && onObstacle obstacles x y then 254 else 0).
Proof.
  split; [|split].
  - intros Hrooms. unfold isReachable.
    destruct (String.eqb_spec (RoomPosition.roomName startPos)
                              (RoomPosition.roomName endPos)); [contradiction|].
    reflexivity.
  - intros Hrooms. unfold isReachable, isReachable_search.
    rewrite Hrooms, String.eqb_refl. cbn [negb].
    unfold bind, liftStore.
    destruct (PathFinder_search W _ _ _ _ (store st)) as [ret store'].
    destruct (incomplete ret); [reflexivity|]. cbn [negb andb].
    rewrite <- firstSome_all.
    destruct (firstSome (path ret) _); reflexivity.
  - apply obstacleMatrix_get.
Qed.

Lemma isReachable_answer_witness :
  RoomPosition.roomName (RoomPosition.mk 5 5 "W1N1")
    = RoomPosition.roomName (RoomPosition.mk 5 8 "W1N1")
  /\ fst (isReachable Samples.straightWorld (RoomPosition.mk 5 5 "W1N1")
            (RoomPosition.mk 5 8 "W1N1") [IsPos (RoomPosition.mk 5 6 "W1N1")]
            noOptions Samples.emptyState) = false.
Proof.
  split; [reflexivity|].
  pose proof (proj1 (proj2 (isReachable_answer Samples.straightWorld
                (RoomPosition.mk 5 5 "W1N1") (RoomPosition.mk 5 8 "W1N1")
                [IsPos (RoomPosition.mk 5 6 "W1N1")] noOptions Samples.emptyState))
              eq_refl) as Hanswer.
  exact (f_equal fst (Hanswer : isReachable _ _ _ _ _ _ = (false, _))).
Defined.

(** ** The search wrapper and its retry *)

Section FindPath.

Variable W : World.

Lemma prepared_useFindRoute (options : MoveOptions) :
  useFindRoute (prepared options) = useFindRoute options.
Proof.
  unfold prepared. cbv zeta.
  destruct (truthy (direct _)), (truthy (movingTarget _)); reflexivity.
Qed.

Lemma prepared_ensurePath (options : MoveOptions) :
  ensurePath (prepared options) = ensurePath options.
Proof.
  unfold prepared. cbv zeta.
  destruct (truthy (direct _)), (truthy (movingTarget _)); reflexivity.
Qed.

Lemma findPath_unfold_once (origin destination : RoomPosition.t)
    (options : MoveOptions) (st : State) :
  findPath W origin destination options st =
  let (ret, st1) := attempt W origin destination options st in
  if incomplete ret && truthy (ensurePath options)
  then
    match useFindRoute options with
    | None =>
        if getRoomLinearDistance W (RoomPosition.roomName origin)
                                   (RoomPosition.roomName destination) <=? 2
        then
          let (ret2, st2) :=
            findPath W origin destination
                     (with_useFindRoute (Some true) (prepared options))
                     (logged (log_warning (PathFailedWithoutFindRoute origin destination))
                             st1) in
          (ret2, logged (log_warning (SecondAttempt (negb (incomplete ret2)))) st2)
        else (ret, st1)
    | Some _ => (ret, st1)
    end
  else (ret, st1).
Proof.
  rewrite findPath_equation_1. unfold attempt. cbv zeta. unfold bind at 1 2 5 6.
  match goal with |- context [(if ?c then findRoute W ?o ?d ?opts else pure ?a) st] =>
    destruct ((if c then findRoute W o d opts else pure a) st) as [allowedRooms st0]
  end.
  fold (prepared options).
  destruct (liftStore _ st0) as [ret st1].
  rewrite prepared_ensurePath.
  destruct (incomplete ret && truthy (ensurePath options)); [|reflexivity].
  pose proof (prepared_useFindRoute options) as Hsame.
  destruct (useFindRoute (prepared options)); rewrite <- Hsame; [reflexivity|].
  destruct (_ <=? 2); reflexivity.
Qed.

Lemma findPath_no_retry (origin destination : RoomPosition.t)
    (options : MoveOptions) (st : State) :
  useFindRoute options <> None ->
  findPath W origin destination options st = attempt W origin destination options st.
Proof.
  intros Hset. rewrite findPath_unfold_once.
  destruct (attempt W origin destination options st) as [ret st1].
  destruct (useFindRoute options); [|contradiction].
  destruct (incomplete ret && _); reflexivity.
Qed.

End FindPath.

(** C1: when the first attempt is incomplete, [ensurePath] was requested,
    [useFindRoute] was left undefined and the two regions are at most 2
    apart, [findPath] makes exactly one more attempt, on the same options
    object with [useFindRoute] set to true, and returns that attempt's
    result; in every other case it returns the first attempt's result as it
    is, incomplete or not.  Each attempt calls the search once. *)
Theorem findPath_retry_policy (W : World) (origin destination : RoomPosition.t)
    (options : MoveOptions) (st : State) :
  let roomDistance :=
    getRoomLinearDistance W (RoomPosition.roomName origin)
                            (RoomPosition.roomName destination) in
  let (ret, st1) := attempt W origin destination options st in
  findPath W origin destination options st =
  if incomplete ret && truthy (ensurePath options)
     && bool_decide (useFindRoute options = None) && (roomDistance <=? 2)
  then
    let (ret2, st2) :=
      attempt W origin destination
              (with_useFindRoute (Some true) (prepared options))
              (logged (log_warning (PathFailedWithoutFindRoute origin destination)) st1) in
    (ret2, logged (log_warning (SecondAttempt (negb (incomplete ret2)))) st2)
  else (ret, st1).
Proof.
  cbv zeta. rewrite findPath_unfold_once.
  destruct (attempt W origin destination options st) as [ret st1].
  destruct (incomplete ret && truthy (ensurePath options)); [|reflexivity].
  destruct (useFindRoute options); [reflexivity|].
  cbn [andb]. rewrite bool_decide_eq_true_2 by reflexivity. cbn [andb].
  destruct (_ <=? 2); [|reflexivity].
  rewrite findPath_no_retry by discriminate.
  reflexivity.
Qed.

(** The retry at work: one region apart, the unrestricted search fails and
    the restricted one succeeds; the completed path is returned, after the
    two warnings. *)
Example findPath_retry_succeeds :
  findPath Samples.detourWorld (RoomPosition.mk 5 5 "W1N1") (RoomPosition.mk 5 5 "W2N1")
           Samples.ensured Samples.emptyState
  = (mkPath [RoomPosition.mk 49 5 "W1N1"; RoomPosition.mk 0 5 "W2N1"] false,
     mkState Samples.emptyStore ∅ ∅
       [log_warning (PathFailedWithoutFindRoute (RoomPosition.mk 5 5 "W1N1")
                                                (RoomPosition.mk 5 5 "W2N1"));
        log_warning (SecondAttempt true)]).
Proof. vm_compute. reflexivity. Qed.

(** ** The distance memo *)

Section DistanceMemo.

Variable W : World.

Lemma sortNames_comm (a b : string) : sortNames a b = sortNames b a.
Proof.
  unfold sortNames, String.ltb.
  pose proof (String.compare_antisym a b) as Hanti.
  destruct (String.compare a b) eqn:Hab, (String.compare b a) eqn:Hba;
    simpl in Hanti; try discriminate; try reflexivity.
  apply String.compare_eq_iff in Hab. subst. reflexivity.
Qed.

Lemma ensureRow_lookup2 (table : gmap string (gmap string Z)) (k k1 k2 : string) :
  lookup2 (ensureRow k table) k1 k2 = lookup2 table k1 k2.
Proof.
  unfold ensureRow, lookup2. destruct (table !! k) eqn:Hrow; [reflexivity|].
  rewrite lookup_insert. case_decide; [|reflexivity].
  subst. rewrite Hrow. apply lookup_empty.
Qed.

Lemma ensureRow_present (table : gmap string (gmap string Z)) (k1 k2 : string) (v : Z) :
  lookup2 table k1 k2 = Some v -> ensureRow k1 table = table.
Proof.
  unfold ensureRow, lookup2. destruct (table !! k1); [reflexivity | discriminate].
Qed.

Lemma insert2_lookup2 (table : gmap string (gmap string Z)) (k1 k2 : string) (v : Z) :
  lookup2 (insert2 k1 k2 v table) k1 k2 = Some v.
Proof.
  unfold insert2, lookup2. rewrite lookup_insert_eq. apply lookup_insert_eq.
Qed.

(** Searching touches the matrices and the log, never the memo tables. *)
Lemma findRoute_memo (origin destination : string) (options : MoveOptions) (st : State) :
  distances (snd (findRoute W origin destination options st)) = distances st
  /\ weightedDistances (snd (findRoute W origin destination options st))
     = weightedDistances st.
Proof.
  rewrite findRoute_unfold.
  destruct (Game_map_findRoute W origin destination _); split; reflexivity.
Qed.

Lemma attempt_memo (origin destination : RoomPosition.t) (options : MoveOptions)
    (st : State) :
  distances (snd (attempt W origin destination options st)) = distances st
  /\ weightedDistances (snd (attempt W origin destination options st))
     = weightedDistances st.
Proof.
  unfold attempt. cbv zeta. unfold bind.
  match goal with |- context [(if ?c then findRoute W ?o ?d ?opts else pure ?a) st] =>
    assert (Hroute : distances (snd ((if c then findRoute W o d opts else pure a) st))
                     = distances st
                     /\ weightedDistances
                          (snd ((if c then findRoute W o d opts else pure a) st))
                        = weightedDistances st)
      by (destruct c; [apply findRoute_memo | split; reflexivity]);
    destruct ((if c then findRoute W o d opts else pure a) st) as [allowedRooms st0]
  end.
  simpl in Hroute. unfold liftStore.
  destruct (PathFinder_search W _ _ _ _ (store st0)); simpl. exact Hroute.
Qed.

Lemma findPath_memo (origin destination : RoomPosition.t) (options : MoveOptions)
    (st : State) :
  distances (snd (findPath W origin destination options st)) = distances st
  /\ weightedDistances (snd (findPath W origin destination options st))
     = weightedDistances st.
Proof.
  rewrite findPath_unfold_once.
  pose proof (attempt_memo origin destination options st) as Hfirst.
  destruct (attempt W origin destination options st) as [ret st1].
  simpl in Hfirst.
  destruct (incomplete ret && _); [|exact Hfirst].
  destruct (useFindRoute options); [exact Hfirst|].
  destruct (_ <=? 2); [|exact Hfirst].
  rewrite findPath_no_retry by discriminate.
  match goal with |- context [attempt W origin destination ?o ?s] =>
    pose proof (attempt_memo origin destination o s) as Hsecond;
    destruct (attempt W origin destination o s) as [ret2 st2]
  end.
  simpl in *. destruct Hfirst as [<- <-]. exact Hsecond.
Qed.

Lemma findShortestPath_memo (startPos endPos : RoomPosition.t) (options : MoveOptions)
    (st : State) :
  distances (snd (findShortestPath W startPos endPos options st)) = distances st
  /\ weightedDistances (snd (findShortestPath W startPos endPos options st))
     = weightedDistances st.
Proof.
  unfold findShortestPath. cbv zeta. unfold bind.
  pose proof (findPath_memo startPos endPos (findShortestPath_defaults options) st) as Hm.
  destruct (findPath W startPos endPos _ st) as [ret st1].
  destruct (incomplete ret); exact Hm.
Qed.

Lemma falsyNum_nonzero (v : Z) : v <> 0 -> falsyNum (Some v) = false.
Proof.
  intros Hv. unfold falsyNum, truthyNum.
  destruct (Z.eqb_spec v 0); [contradiction | reflexivity].
Qed.

Lemma State_eta (st : State) :
  mkState (store st) (distances st) (weightedDistances st) (log st) = st.
Proof. destruct st; reflexivity. Qed.

Lemma distance_unfold (arg1 arg2 : RoomPosition.t) (st : State) :
  distance W arg1 arg2 st =
  let name1 := fst (sortNames (pos_name W arg1) (pos_name W arg2)) in
  let name2 := snd (sortNames (pos_name W arg1) (pos_name W arg2)) in
  let st0 := mkState (store st) (ensureRow name1 (distances st))
                     (weightedDistances st) (log st) in
  if falsyNum (lookup2 (distances st) name1 name2)
  then
    let (ret, st1) := findShortestPath W arg1 arg2 noOptions st0 in
    if negb (incomplete ret)
    then
      let table := insert2 name1 name2 (Z.of_nat (length (path ret))) (distances st1) in
      (lookup2 table name1 name2,
       mkState (store st1) table (weightedDistances st1) (log st1))
    else (lookup2 (distances st1) name1 name2, st1)
  else (lookup2 (distances st) name1 name2, st0).
Proof.
  unfold distance.
  destruct (sortNames (pos_name W arg1) (pos_name W arg2)) as [name1 name2].
  cbn [fst snd]. unfold bind, modifyDistances, modify, gets.
  cbn [distances store weightedDistances log]. rewrite ensureRow_lookup2.
  destruct (falsyNum _).
  - destruct (findShortestPath W arg1 arg2 noOptions _) as [ret st1].
    destruct (incomplete ret); reflexivity.
  - unfold pure. cbn [distances]. rewrite ensureRow_lookup2. reflexivity.
Qed.

(** A slot that holds a non-zero number answers the call; nothing is
    searched and nothing changes. *)
Lemma distance_cached (arg1 arg2 : RoomPosition.t) (st : State) (v : Z) :
  lookup2 (distances st) (fst (sortNames (pos_name W arg1) (pos_name W arg2)))
          (snd (sortNames (pos_name W arg1) (pos_name W arg2))) = Some v ->
  v <> 0 ->
  distance W arg1 arg2 st = (Some v, st).
Proof.
  intros Hslot Hv. rewrite distance_unfold. cbv zeta.
  rewrite Hslot, (falsyNum_nonzero _ Hv), (ensureRow_present _ _ _ _ Hslot), State_eta.
  reflexivity.
Qed.

(** The value returned is the content of the slot afterwards. *)
Lemma distance_returns_slot (arg1 arg2 : RoomPosition.t) (st : State) :
  fst (distance W arg1 arg2 st)
  = lookup2 (distances (snd (distance W arg1 arg2 st)))
            (fst (sortNames (pos_name W arg1) (pos_name W arg2)))
            (snd (sortNames (pos_name W arg1) (pos_name W arg2))).
Proof.
  rewrite distance_unfold. cbv zeta.
  destruct (falsyNum _).
  - destruct (findShortestPath W arg1 arg2 noOptions _) as [ret st1].
    destruct (negb (incomplete ret)); reflexivity.
  - cbn [fst snd distances]. rewrite ensureRow_lookup2. reflexivity.
Qed.

(** An incomplete search stores no distance: the table gains at most an
    empty row, and the call returns what the slot held before. *)
Lemma distance_incomplete_stores_nothing (arg1 arg2 : RoomPosition.t) (st : State) :
  let name1 := fst (sortNames (pos_name W arg1) (pos_name W arg2)) in
  let name2 := snd (sortNames (pos_name W arg1) (pos_name W arg2)) in
  incomplete (fst (findShortestPath W arg1 arg2 noOptions
                     (mkState (store st) (ensureRow name1 (distances st))
                              (weightedDistances st) (log st)))) = true ->
  fst (distance W arg1 arg2 st) = lookup2 (distances st) name1 name2
  /\ distances (snd (distance W arg1 arg2 st)) = ensureRow name1 (distances st).
Proof.
  cbv zeta. intros Hinc. rewrite distance_unfold. cbv zeta.
  destruct (falsyNum _).
  - match type of Hinc with context [findShortestPath W arg1 arg2 noOptions ?s] =>
      pose proof (findShortestPath_memo arg1 arg2 noOptions s) as [Hd _]
    end.
    destruct (findShortestPath W arg1 arg2 noOptions _) as [ret st1].
    simpl in Hinc, Hd. rewrite Hinc. cbn [negb fst snd]. rewrite Hd.
    rewrite ensureRow_lookup2. split; reflexivity.
  - split; reflexivity.
Qed.

Lemma weightedPair_names (arg1 arg2 : RoomPosition.t) :
  (pos_name W (fst (weightedPair W arg1 arg2)), pos_name W (snd (weightedPair W arg1 arg2)))
  = (pos_name W (fst (weightedPair W arg2 arg1)), pos_name W (snd (weightedPair W arg2 arg1))).
Proof.
  unfold weightedPair, String.ltb.
  pose proof (String.compare_antisym (pos_name W arg1) (pos_name W arg2)) as Hanti.
  destruct (String.compare (pos_name W arg1) (pos_name W arg2)) eqn:H12,
           (String.compare (pos_name W arg2) (pos_name W arg1)) eqn:H21;
    simpl in Hanti; try discriminate; try reflexivity.
  apply String.compare_eq_iff in H12. simpl. rewrite H12. reflexivity.
Qed.

Lemma weightedPair_comm (arg1 arg2 : RoomPosition.t) :
  pos_name W arg1 <> pos_name W arg2 ->
  weightedPair W arg1 arg2 = weightedPair W arg2 arg1.
Proof.
  intros Hne. unfold weightedPair, String.ltb.
  pose proof (String.compare_antisym (pos_name W arg1) (pos_name W arg2)) as Hanti.
  destruct (String.compare (pos_name W arg1) (pos_name W arg2)) eqn:H12,
           (String.compare (pos_name W arg2) (pos_name W arg1)) eqn:H21;
    simpl in Hanti; try discriminate; try reflexivity.
  apply String.compare_eq_iff in H12. contradiction.
Qed.

Lemma weightedDistance_unfold (arg1 arg2 : RoomPosition.t) (st : State) :
  weightedDistance W arg1 arg2 st =
  let pos1 := fst (weightedPair W arg1 arg2) in
  let pos2 := snd (weightedPair W arg1 arg2) in
  let st0 := mkState (store st) (distances st)
                     (ensureRow (pos_name W pos1) (weightedDistances st)) (log st) in
  if falsyNum (lookup2 (weightedDistances st) (pos_name W pos1) (pos_name W pos2))
  then
    let (weight, st1) := calculatePathWeight W pos1 pos2 noOptions st0 in
    let table := insert2 (pos_name W pos1) (pos_name W pos2) weight (weightedDistances st1) in
    (lookup2 table (pos_name W pos1) (pos_name W pos2),
     mkState (store st1) (distances st1) table (log st1))
  else (lookup2 (weightedDistances st) (pos_name W pos1) (pos_name W pos2), st0).
Proof.
  unfold weightedDistance, weightedPair.
  destruct (String.ltb (pos_name W arg1) (pos_name W arg2)); cbn [fst snd];
    unfold bind, modifyWeightedDistances, modify, gets;
    cbn [distances store weightedDistances log]; rewrite ensureRow_lookup2;
    (destruct (falsyNum _);
     [destruct (calculatePathWeight W _ _ noOptions _) as [weight st1]; reflexivity
     | unfold pure; cbn [weightedDistances]; rewrite ensureRow_lookup2; reflexivity]).
Qed.

Lemma weightedDistance_cached (arg1 arg2 : RoomPosition.t) (st : State) (v : Z) :
  lookup2 (weightedDistances st) (pos_name W (fst (weightedPair W arg1 arg2)))
          (pos_name W (snd (weightedPair W arg1 arg2))) = Some v ->
  v <> 0 ->
  weightedDistance W arg1 arg2 st = (Some v, st).
Proof.
  intros Hslot Hv. rewrite weightedDistance_unfold. cbv zeta.
  rewrite Hslot, (falsyNum_nonzero _ Hv), (ensureRow_present _ _ _ _ Hslot), State_eta.
  reflexivity.
Qed.

Lemma weightedDistance_returns_slot (arg1 arg2 : RoomPosition.t) (st : State) :
  fst (weightedDistance W arg1 arg2 st)
  = lookup2 (weightedDistances (snd (weightedDistance W arg1 arg2 st)))
            (pos_name W (fst (weightedPair W arg1 arg2)))
            (pos_name W (snd (weightedPair W arg1 arg2))).
Proof.
  rewrite weightedDistance_unfold. cbv zeta.
  destruct (falsyNum _).
  - destruct (calculatePathWeight W _ _ noOptions _) as [weight st1]. reflexivity.
  - cbn [fst snd weightedDistances]. rewrite ensureRow_lookup2. reflexivity.
Qed.

End DistanceMemo.

(** C3: the memo tables are to hold no value for an incomplete search.
    [distance] keeps to that (lemma [distance_incomplete_stores_nothing]);
    [weightedDistance] does not.  Here the search gives up after one tile:
    [distance] returns undefined and stores nothing, while [weightedDistance]
    stores and returns the weight 1 of the partial path. *)
Theorem weightedDistance_stores_incomplete_search :
  incomplete (fst (findPath Samples.strandedWorld Samples.posA Samples.posB
                            (with_range (Some 1) noOptions) Samples.emptyState)) = true
  /\ fst (distance Samples.strandedWorld Samples.posA Samples.posB Samples.emptyState)
     = None
  /\ lookup2 (distances (snd (distance Samples.strandedWorld Samples.posA Samples.posB
                                       Samples.emptyState)))
             "W1N1:5:5" "W2N1:5:5" = None
  /\ fst (weightedDistance Samples.strandedWorld Samples.posA Samples.posB
                           Samples.emptyState) = Some 1
  /\ lookup2 (weightedDistances
                (snd (weightedDistance Samples.strandedWorld Samples.posA Samples.posB
                                       Samples.emptyState)))
             "W1N1:5:5" "W2N1:5:5" = Some 1.
Proof. vm_compute. repeat split; reflexivity. Qed.

(** C5, as stated, fails for [distance]: the search runs in the caller's
    order, and a search that gives up one way and succeeds the other way
    leaves distance(a, b) undefined while distance(b, a) is 2, from the same
    state as well as one call after the other. *)
Lemma distance_direction_counterexample :
  fst (distance Samples.oneWayWorld Samples.posA Samples.posB Samples.emptyState) = None
  /\ fst (distance Samples.oneWayWorld Samples.posB Samples.posA Samples.emptyState)
     = Some 2
  /\ fst (distance Samples.oneWayWorld Samples.posB Samples.posA
            (snd (distance Samples.oneWayWorld Samples.posA Samples.posB
                           Samples.emptyState)))
     = Some 2.
Proof. vm_compute. repeat split; reflexivity. Qed.

(** C5 (amended): [distance] and [weightedDistance] use one memo slot for a
    pair of positions in either order, the slot of the sorted pair of names.
    Once a call has returned a non-zero number, the call with the arguments
    reversed returns the same number from that slot and changes nothing.
    [weightedDistance] also searches on the sorted pair, so from one state
    both orders of two differently named positions give the same result. *)
Theorem memo_slot_shared_by_both_orders (W : World) (a b : RoomPosition.t) :
  sortNames (pos_name W a) (pos_name W b) = sortNames (pos_name W b) (pos_name W a)
  /\ (forall st v,
        fst (distance W a b st) = Some v -> v <> 0 ->
        distance W b a (snd (distance W a b st)) = (Some v, snd (distance W a b st)))
  /\ (forall st v,
        fst (weightedDistance W a b st) = Some v -> v <> 0 ->
        weightedDistance W b a (snd (weightedDistance W a b st))
        = (Some v, snd (weightedDistance W a b st)))
  /\ (pos_name W a <> pos_name W b ->
      forall st, weightedDistance W a b st = weightedDistance W b a st).
Proof.
  split; [apply sortNames_comm|]. split; [|split].
  - intros st v Hret Hv. apply distance_cached; [|exact Hv].
    rewrite (sortNames_comm (pos_name W b)), <- distance_returns_slot. exact Hret.
  - intros st v Hret Hv. apply weightedDistance_cached; [|exact Hv].
    pose proof (weightedPair_names W a b) as Hnames.
    injection Hnames as H1 H2. rewrite <- H1, <- H2.
    rewrite <- weightedDistance_returns_slot. exact Hret.
  - intros Hne st. rewrite !weightedDistance_unfold.
    rewrite (weightedPair_comm W a b Hne). reflexivity.
Qed.

Lemma memo_slot_shared_by_both_orders_witness :
  fst (distance Samples.oneWayWorld Samples.posB Samples.posA Samples.emptyState) = Some 2
  /\ 2 <> 0
  /\ distance Samples.oneWayWorld Samples.posA Samples.posB
       (snd (distance Samples.oneWayWorld Samples.posB Samples.posA Samples.emptyState))
     = (Some 2,
        snd (distance Samples.oneWayWorld Samples.posB Samples.posA Samples.emptyState)).
Proof.
  assert (Hret : fst (distance Samples.oneWayWorld Samples.posB Samples.posA
                               Samples.emptyState) = Some 2) by reflexivity.
  assert (Hv : 2 <> 0) by lia.
  split; [exact Hret | split; [exact Hv|]].
  exact (proj1 (proj2 (memo_slot_shared_by_both_orders Samples.oneWayWorld
                         Samples.posB Samples.posA)) Samples.emptyState 2 Hret Hv).
Defined.

(** ** The matrices derived from the default matrix *)

Section DerivedMatrices.

Import CostMatrix CostMatrixFacts.

Lemma getCreepMatrix_hit (room : Room) (s : Store) (r : MatrixRef) :
  _creepMatrix (cacheOf s room) = Some r -> getCreepMatrix room s = (r, s).
Proof. intros Hhit. unfold getCreepMatrix, bind, gets. rewrite Hhit. reflexivity. Qed.

Lemma getCreepMatrix_miss (room : Room) (s : Store) :
  _creepMatrix (cacheOf s room) = None ->
  getCreepMatrix room s =
  let (base, s1) := getDefaultMatrix room s in
  (length (heap s1),
   mkStore (heap s1 ++ [creepContent room (deref s1 base)])
           (<[name room := cacheCreep (length (heap s1)) (cacheOf s1 room)]>
              (roomCache s1))).
Proof.
  intros Hmiss. unfold getCreepMatrix. unfold bind at 1. unfold gets. rewrite Hmiss.
  unfold bind at 1. destruct (getDefaultMatrix room s) as [base [h c]].
  unfold bind at 1. unfold clone, alloc. cbn [heap roomCache].
  erewrite step_fresh by (apply updates_forEach; intros; apply updates_mset).
  reflexivity.
Qed.

Lemma getKitingMatrix_hit (room : Room) (s : Store) (r : MatrixRef) :
  _kitingMatrix (cacheOf s room) = Some r -> getKitingMatrix room s = (r, s).
Proof. intros Hhit. unfold getKitingMatrix, bind, gets. rewrite Hhit. reflexivity. Qed.

Lemma getKitingMatrix_miss (room : Room) (s : Store) :
  _kitingMatrix (cacheOf s room) = None ->
  getKitingMatrix room s =
  let (base, s1) := getCreepMatrix room s in
  (length (heap s1),
   mkStore (heap s1 ++ [kitingContent room (deref s1 base)])
           (<[name room := cacheKiting (length (heap s1)) (cacheOf s1 room)]>
              (roomCache s1))).
Proof.
  intros Hmiss. unfold getKitingMatrix. unfold bind at 1. unfold gets. rewrite Hmiss.
  unfold bind at 1. destruct (getCreepMatrix room s) as [base [h c]].
  unfold bind at 1. unfold clone, alloc. cbn [heap roomCache].
  erewrite step_fresh
    by (apply updates_forEach; intros; apply updates_forEach; intros;
        apply updates_forEach; intros; apply updates_add).
  reflexivity.
Qed.

Lemma In_fromTo (lo hi k : Z) : In k (fromTo lo hi) <-> lo <= k <= hi.
Proof.
  unfold fromTo. rewrite in_map_iff. split.
  - intros [n [<- Hn]]. apply in_seq in Hn. lia.
  - intros Hk. exists (Z.to_nat (k - lo)). split; [lia|]. apply in_seq. lia.
Qed.

Lemma fold_left_flat_map {A B C} (f : C -> B -> C) (g : A -> list B) (xs : list A) (m : C) :
  fold_left f (flat_map g xs) m = fold_left (fun m a => fold_left f (g a) m) xs m.
Proof.
  revert m. induction xs as [|a rest IH]; intros m; cbn [flat_map fold_left];
    [reflexivity|].
  rewrite fold_left_app. apply IH.
Qed.

Lemma fold_left_map {A B C} (f : C -> B -> C) (h : A -> B) (xs : list A) (m : C) :
  fold_left f (map h xs) m = fold_left (fun m a => f m (h a)) xs m.
Proof.
  revert m. induction xs as [|a rest IH]; intros m; cbn [map fold_left];
    [reflexivity | apply IH].
Qed.

Lemma fold_left_ext {A C} (f g : C -> A -> C) (xs : list A) (m : C) :
  (forall m a, f m a = g m a) -> fold_left f xs m = fold_left g xs m.
Proof.
  intros Hfg. revert m. induction xs as [|a rest IH]; intros m; cbn [fold_left];
    [reflexivity|].
  rewrite Hfg. apply IH.
Qed.

Lemma kiteAround_flat (avoidCreep : Creep) (m : CostMatrix.t) :
  kiteAround avoidCreep m
  = fold_left (addAt (RoomPosition.x (c_pos avoidCreep)) (RoomPosition.y (c_pos avoidCreep)))
              offsets3 m.
Proof.
  unfold kiteAround, offsets3. rewrite fold_left_flat_map.
  apply fold_left_ext. intros m' dx. rewrite fold_left_map. reflexivity.
Qed.

Lemma addAt_length (cx cy : Z) (offsets : list (Z * Z)) (m : CostMatrix.t) :
  length (_bits (fold_left (addAt cx cy) offsets m)) = length (_bits m).
Proof.
  revert m. induction offsets as [|o rest IH]; intros m; cbn [fold_left]; [reflexivity|].
  rewrite IH. apply length_set.
Qed.

Lemma addAt_wf (cx cy : Z) (offsets : list (Z * Z)) (m : CostMatrix.t) :
  wf m -> wf (fold_left (addAt cx cy) offsets m).
Proof.
  revert m. induction offsets as [|o rest IH]; intros m Hwf; cbn [fold_left];
    [exact Hwf|].
  apply IH, wf_set, Hwf.
Qed.

Lemma addAt_elsewhere (cx cy : Z) (offsets : list (Z * Z)) (m : CostMatrix.t) (x y : Z) :
  ~ In (x - cx, y - cy) offsets ->
  get (fold_left (addAt cx cy) offsets m) x y = get m x y.
Proof.
  revert m. induction offsets as [|[dx dy] rest IH]; intros m Hout; cbn [fold_left];
    [reflexivity|].
  rewrite IH by (intros Hin; apply Hout; right; exact Hin).
  unfold addAt. cbn [fst snd]. apply get_set_other.
  intros [= Hx Hy]. apply Hout. left. f_equal; lia.
Qed.

Lemma addAt_once (cx cy : Z) (offsets : list (Z * Z)) (m : CostMatrix.t) (x y : Z) :
  NoDup offsets -> length (_bits m) = 2500%nat -> in_grid x y = true ->
  In (x - cx, y - cy) offsets ->
  get (fold_left (addAt cx cy) offsets m) x y
  = clamp (get m x y + (40 - 10 * Z.max (Z.abs (x - cx)) (Z.abs (y - cy)))).
Proof.
  revert m. induction offsets as [|[dx dy] rest IH]; intros m Hnd Hlen Hgrid Hin;
    [destruct Hin|].
  apply NoDup_cons in Hnd as [Hfresh Hnd]. cbn [fold_left].
  destruct (decide ((dx, dy) = (x - cx, y - cy))) as [Heq|Hne].
  - injection Heq as -> ->.
    rewrite addAt_elsewhere by (rewrite <- list_elem_of_In; exact Hfresh).
    unfold addAt. cbn [fst snd].
    replace (cx + (x - cx)) with x by lia. replace (cy + (y - cy)) with y by lia.
    apply get_set_same; assumption.
  - destruct Hin as [Heq|Hin]; [contradiction|].
    rewrite IH; [|exact Hnd | unfold addAt; rewrite length_set; exact Hlen
                 | exact Hgrid | exact Hin].
    unfold addAt at 1. cbn [fst snd].
    rewrite get_set_other by (intros [= Hx Hy]; apply Hne; f_equal; lia).
    reflexivity.
Qed.

Lemma offsets3_NoDup : NoDup offsets3.
Proof. apply (bool_decide_unpack _). vm_compute. reflexivity. Qed.

Lemma In_offsets3 (dx dy : Z) :
  In (dx, dy) offsets3 <-> Z.max (Z.abs dx) (Z.abs dy) <= 3.
Proof.
  unfold offsets3. rewrite in_flat_map. split.
  - intros [dx' [Hdx Hin]]. apply in_map_iff in Hin as [dy' [[= <- <-] Hdy]].
    apply In_fromTo in Hdx, Hdy. lia.
  - intros Hmax. exists dx. split; [apply In_fromTo; lia|].
    apply in_map_iff. exists dy. split; [reflexivity | apply In_fromTo; lia].
Qed.

Lemma penalty_nonneg (avoidCreep : Creep) (x y : Z) : 0 <= penalty avoidCreep x y.
Proof.
  unfold penalty. cbv zeta.
  match goal with |- context [?range <=? 3] => destruct (Z.leb_spec range 3) end; lia.
Qed.

Lemma sum_penalty_nonneg (creeps : list Creep) (x y : Z) :
  0 <= sumZ (map (fun c => penalty c x y) creeps).
Proof.
  induction creeps as [|c rest IH]; cbn [map sumZ fold_right]; [lia|].
  pose proof (penalty_nonneg c x y). unfold sumZ in IH. lia.
Qed.

Lemma sum_penalty_zero (creeps : list Creep) (x y : Z) :
  (forall c, In c creeps -> penalty c x y = 0) ->
  sumZ (map (fun c => penalty c x y) creeps) = 0.
Proof.
  induction creeps as [|c rest IH]; intros Hfar; [reflexivity|].
  cbn [map sumZ fold_right]. rewrite (Hfar c) by (left; reflexivity).
  unfold sumZ in IH. rewrite IH; [reflexivity|].
  intros c' Hin. apply Hfar. right. exact Hin.
Qed.

Lemma kiteAround_wf (avoidCreep : Creep) (m : CostMatrix.t) :
  wf m -> wf (kiteAround avoidCreep m).
Proof. rewrite kiteAround_flat. apply addAt_wf. Qed.

Lemma kiteAround_get (avoidCreep : Creep) (m : CostMatrix.t) (x y : Z) :
  wf m -> in_grid x y = true ->
  get (kiteAround avoidCreep m) x y = Z.min 255 (get m x y + penalty avoidCreep x y).
Proof.
  intros Hwf Hgrid. rewrite kiteAround_flat. unfold penalty. cbv zeta.
  pose proof (get_byte m x y Hwf) as Hbyte.
  destruct (Z.leb_spec (Z.max (Z.abs (x - RoomPosition.x (c_pos avoidCreep)))
                              (Z.abs (y - RoomPosition.y (c_pos avoidCreep)))) 3)
    as [Hnear|Hfar].
  - rewrite addAt_once; [unfold clamp; lia | apply offsets3_NoDup | apply Hwf
                        | exact Hgrid | apply In_offsets3; exact Hnear].
  - rewrite addAt_elsewhere by (rewrite In_offsets3; lia). lia.
Qed.

Lemma kitingFold_wf (creeps : list Creep) (m : CostMatrix.t) :
  wf m -> wf (fold_left (fun m avoidCreep => kiteAround avoidCreep m) creeps m).
Proof.
  revert m. induction creeps as [|c rest IH]; intros m Hwf; cbn [fold_left];
    [exact Hwf | apply IH, kiteAround_wf, Hwf].
Qed.

Lemma kitingFold_get (creeps : list Creep) (m : CostMatrix.t) (x y : Z) :
  wf m -> in_grid x y = true ->
  get (fold_left (fun m avoidCreep => kiteAround avoidCreep m) creeps m) x y
  = Z.min 255 (get m x y + sumZ (map (fun c => penalty c x y) creeps)).
Proof.
  revert m. induction creeps as [|c rest IH]; intros m Hwf Hgrid;
    cbn [fold_left map sumZ fold_right].
  - pose proof (get_byte m x y Hwf). lia.
  - rewrite IH by (try apply kiteAround_wf; assumption).
    rewrite kiteAround_get by assumption.
    pose proof (get_byte m x y Hwf). pose proof (penalty_nonneg c x y).
    pose proof (sum_penalty_nonneg rest x y). unfold sumZ in *. lia.
Qed.

Lemma fold_set_wf {A} (xs : list A) (sel : A -> bool) (px py : A -> Z) (v : Z)
    (m : CostMatrix.t) :
  wf m -> wf (fold_left (fun m a => if sel a then set m (px a) (py a) v else m) xs m).
Proof.
  revert m. induction xs as [|a rest IH]; intros m Hwf; cbn [fold_left]; [exact Hwf|].
  apply IH. destruct (sel a); [apply wf_set|]; exact Hwf.
Qed.

Lemma defaultContent_wf (room : Room) : wf (defaultContent room).
Proof.
  unfold defaultContent. cbv zeta. apply fold_set_wf.
  apply (fold_set_wf _ (fun _ => true)). apply fold_set_wf. apply wf_new.
Qed.

Lemma creepContent_wf (room : Room) (m : CostMatrix.t) : wf m -> wf (creepContent room m).
Proof. apply (fold_set_wf _ (fun _ => true)). Qed.

Lemma deref_wf (s : Store) (r : MatrixRef) : Forall wf (heap s) -> wf (deref s r).
Proof.
  intros Hheap. unfold deref. destruct (heap s !! r) as [m|] eqn:Hm; [|apply wf_new].
  rewrite Forall_forall in Hheap. apply Hheap, list_elem_of_lookup. eauto.
Qed.

Lemma getDefaultMatrix_wf (room : Room) (s : Store) :
  Forall wf (heap s) -> Forall wf (heap (snd (getDefaultMatrix room s))).
Proof.
  intros Hheap. destruct (_defaultMatrix (cacheOf s room)) as [r|] eqn:Hc.
  - rewrite (getDefaultMatrix_hit _ _ _ Hc). exact Hheap.
  - rewrite (getDefaultMatrix_miss _ _ Hc). cbn [snd heap].
    apply Forall_app. split; [exact Hheap|].
    apply Forall_cons. split; [apply defaultContent_wf | apply Forall_nil_2].
Qed.

Lemma getCreepMatrix_wf (room : Room) (s : Store) :
  Forall wf (heap s) -> Forall wf (heap (snd (getCreepMatrix room s))).
Proof.
  intros Hheap. destruct (_creepMatrix (cacheOf s room)) as [r|] eqn:Hc.
  - rewrite (getCreepMatrix_hit _ _ _ Hc). exact Hheap.
  - rewrite (getCreepMatrix_miss _ _ Hc).
    pose proof (getDefaultMatrix_wf room s Hheap) as Hdefault.
    destruct (getDefaultMatrix room s) as [base s1]. cbn [snd heap] in *.
    apply Forall_app. split; [exact Hdefault|].
    apply Forall_cons. split; [|apply Forall_nil_2].
    apply creepContent_wf, deref_wf, Hdefault.
Qed.

End DerivedMatrices.

(** C6, as stated, fails twice.  The hostile's own tile is blocked in the
    base matrix, so its cost stays 255 instead of rising by 40; and the tile
    at offset (4, 4) holds a constructed wall, so the cost 10 at offset
    (3, 3) is below the cost 255 at offset (4, 4). *)
Lemma getKitingMatrix_decay_counterexample :
  avoidCreeps Samples.kitingRoom = [Samples.attacker]
  /\ CostMatrix.get
       (deref (snd (getCreepMatrix Samples.kitingRoom Samples.emptyStore))
              (fst (getCreepMatrix Samples.kitingRoom Samples.emptyStore))) 10 10 = 255
  /\ CostMatrix.get
       (deref (snd (getKitingMatrix Samples.kitingRoom Samples.emptyStore))
              (fst (getKitingMatrix Samples.kitingRoom Samples.emptyStore))) 10 10 = 255
  /\ CostMatrix.get
       (deref (snd (getKitingMatrix Samples.kitingRoom Samples.emptyStore))
              (fst (getKitingMatrix Samples.kitingRoom Samples.emptyStore))) 13 13 = 10
  /\ CostMatrix.get
       (deref (snd (getKitingMatrix Samples.kitingRoom Samples.emptyStore))
              (fst (getKitingMatrix Samples.kitingRoom Samples.emptyStore))) 14 14 = 255
  /\ ~ (CostMatrix.get
          (deref (snd (getKitingMatrix Samples.kitingRoom Samples.emptyStore))
                 (fst (getKitingMatrix Samples.kitingRoom Samples.emptyStore))) 13 13
        >= CostMatrix.get
             (deref (snd (getKitingMatrix Samples.kitingRoom Samples.emptyStore))
                    (fst (getKitingMatrix Samples.kitingRoom Samples.emptyStore))) 14 14).
Proof. vm_compute. repeat split; try reflexivity. intros H. apply H. reflexivity. Qed.

(** C6 (amended): when every hostile combatant stands at least 3 tiles from
    the edge of the grid, so that the loops around it stay on the grid, every
    tile of the grid costs in the kiting matrix its cost in the
    agent-avoiding base matrix plus, for each hostile combatant within range
    3 of it, 40 - 10 * range, the total capped at 255; a tile out of range 3
    of every hostile combatant keeps its base cost.  With a single hostile
    combatant, of two tiles the one that is not further from the hostile and
    not cheaper in the base matrix is not cheaper in the kiting matrix; so
    the cost at offset (0, 0) is at least the cost at offset (3, 3), which is
    at least the cost at offset (4, 4), whenever the base costs of the three
    tiles are in that order, the cost at offset (4, 4) being its base cost. *)
Theorem getKitingMatrix_cells (room : Room) (s : Store) :
  Forall CostMatrix.wf (heap s) ->
  _kitingMatrix (cacheOf s room) = None ->
  (forall c, In c (avoidCreeps room) ->
     3 <= RoomPosition.x (c_pos c) <= 46 /\ 3 <= RoomPosition.y (c_pos c) <= 46) ->
  let base := deref (snd (getCreepMatrix room s)) (fst (getCreepMatrix room s)) in
  let kiting := deref (snd (getKitingMatrix room s)) (fst (getKitingMatrix room s)) in
  (forall x y, CostMatrix.in_grid x y = true ->
     CostMatrix.get kiting x y
     = Z.min 255 (CostMatrix.get base x y
                  + sumZ (map (fun c => penalty c x y) (avoidCreeps room))))
  /\ (forall x y, CostMatrix.in_grid x y = true ->
       (forall c, In c (avoidCreeps room) ->
          3 < Z.max (Z.abs (x - RoomPosition.x (c_pos c)))
                    (Z.abs (y - RoomPosition.y (c_pos c)))) ->
       CostMatrix.get kiting x y = CostMatrix.get base x y)
  /\ (forall c x1 y1 x2 y2,
       avoidCreeps room = [c] ->
       CostMatrix.in_grid x1 y1 = true -> CostMatrix.in_grid x2 y2 = true ->
       Z.max (Z.abs (x1 - RoomPosition.x (c_pos c)))
             (Z.abs (y1 - RoomPosition.y (c_pos c)))
       <= Z.max (Z.abs (x2 - RoomPosition.x (c_pos c)))
                (Z.abs (y2 - RoomPosition.y (c_pos c))) ->
       CostMatrix.get base x2 y2 <= CostMatrix.get base x1 y1 ->
       CostMatrix.get kiting x2 y2 <= CostMatrix.get kiting x1 y1)
  /\ (forall c,
       avoidCreeps room = [c] ->
       let x := RoomPosition.x (c_pos c) in
       let y := RoomPosition.y (c_pos c) in
       CostMatrix.in_grid (x + 4) (y + 4) = true ->
       CostMatrix.get base (x + 3) (y + 3) <= CostMatrix.get base x y ->
       CostMatrix.get base (x + 4) (y + 4) <= CostMatrix.get base (x + 3) (y + 3) ->
       CostMatrix.get kiting x y = Z.min 255 (CostMatrix.get base x y + 40)
       /\ CostMatrix.get kiting (x + 3) (y + 3)
          = Z.min 255 (CostMatrix.get base (x + 3) (y + 3) + 10)
       /\ CostMatrix.get kiting (x + 4) (y + 4) = CostMatrix.get base (x + 4) (y + 4)
       /\ CostMatrix.get kiting x y >= CostMatrix.get kiting (x + 3) (y + 3)
       /\ CostMatrix.get kiting (x + 3) (y + 3) >= CostMatrix.get kiting (x + 4) (y + 4)).
Proof.
  intros Hheap Hmiss Hinside. cbv zeta.
  rewrite (getKitingMatrix_miss room s Hmiss).
  pose proof (getCreepMatrix_wf room s Hheap) as Hheap1.
  destruct (getCreepMatrix room s) as [base s1]. cbn [fst snd] in *.
  rewrite deref_fresh.
  pose proof (deref_wf s1 base Hheap1) as Hwf.
  assert (Hcells : forall x y, CostMatrix.in_grid x y = true ->
            CostMatrix.get (kitingContent room (deref s1 base)) x y
            = Z.min 255 (CostMatrix.get (deref s1 base) x y
                         + sumZ (map (fun c => penalty c x y) (avoidCreeps room))))
    by (intros x y Hgrid; apply kitingFold_get; assumption).
  split; [exact Hcells | split; [|split]].
  - intros x y Hgrid Hfar. rewrite Hcells by exact Hgrid.
    rewrite (sum_penalty_zero (avoidCreeps room) x y).
    + pose proof (CostMatrixFacts.get_byte _ x y Hwf). lia.
    + intros c Hc. specialize (Hfar c Hc). unfold penalty. cbv zeta.
      match goal with
      | |- context [?range <=? 3] => destruct (Z.leb_spec range 3)
      end; [lia | reflexivity].
  - intros c x1 y1 x2 y2 Hone Hg1 Hg2 Hrange Hbase.
    rewrite !Hcells by assumption. rewrite Hone. cbn [map sumZ fold_right].
    unfold penalty. cbv zeta.
    repeat match goal with
           | |- context [?range <=? 3] => destruct (Z.leb_spec range 3)
           end; lia.
  - intros c Hone Hg4 Hb3 Hb4.
    specialize (Hinside c). rewrite Hone in Hinside.
    destruct (Hinside (or_introl eq_refl)) as [Hx Hy].
    apply CostMatrixFacts.in_grid_spec in Hg4.
    assert (Hg0 : CostMatrix.in_grid (RoomPosition.x (c_pos c))
                                     (RoomPosition.y (c_pos c)) = true)
      by (apply CostMatrixFacts.in_grid_spec; lia).
    assert (Hg3 : CostMatrix.in_grid (RoomPosition.x (c_pos c) + 3)
                                     (RoomPosition.y (c_pos c) + 3) = true)
      by (apply CostMatrixFacts.in_grid_spec; lia).
    assert (Hg4' : CostMatrix.in_grid (RoomPosition.x (c_pos c) + 4)
                                      (RoomPosition.y (c_pos c) + 4) = true)
      by (apply CostMatrixFacts.in_grid_spec; lia).
    rewrite !Hcells by assumption. rewrite Hone.
    cbn [map sumZ fold_right]. unfold penalty. cbv zeta.
    replace (RoomPosition.x (c_pos c) - RoomPosition.x (c_pos c)) with 0 by lia.
    replace (RoomPosition.y (c_pos c) - RoomPosition.y (c_pos c)) with 0 by lia.
    replace (RoomPosition.x (c_pos c) + 3 - RoomPosition.x (c_pos c)) with 3 by lia.
    replace (RoomPosition.y (c_pos c) + 3 - RoomPosition.y (c_pos c)) with 3 by lia.
    replace (RoomPosition.x (c_pos c) + 4 - RoomPosition.x (c_pos c)) with 4 by lia.
    replace (RoomPosition.y (c_pos c) + 4 - RoomPosition.y (c_pos c)) with 4 by lia.
    change (Z.max (Z.abs 0) (Z.abs 0) <=? 3) with true.
    change (Z.max (Z.abs 3) (Z.abs 3) <=? 3) with true.
    change (Z.max (Z.abs 4) (Z.abs 4) <=? 3) with false.
    change (Z.max (Z.abs 0) (Z.abs 0)) with 0.
    change (Z.max (Z.abs 3) (Z.abs 3)) with 3.
    cbv iota.
    pose proof (CostMatrixFacts.get_byte _ (RoomPosition.x (c_pos c) + 4)
                  (RoomPosition.y (c_pos c) + 4) Hwf).
    repeat split; lia.
Qed.

Lemma getKitingMatrix_cells_witness :
  Forall CostMatrix.wf (heap Samples.emptyStore)
  /\ _kitingMatrix (cacheOf Samples.emptyStore MoreSamples.openKitingRoom) = None
  /\ avoidCreeps MoreSamples.openKitingRoom = [Samples.attacker]
  /\ CostMatrix.get
       (deref (snd (getKitingMatrix MoreSamples.openKitingRoom Samples.emptyStore))
              (fst (getKitingMatrix MoreSamples.openKitingRoom Samples.emptyStore)))
       10 10 = Z.min 255 (255 + 40)
  /\ CostMatrix.get
       (deref (snd (getKitingMatrix MoreSamples.openKitingRoom Samples.emptyStore))
              (fst (getKitingMatrix MoreSamples.openKitingRoom Samples.emptyStore)))
       13 13 = Z.min 255 (0 + 10)
  /\ CostMatrix.get
       (deref (snd (getKitingMatrix MoreSamples.openKitingRoom Samples.emptyStore))
              (fst (getKitingMatrix MoreSamples.openKitingRoom Samples.emptyStore)))
       14 14 = 0
  /\ CostMatrix.get
       (deref (snd (getKitingMatrix MoreSamples.openKitingRoom Samples.emptyStore))
              (fst (getKitingMatrix MoreSamples.openKitingRoom Samples.emptyStore)))
       10 10
     >= CostMatrix.get
          (deref (snd (getKitingMatrix MoreSamples.openKitingRoom Samples.emptyStore))
                 (fst (getKitingMatrix MoreSamples.openKitingRoom Samples.emptyStore)))
          13 13
  /\ CostMatrix.get
       (deref (snd (getKitingMatrix MoreSamples.openKitingRoom Samples.emptyStore))
              (fst (getKitingMatrix MoreSamples.openKitingRoom Samples.emptyStore)))
       13 13
     >= CostMatrix.get
          (deref (snd (getKitingMatrix MoreSamples.openKitingRoom Samples.emptyStore))
                 (fst (getKitingMatrix MoreSamples.openKitingRoom Samples.emptyStore)))
          14 14.
Proof.
  assert (Hheap : Forall CostMatrix.wf (heap Samples.emptyStore)) by constructor.
  assert (Hmiss :
    _kitingMatrix (cacheOf Samples.emptyStore MoreSamples.openKitingRoom) = None)
    by reflexivity.
  assert (Hone : avoidCreeps MoreSamples.openKitingRoom = [Samples.attacker])
    by reflexivity.
  assert (Hinside : forall c, In c (avoidCreeps MoreSamples.openKitingRoom) ->
            3 <= RoomPosition.x (c_pos c) <= 46 /\ 3 <= RoomPosition.y (c_pos c) <= 46).
  { intros c [<-|[]]. cbn. lia. }
  split; [exact Hheap | split; [exact Hmiss | split; [exact Hone|]]].
  apply (proj2 (proj2 (proj2
           (getKitingMatrix_cells MoreSamples.openKitingRoom Samples.emptyStore
              Hheap Hmiss Hinside))) Samples.attacker Hone).
  - reflexivity.
  - vm_compute. discriminate.
  - vm_compute. discriminate.
Defined.

(** ** Cache purity *)

Section CachePurity.

Import CostMatrix CostMatrixFacts.

Variable W : World.

Lemma getDirectMatrix_hit (room : Room) (s : Store) (r : MatrixRef) :
  _directMatrix (cacheOf s room) = Some r -> getDirectMatrix room s = (r, s).
Proof. intros Hhit. unfold getDirectMatrix, bind, gets. rewrite Hhit. reflexivity. Qed.

Lemma getDirectMatrix_miss (room : Room) (s : Store) :
  _directMatrix (cacheOf s room) = None ->
  getDirectMatrix room s
  = (length (heap s),
     mkStore (heap s ++ [directContent room])
             (<[name room := cacheDirect (length (heap s)) (cacheOf s room)]>
                (roomCache s))).
Proof.
  intros Hmiss. destruct s as [h c].
  unfold getDirectMatrix. unfold bind at 1. unfold gets. rewrite Hmiss.
  unfold bind at 1. unfold newMatrix, alloc. cbn [heap roomCache].
  rewrite (step_fresh_foldM h c new (fun a m => m)
             (fun acc a => if negb (isWalkable a) then acc ++ [a] else acc));
    cycle 1.
  { intros acc a s Hs. cbv beta.
    pose proof (updates_pure (length h) s Hs) as Hid. unfold pure in *.
    injection Hid as Hid. rewrite <- Hid.
    destruct (negb (isWalkable a)); destruct s; reflexivity. }
  erewrite step_fresh by (apply updates_forEach; intros; apply updates_mset).
  erewrite step_fresh
    by (apply updates_forEach; intros; apply updates_if;
        [apply updates_mset | apply updates_pure]).
  unfold directContent. cbv zeta.
  replace (fold_left (fun m (_ : Structure) => m) (find_structures room) new) with new
    by (induction (find_structures room); [reflexivity | assumption]).
  reflexivity.
Qed.

Lemma getSkMatrix_other (room : Room) (s : Store) :
  roomType W (name room) <> ROOMTYPE_SOURCEKEEPER ->
  getSkMatrix W room s = getDefaultMatrix room s.
Proof.
  intros Hother. unfold getSkMatrix.
  destruct (roomType W (name room)); try reflexivity. contradiction.
Qed.

Lemma getSkMatrix_hit (room : Room) (s : Store) (r : MatrixRef) :
  roomType W (name room) = ROOMTYPE_SOURCEKEEPER ->
  _skMatrix (cacheOf s room) = Some r -> getSkMatrix W room s = (r, s).
Proof.
  intros Hsk Hhit. unfold getSkMatrix. rewrite Hsk. cbn [RoomType_eqb negb].
  unfold bind, gets. rewrite Hhit. reflexivity.
Qed.

Lemma getSkMatrix_miss (room : Room) (s : Store) :
  roomType W (name room) = ROOMTYPE_SOURCEKEEPER ->
  _skMatrix (cacheOf s room) = None ->
  getSkMatrix W room s =
  let (base, s1) := getDefaultMatrix room s in
  (length (heap s1),
   mkStore (heap s1 ++ [skContent room (deref s1 base)])
           (<[name room := cacheSk (length (heap s1)) (cacheOf s1 room)]>
              (roomCache s1))).
Proof.
  intros Hsk Hmiss. unfold getSkMatrix. rewrite Hsk. cbn [RoomType_eqb negb].
  unfold bind at 1. unfold gets. rewrite Hmiss.
  unfold bind at 1. destruct (getDefaultMatrix room s) as [base [h c]].
  unfold bind at 1. unfold clone, alloc. cbn [heap roomCache]. cbv zeta.
  erewrite step_fresh
    by (apply updates_forEach; intros; apply updates_forEach; intros;
        apply updates_forEach; intros; apply updates_mset).
  reflexivity.
Qed.

Lemma keeps_refl (c : RoomCache) : keeps c c.
Proof. unfold keeps. tauto. Qed.

Lemma keeps_trans (c1 c2 c3 : RoomCache) : keeps c1 c2 -> keeps c2 c3 -> keeps c1 c3.
Proof.
  intros (Ha & Hb & Hc & Hd & He) (Ha' & Hb' & Hc' & Hd' & He').
  unfold keeps. repeat split; eauto.
Qed.

Lemma extends_refl (s : Store) : extends s s.
Proof.
  split; [exists []; rewrite app_nil_r; reflexivity | intros; apply keeps_refl].
Qed.

Lemma extends_trans (s1 s2 s3 : Store) : extends s1 s2 -> extends s2 s3 -> extends s1 s3.
Proof.
  intros [[f1 H1] K1] [[f2 H2] K2]. split.
  - exists (f1 ++ f2). rewrite H2, H1, app_assoc. reflexivity.
  - intros room. eapply keeps_trans; [apply K1 | apply K2].
Qed.

Lemma extends_length (s s' : Store) :
  extends s s' -> (length (heap s) <= length (heap s'))%nat.
Proof. intros [[fresh ->] _]. rewrite length_app. lia. Qed.

Lemma deref_extends (s s' : Store) (r : MatrixRef) :
  extends s s' -> (r < length (heap s))%nat -> deref s' r = deref s r.
Proof.
  intros [[fresh Hheap] _] Hr. unfold deref. rewrite Hheap.
  rewrite lookup_app_l by exact Hr. reflexivity.
Qed.

Lemma cacheOf_insert (h : list CostMatrix.t) (rc : gmap string RoomCache)
    (room room' : Room) (c : RoomCache) :
  cacheOf (mkStore h (<[name room := c]> rc)) room'
  = if decide (name room = name room') then c else cacheOf (mkStore h rc) room'.
Proof.
  unfold cacheOf. cbn [roomCache]. rewrite lookup_insert.
  case_decide; reflexivity.
Qed.

Lemma cacheOf_heap (h h' : list CostMatrix.t) (rc : gmap string RoomCache) (room : Room) :
  cacheOf (mkStore h rc) room = cacheOf (mkStore h' rc) room.
Proof. reflexivity. Qed.

Lemma cacheOf_name (s : Store) (room room' : Room) :
  name room = name room' -> cacheOf s room = cacheOf s room'.
Proof. unfold cacheOf. intros ->. reflexivity. Qed.

(** Appending matrices and filling one empty slot of one room's cache. *)
Lemma extends_fill (s : Store) (fresh : list CostMatrix.t) (room : Room) (c : RoomCache) :
  keeps (cacheOf s room) c ->
  extends s (mkStore (heap s ++ fresh) (<[name room := c]> (roomCache s))).
Proof.
  intros Hkeeps. split; [exists fresh; reflexivity|].
  intros room'. rewrite cacheOf_insert. case_decide as Hname.
  - rewrite <- (cacheOf_name s room room' Hname). exact Hkeeps.
  - apply keeps_refl.
Qed.

Lemma extends_append (s : Store) (fresh : list CostMatrix.t) :
  extends s (mkStore (heap s ++ fresh) (roomCache s)).
Proof. split; [exists fresh; reflexivity | intros; apply keeps_refl]. Qed.

Lemma store_wf_fill (s : Store) (m : CostMatrix.t) (room : Room) (c : RoomCache) :
  store_wf s ->
  (forall r, cachedIn c r -> cachedIn (cacheOf s room) r \/ r = length (heap s)) ->
  store_wf (mkStore (heap s ++ [m]) (<[name room := c]> (roomCache s))).
Proof.
  intros Hwf Hc room' r. rewrite cacheOf_insert. cbn [heap]. rewrite length_app.
  cbn [length]. case_decide.
  - intros Hin. destruct (Hc r Hin) as [Hold| ->]; [|lia].
    specialize (Hwf room r Hold). lia.
  - intros Hin. specialize (Hwf room' r Hin). lia.
Qed.

Lemma store_wf_append (s : Store) (fresh : list CostMatrix.t) :
  store_wf s -> store_wf (mkStore (heap s ++ fresh) (roomCache s)).
Proof.
  intros Hwf room r Hin. cbn [heap]. rewrite length_app.
  specialize (Hwf room r Hin). lia.
Qed.

Lemma getDefaultMatrix_ok (room : Room) (s : Store) :
  store_wf s ->
  getter_ok s (getDefaultMatrix room s)
  /\ _defaultMatrix (cacheOf (snd (getDefaultMatrix room s)) room)
     = Some (fst (getDefaultMatrix room s)).
Proof.
  intros Hwf. destruct (_defaultMatrix (cacheOf s room)) as [r|] eqn:Hc.
  - rewrite (getDefaultMatrix_hit _ _ _ Hc). cbn [fst snd].
    refine (conj (conj (extends_refl s) (conj Hwf _)) Hc).
    apply (Hwf room). left. exact Hc.
  - rewrite (getDefaultMatrix_miss _ _ Hc). cbn [fst snd].
    refine (conj (conj _ (conj _ _)) _); cbn [fst snd].
    + apply extends_fill. unfold keeps, cacheDefault. cbn.
      repeat split; try tauto. intros r Hr. congruence.
    + apply store_wf_fill; [exact Hwf|].
      intros r [Hr|[Hr|[Hr|[Hr|Hr]]]]; cbn in Hr;
        [right; congruence | left; unfold cachedIn; tauto..].
    + cbn [heap]. rewrite length_app. cbn [length]. lia.
    + rewrite cacheOf_insert. case_decide; [reflexivity | contradiction].
Qed.

Lemma getDirectMatrix_ok (room : Room) (s : Store) :
  store_wf s ->
  getter_ok s (getDirectMatrix room s)
  /\ _directMatrix (cacheOf (snd (getDirectMatrix room s)) room)
     = Some (fst (getDirectMatrix room s)).
Proof.
  intros Hwf. destruct (_directMatrix (cacheOf s room)) as [r|] eqn:Hc.
  - rewrite (getDirectMatrix_hit _ _ _ Hc). cbn [fst snd].
    refine (conj (conj (extends_refl s) (conj Hwf _)) Hc).
    apply (Hwf room). right. left. exact Hc.
  - rewrite (getDirectMatrix_miss _ _ Hc). cbn [fst snd].
    refine (conj (conj _ (conj _ _)) _); cbn [fst snd].
    + apply extends_fill. unfold keeps, cacheDirect. cbn.
      repeat split; try tauto. intros r Hr. congruence.
    + apply store_wf_fill; [exact Hwf|].
      intros r [Hr|[Hr|[Hr|[Hr|Hr]]]]; cbn in Hr;
        [left; unfold cachedIn; tauto | right; congruence
         | left; unfold cachedIn; tauto..].
    + cbn [heap]. rewrite length_app. cbn [length]. lia.
    + rewrite cacheOf_insert. case_decide; [reflexivity | contradiction].
Qed.

Lemma getDefaultMatrix_slots (room : Room) (s : Store) :
  _creepMatrix (cacheOf (snd (getDefaultMatrix room s)) room) = _creepMatrix (cacheOf s room)
  /\ _skMatrix (cacheOf (snd (getDefaultMatrix room s)) room) = _skMatrix (cacheOf s room).
Proof.
  destruct (_defaultMatrix (cacheOf s room)) as [r|] eqn:Hc.
  - rewrite (getDefaultMatrix_hit _ _ _ Hc). split; reflexivity.
  - rewrite (getDefaultMatrix_miss _ _ Hc). cbn [snd]. rewrite cacheOf_insert.
    case_decide; [split; reflexivity | contradiction].
Qed.

Lemma getCreepMatrix_ok (room : Room) (s : Store) :
  store_wf s ->
  getter_ok s (getCreepMatrix room s)
  /\ _creepMatrix (cacheOf (snd (getCreepMatrix room s)) room)
     = Some (fst (getCreepMatrix room s)).
Proof.
  intros Hwf. destruct (_creepMatrix (cacheOf s room)) as [r|] eqn:Hc.
  - rewrite (getCreepMatrix_hit _ _ _ Hc). cbn [fst snd].
    refine (conj (conj (extends_refl s) (conj Hwf _)) Hc).
    apply (Hwf room). right. right. left. exact Hc.
  - rewrite (getCreepMatrix_miss _ _ Hc).
    pose proof (getDefaultMatrix_ok room s Hwf) as [(Hext & Hwf1 & _) _].
    pose proof (getDefaultMatrix_slots room s) as [Hslot _]. rewrite Hc in Hslot.
    destruct (getDefaultMatrix room s) as [base s1]. cbn [fst snd] in *.
    refine (conj (conj _ (conj _ _)) _); cbn [fst snd].
    + eapply extends_trans; [exact Hext|]. apply extends_fill.
      unfold keeps, cacheCreep. cbn. repeat split; try tauto.
      intros r Hr. congruence.
    + apply store_wf_fill; [exact Hwf1|].
      intros r [Hr|[Hr|[Hr|[Hr|Hr]]]]; cbn in Hr;
        [left; unfold cachedIn; tauto | left; unfold cachedIn; tauto
         | right; congruence | left; unfold cachedIn; tauto..].
    + cbn [heap]. rewrite length_app. cbn [length]. lia.
    + rewrite cacheOf_insert. case_decide; [reflexivity | contradiction].
Qed.

Lemma getSkMatrix_ok (room : Room) (s : Store) :
  store_wf s ->
  getter_ok s (getSkMatrix W room s)
  /\ (if RoomType_eqb (roomType W (name room)) ROOMTYPE_SOURCEKEEPER
      then _skMatrix (cacheOf (snd (getSkMatrix W room s)) room)
      else _defaultMatrix (cacheOf (snd (getSkMatrix W room s)) room))
     = Some (fst (getSkMatrix W room s)).
Proof.
  intros Hwf.
  destruct (RoomType_eqb (roomType W (name room)) ROOMTYPE_SOURCEKEEPER) eqn:Htype.
  - assert (Hsk : roomType W (name room) = ROOMTYPE_SOURCEKEEPER)
      by (destruct (roomType W (name room)); (reflexivity || discriminate)).
    destruct (_skMatrix (cacheOf s room)) as [r|] eqn:Hc.
    + rewrite (getSkMatrix_hit _ _ _ Hsk Hc). cbn [fst snd].
      refine (conj (conj (extends_refl s) (conj Hwf _)) Hc).
      apply (Hwf room). do 4 right. exact Hc.
    + rewrite (getSkMatrix_miss _ _ Hsk Hc).
      pose proof (getDefaultMatrix_ok room s Hwf) as [(Hext & Hwf1 & _) _].
      pose proof (getDefaultMatrix_slots room s) as [_ Hslot]. rewrite Hc in Hslot.
      destruct (getDefaultMatrix room s) as [base s1]. cbn [fst snd] in *.
      refine (conj (conj _ (conj _ _)) _); cbn [fst snd].
      * eapply extends_trans; [exact Hext|]. apply extends_fill.
        unfold keeps, cacheSk. cbn. repeat split; try tauto.
        intros r Hr. congruence.
      * apply store_wf_fill; [exact Hwf1|].
        intros r [Hr|[Hr|[Hr|[Hr|Hr]]]]; cbn in Hr;
          [left; unfold cachedIn; tauto.. | right; congruence].
      * cbn [heap]. rewrite length_app. cbn [length]. lia.
      * rewrite cacheOf_insert. case_decide; [reflexivity | contradiction].
  - assert (Hother : roomType W (name room) <> ROOMTYPE_SOURCEKEEPER)
      by (intros Heq; rewrite Heq in Htype; discriminate).
    rewrite (getSkMatrix_other _ _ Hother). apply getDefaultMatrix_ok, Hwf.
Qed.

(** A matrix found in a cache slot is found there again in every later
    store, with the same cells. *)
Lemma cached_stays (getter : ST Store MatrixRef) (slot : RoomCache -> option MatrixRef)
    (room : Room) (s1 s2 : Store) (b : MatrixRef) :
  (forall s r, slot (cacheOf s room) = Some r -> getter s = (r, s)) ->
  (forall c c', keeps c c' -> forall r, slot c = Some r -> slot c' = Some r) ->
  slot (cacheOf s1 room) = Some b -> (b < length (heap s1))%nat ->
  extends s1 s2 ->
  deref (snd (getter s2)) (fst (getter s2)) = deref s1 b.
Proof.
  intros Hhit Hkeeps Hslot Hb Hext.
  rewrite (Hhit s2 b) by (eapply Hkeeps; [apply Hext | exact Hslot]).
  cbn [fst snd]. apply deref_extends; assumption.
Qed.

Lemma baseMatrix_ok (room : Room) (options : MoveOptions) (s : Store) :
  store_wf s ->
  getter_ok s (baseMatrix W room options s)
  /\ (forall s2, extends (snd (baseMatrix W room options s)) s2 ->
        deref (snd (baseMatrix W room options s2)) (fst (baseMatrix W room options s2))
        = deref (snd (baseMatrix W room options s)) (fst (baseMatrix W room options s))).
Proof.
  intros Hwf. unfold baseMatrix.
  destruct (bool_decide (ignoreCreeps options = Some false)).
  { pose proof (getCreepMatrix_ok room s Hwf) as [Hok Hslot].
    split; [exact Hok|]. intros s2 Hext.
    apply (cached_stays _ _creepMatrix room); try assumption.
    - apply getCreepMatrix_hit.
    - intros c c' Hk. apply Hk.
    - apply Hok. }
  destruct (truthy (avoidSK options)).
  { pose proof (getSkMatrix_ok room s Hwf) as [Hok Hslot].
    split; [exact Hok|]. intros s2 Hext.
    destruct (RoomType_eqb (roomType W (name room)) ROOMTYPE_SOURCEKEEPER) eqn:Htype.
    - assert (Hsk : roomType W (name room) = ROOMTYPE_SOURCEKEEPER)
        by (destruct (roomType W (name room)); (reflexivity || discriminate)).
      apply (cached_stays _ _skMatrix room); try assumption.
      + intros s' r. apply getSkMatrix_hit, Hsk.
      + intros c c' Hk. apply Hk.
      + apply Hok.
    - assert (Hother : roomType W (name room) <> ROOMTYPE_SOURCEKEEPER)
        by (intros Heq; rewrite Heq in Htype; discriminate).
      apply (cached_stays _ _defaultMatrix room); try assumption.
      + intros s' r Hr. rewrite (getSkMatrix_other _ _ Hother).
        apply getDefaultMatrix_hit, Hr.
      + intros c c' Hk. apply Hk.
      + apply Hok. }
  destruct (truthy (ignoreStructures options)).
  { unfold newMatrix, alloc. cbn [fst snd]. split.
    - refine (conj (extends_append s _) (conj (store_wf_append s _ Hwf) _)).
      cbn [fst snd heap]. rewrite length_app. cbn [length]. lia.
    - intros s2 _. rewrite !deref_fresh. reflexivity. }
  destruct (truthy (direct options)).
  { pose proof (getDirectMatrix_ok room s Hwf) as [Hok Hslot].
    split; [exact Hok|]. intros s2 Hext.
    apply (cached_stays _ _directMatrix room); try assumption.
    - apply getDirectMatrix_hit.
    - intros c c' Hk. apply Hk.
    - apply Hok. }
  pose proof (getDefaultMatrix_ok room s Hwf) as [Hok Hslot].
  split; [exact Hok|]. intros s2 Hext.
  apply (cached_stays _ _defaultMatrix room); try assumption.
  - apply getDefaultMatrix_hit.
  - intros c c' Hk. apply Hk.
  - apply Hok.
Qed.

Lemma getCostMatrix_unfold (room : Room) (options : MoveOptions) (clone_ : bool)
    (s : Store) :
  getCostMatrix W room options clone_ s =
  let (base, s0) := baseMatrix W room options s in
  let (matrix, s1) :=
    match obstacles options with
    | Some (o :: os) =>
        (length (heap s0),
         mkStore (heap s0 ++ [registerObstacles room (o :: os) (deref s0 base)])
                 (roomCache s0))
    | _ => (base, s0)
    end in
  if clone_
  then (length (heap s1), mkStore (heap s1 ++ [deref s1 matrix]) (roomCache s1))
  else (matrix, s1).
Proof.
  unfold getCostMatrix. unfold bind at 1. fold (baseMatrix W room options).
  destruct (baseMatrix W room options s) as [base [h c]].
  unfold bind at 1.
  destruct (obstacles options) as [[|o os]|].
  - destruct clone_; reflexivity.
  - unfold bind at 1. unfold clone at 1. unfold alloc. cbn [heap roomCache].
    erewrite step_fresh
      by (apply updates_forEach; intros; apply updates_if;
          [apply updates_mset | apply updates_pure]).
    destruct clone_; reflexivity.
  - destruct clone_; reflexivity.
Qed.

(** One call of [getCostMatrix]: the store after the call extends the store
    in which the selected matrix was found or built, and the matrix returned
    has that matrix's cells with the obstacles of this room set to 255; with
    obstacles it is a new object. *)
Lemma getCostMatrix_ok (room : Room) (options : MoveOptions) (clone_ : bool) (s : Store) :
  store_wf s ->
  let s0 := snd (baseMatrix W room options s) in
  let base := fst (baseMatrix W room options s) in
  let s1 := snd (getCostMatrix W room options clone_ s) in
  let r := fst (getCostMatrix W room options clone_ s) in
  extends s0 s1 /\ store_wf s1
  /\ deref s1 r = registerObstacles room (default [] (obstacles options)) (deref s0 base)
  /\ (default [] (obstacles options) <> [] -> (length (heap s0) <= r)%nat).
Proof.
  intros Hwf. cbv zeta. rewrite getCostMatrix_unfold.
  pose proof (baseMatrix_ok room options s Hwf) as [(_ & Hwf0 & Hb) _].
  destruct (baseMatrix W room options s) as [base s0]. cbn [fst snd] in *.
  destruct (obstacles options) as [[|o os]|]; cbn [default].
  - destruct clone_; cbn [fst snd].
    + refine (conj (extends_append s0 _) (conj (store_wf_append s0 _ Hwf0) _)).
      rewrite deref_fresh. split; [reflexivity | intros Hne; exfalso; apply Hne; reflexivity].
    + refine (conj (extends_refl s0) (conj Hwf0 _)).
      split; [reflexivity | intros Hne; exfalso; apply Hne; reflexivity].
  - destruct clone_; cbn [fst snd heap roomCache].
    + split; [|split; [|split]].
      * split; [exists ([registerObstacles room (o :: os) (deref s0 base)]
                        ++ [deref (mkStore (heap s0 ++ [registerObstacles room (o :: os)
                                                          (deref s0 base)])
                                           (roomCache s0)) (length (heap s0))]);
                rewrite app_assoc; reflexivity
               | intros; apply keeps_refl].
      * intros room' r Hin. cbn [heap]. rewrite !length_app.
        specialize (Hwf0 room' r Hin). lia.
      * rewrite deref_fresh, deref_fresh. reflexivity.
      * intros _. rewrite length_app. lia.
    + refine (conj (extends_append s0 _) (conj (store_wf_append s0 _ Hwf0) _)).
      rewrite deref_fresh. split; [reflexivity | intros _; lia].
  - destruct clone_; cbn [fst snd].
    + refine (conj (extends_append s0 _) (conj (store_wf_append s0 _ Hwf0) _)).
      rewrite deref_fresh. split; [reflexivity | intros Hne; exfalso; apply Hne; reflexivity].
    + refine (conj (extends_refl s0) (conj Hwf0 _)).
      split; [reflexivity | intros Hne; exfalso; apply Hne; reflexivity].
Qed.

Lemma store_wf_empty : store_wf (mkStore [] ∅).
Proof.
  intros room r. unfold cacheOf. cbn [roomCache]. rewrite lookup_empty.
  intros [H|[H|[H|[H|H]]]]; discriminate.
Qed.

End CachePurity.

(** C8: [getCostMatrix] registers the caller's obstacles on a copy.  The
    matrix it returns for a call with obstacles has the cells of the selected
    base matrix with the obstacle tiles of this room at 255, and is a new
    object; every matrix that existed before a call, the cached base matrix
    among them, has the same cells after it.  So after two calls with
    different obstacle sets, a call without obstacles returns the cells of
    the unmodified base matrix. *)
Theorem getCostMatrix_cache_purity (W : World) (room : Room) (options : MoveOptions)
    (obstacles1 obstacles2 : list RoomPosition.t) (clone1 clone2 clone3 : bool)
    (s : Store) :
  store_wf s ->
  let base := fst (baseMatrix W room options s) in
  let s0 := snd (baseMatrix W room options s) in
  let call1 := getCostMatrix W room (with_obstacles (Some obstacles1) options) clone1 s in
  let call2 :=
    getCostMatrix W room (with_obstacles (Some obstacles2) options) clone2 (snd call1) in
  let call3 := getCostMatrix W room (with_obstacles None options) clone3 (snd call2) in
  deref (snd call1) (fst call1) = registerObstacles room obstacles1 (deref s0 base)
  /\ (obstacles1 <> [] -> fst call1 <> base /\ (length (heap s) <= fst call1)%nat)
  /\ extends s (snd call1) /\ extends (snd call1) (snd call2)
  /\ extends (snd call2) (snd call3)
  /\ deref (snd call1) base = deref s0 base
  /\ deref (snd call2) base = deref s0 base
  /\ deref (snd call3) base = deref s0 base
  /\ deref (snd call3) (fst call3) = deref s0 base.
Proof.
  intros Hwf. cbv zeta.
  pose proof (baseMatrix_ok W room options s Hwf) as [(Hext0 & Hwf0 & Hb) Hstable].
  pose proof (getCostMatrix_ok W room (with_obstacles (Some obstacles1) options)
                clone1 s Hwf) as (Hext1 & Hwf1 & Hcells1 & Hfresh1).
  cbv zeta in Hext1, Hwf1, Hcells1, Hfresh1.
  change (baseMatrix W room (with_obstacles (Some obstacles1) options))
    with (baseMatrix W room options) in *.
  cbn [obstacles with_obstacles default] in Hcells1, Hfresh1.
  set (call1 := getCostMatrix W room (with_obstacles (Some obstacles1) options) clone1 s)
    in *.
  pose proof (baseMatrix_ok W room options (snd call1) Hwf1) as [(Hext1b & _ & _) _].
  pose proof (getCostMatrix_ok W room (with_obstacles (Some obstacles2) options)
                clone2 (snd call1) Hwf1) as (Hext2 & Hwf2 & _ & _).
  cbv zeta in Hext2, Hwf2.
  change (baseMatrix W room (with_obstacles (Some obstacles2) options))
    with (baseMatrix W room options) in *.
  set (call2 := getCostMatrix W room (with_obstacles (Some obstacles2) options) clone2
                              (snd call1)) in *.
  pose proof (baseMatrix_ok W room options (snd call2) Hwf2) as [(Hext2b & _ & _) _].
  pose proof (getCostMatrix_ok W room (with_obstacles None options)
                clone3 (snd call2) Hwf2) as (Hext3 & Hwf3 & Hcells3 & _).
  cbv zeta in Hext3, Hwf3, Hcells3.
  change (baseMatrix W room (with_obstacles None options))
    with (baseMatrix W room options) in *.
  cbn [obstacles with_obstacles default registerObstacles fold_left] in Hcells3.
  set (call3 := getCostMatrix W room (with_obstacles None options) clone3 (snd call2))
    in *.
  assert (Hs1 : extends (snd (baseMatrix W room options s)) (snd call1)) by exact Hext1.
  assert (Hs2 : extends (snd (baseMatrix W room options s)) (snd call2))
    by (eapply extends_trans; [exact Hs1|];
        eapply extends_trans; [exact Hext1b | exact Hext2]).
  assert (Hs3 : extends (snd (baseMatrix W room options s)) (snd call3))
    by (eapply extends_trans; [exact Hs2|];
        eapply extends_trans; [exact Hext2b | exact Hext3]).
  split; [exact Hcells1|]. split.
  { intros Hsome. specialize (Hfresh1 Hsome).
    pose proof (extends_length _ _ Hext0). split; lia. }
  split; [eapply extends_trans; [exact Hext0 | exact Hs1]|].
  split; [eapply extends_trans; [exact Hext1b | exact Hext2]|].
  split; [eapply extends_trans; [exact Hext2b | exact Hext3]|].
  split; [apply deref_extends; assumption|].
  split; [apply deref_extends; assumption|].
  split; [apply deref_extends; assumption|].
  rewrite Hcells3. apply Hstable. exact Hs2.
Qed.

Lemma getCostMatrix_cache_purity_witness :
  store_wf Samples.emptyStore
  /\ deref
       (snd (getCostMatrix (Samples.twoWallsWorld Samples.builtRoom) Samples.builtRoom
               (with_obstacles None noOptions) false
               (snd (getCostMatrix (Samples.twoWallsWorld Samples.builtRoom)
                       Samples.builtRoom
                       (with_obstacles (Some Samples.obstaclesSouth) noOptions) true
                       (snd (getCostMatrix (Samples.twoWallsWorld Samples.builtRoom)
                               Samples.builtRoom
                               (with_obstacles (Some Samples.obstaclesNorth) noOptions)
                               true Samples.emptyStore))))))
       (fst (getCostMatrix (Samples.twoWallsWorld Samples.builtRoom) Samples.builtRoom
               (with_obstacles None noOptions) false
               (snd (getCostMatrix (Samples.twoWallsWorld Samples.builtRoom)
                       Samples.builtRoom
                       (with_obstacles (Some Samples.obstaclesSouth) noOptions) true
                       (snd (getCostMatrix (Samples.twoWallsWorld Samples.builtRoom)
                               Samples.builtRoom
                               (with_obstacles (Some Samples.obstaclesNorth) noOptions)
                               true Samples.emptyStore))))))
     = deref (snd (baseMatrix (Samples.twoWallsWorld Samples.builtRoom) Samples.builtRoom
                               noOptions Samples.emptyStore))
             (fst (baseMatrix (Samples.twoWallsWorld Samples.builtRoom) Samples.builtRoom
                               noOptions Samples.emptyStore)).
Proof.
  split; [exact store_wf_empty|].
  exact (proj2 (proj2 (proj2 (proj2 (proj2 (proj2 (proj2 (proj2
           (getCostMatrix_cache_purity (Samples.twoWallsWorld Samples.builtRoom)
              Samples.builtRoom noOptions Samples.obstaclesNorth Samples.obstaclesSouth
              true true false Samples.emptyStore store_wf_empty))))))))).
Defined.

(** * Properties of the rest of the class *)

(** ** Directions *)

Lemma positionAtDirection_code (origin : RoomPosition.t) (direction : DirectionConstant) :
  positionAtDirection origin (directionCode direction) =
  let x := RoomPosition.x origin + fst (directionOffset direction) in
  let y := RoomPosition.y origin + snd (directionOffset direction) in
  if CostMatrix.in_grid x y
  then position_at (RoomPosition.mk x y (RoomPosition.roomName origin))
  else undefined_position.
Proof.
  destruct direction;
    unfold positionAtDirection, CostMatrix.in_grid, directionCode, directionOffset;
    cbv zeta;
    repeat match goal with
           | |- context [arrayAt ?array ?i] =>
               let v := eval vm_compute in (arrayAt array i) in
               change (arrayAt array i) with v
           end;
    cbn [fst snd];
    repeat match goal with
           | |- context [?a <? ?b] => destruct (Z.ltb_spec a b)
           | |- context [?a <=? ?b] => destruct (Z.leb_spec a b)
           end; cbn [andb orb]; try reflexivity; lia.
Qed.

(** X1: reversing a direction twice gives the direction back, a direction is
    never its own opposite, and in the codes 1 to 8 the opposite lies four
    steps further around the compass. *)
Theorem oppositeDirection_involutive (direction : DirectionConstant) :
  oppositeDirection (oppositeDirection direction) = direction
  /\ oppositeDirection direction <> direction
  /\ directionCode (oppositeDirection direction)
     = (directionCode direction + 3) mod 8 + 1.
Proof. destruct direction; repeat split; (reflexivity || discriminate). Qed.

(** X2: for each of the eight directions, [positionAtDirection] returns a
    tile of the grid in the origin's room at range 1 from the origin, or
    undefined, and does not throw; it returns a position whenever the origin
    is not on the border of the grid. *)
Theorem positionAtDirection_neighbour (origin : RoomPosition.t)
    (direction : DirectionConstant) :
  (forall p, positionAtDirection origin (directionCode direction) = position_at p ->
             RoomPosition.roomName p = RoomPosition.roomName origin
             /\ onGrid p /\ rangeBetween p origin = 1)
  /\ positionAtDirection origin (directionCode direction) <> constructor_throws
  /\ (1 <= RoomPosition.x origin <= 48 -> 1 <= RoomPosition.y origin <= 48 ->
      exists p, positionAtDirection origin (directionCode direction) = position_at p).
Proof.
  rewrite positionAtDirection_code. cbv zeta.
  destruct (CostMatrix.in_grid _ _) eqn:Hgrid.
  - split; [|split].
    + intros p [= <-]. unfold onGrid, rangeBetween. cbn [RoomPosition.x RoomPosition.y
        RoomPosition.roomName]. split; [reflexivity|]. split; [exact Hgrid|].
      destruct direction; cbn [directionOffset fst snd]; lia.
    + discriminate.
    + intros _ _. eexists. reflexivity.
  - split; [|split].
    + intros p. discriminate.
    + discriminate.
    + intros Hx Hy. exfalso.
      assert (Hin : CostMatrix.in_grid
                      (RoomPosition.x origin + fst (directionOffset direction))
                      (RoomPosition.y origin + snd (directionOffset direction)) = true).
      { apply CostMatrixFacts.in_grid_spec.
        destruct direction; cbn [directionOffset fst snd]; lia. }
      congruence.
Qed.

Lemma positionAtDirection_neighbour_witness :
  positionAtDirection (RoomPosition.mk 0 7 "W1N1") (directionCode BOTTOM_RIGHT)
    = position_at (RoomPosition.mk 1 8 "W1N1")
  /\ RoomPosition.roomName (RoomPosition.mk 1 8 "W1N1") = "W1N1"
  /\ onGrid (RoomPosition.mk 1 8 "W1N1")
  /\ rangeBetween (RoomPosition.mk 1 8 "W1N1") (RoomPosition.mk 0 7 "W1N1") = 1.
Proof.
  assert (Hstep : positionAtDirection (RoomPosition.mk 0 7 "W1N1")
                    (directionCode BOTTOM_RIGHT)
                  = position_at (RoomPosition.mk 1 8 "W1N1")) by reflexivity.
  split; [exact Hstep|].
  exact (proj1 (positionAtDirection_neighbour (RoomPosition.mk 0 7 "W1N1") BOTTOM_RIGHT)
               _ Hstep).
Defined.



(** X4: stepping in a direction and then in the opposite direction leads
    back: if [positionAtDirection] takes a tile of the grid to a position,
    the opposite direction takes that position to the tile. *)
Theorem positionAtDirection_there_and_back (origin p : RoomPosition.t)
    (direction : DirectionConstant) :
  onGrid origin ->
  positionAtDirection origin (directionCode direction) = position_at p ->
  positionAtDirection p (directionCode (oppositeDirection direction)) = position_at origin.
Proof.
  intros Hgrid. rewrite !positionAtDirection_code. cbv zeta.
  destruct (CostMatrix.in_grid _ _); [|discriminate].
  intros [= <-]. cbn [RoomPosition.x RoomPosition.y RoomPosition.roomName].
  destruct origin as [ox oy roomName]. unfold onGrid in Hgrid.
  cbn [RoomPosition.x RoomPosition.y RoomPosition.roomName] in *.
  assert (Hback :
    ox + fst (directionOffset direction)
       + fst (directionOffset (oppositeDirection direction)) = ox
    /\ oy + snd (directionOffset direction)
          + snd (directionOffset (oppositeDirection direction)) = oy)
    by (destruct direction; cbn [oppositeDirection directionOffset fst snd]; lia).
  destruct Hback as [-> ->]. rewrite Hgrid. reflexivity.
Qed.

Lemma positionAtDirection_there_and_back_witness :
  onGrid (RoomPosition.mk 0 7 "W1N1")
  /\ positionAtDirection (RoomPosition.mk 0 7 "W1N1") (directionCode BOTTOM_RIGHT)
     = position_at (RoomPosition.mk 1 8 "W1N1")
  /\ positionAtDirection (RoomPosition.mk 1 8 "W1N1")
                         (directionCode (oppositeDirection BOTTOM_RIGHT))
     = position_at (RoomPosition.mk 0 7 "W1N1").
Proof.
  assert (Hgrid : onGrid (RoomPosition.mk 0 7 "W1N1")) by reflexivity.
  assert (Hstep : positionAtDirection (RoomPosition.mk 0 7 "W1N1")
                    (directionCode BOTTOM_RIGHT)
                  = position_at (RoomPosition.mk 1 8 "W1N1")) by reflexivity.
  split; [exact Hgrid | split; [exact Hstep|]].
  exact (positionAtDirection_there_and_back _ _ BOTTOM_RIGHT Hgrid Hstep).
Defined.

(** ** Serialized paths *)

Section SerializedPaths.

Variable getDirectionTo : RoomPosition.t -> RoomPosition.t -> option Z.

Lemma append_assoc (a b c : string) :
  String.append (String.append a b) c = String.append a (String.append b c).
Proof.
  induction a as [|ch a IH]; [reflexivity|].
  change (String ch (String.append (String.append a b) c)
          = String ch (String.append a (String.append b c))).
  rewrite IH. reflexivity.
Qed.

Lemma append_empty_r (a : string) : String.append a EmptyString = a.
Proof.
  induction a as [|ch a IH]; [reflexivity|].
  change (String ch (String.append a EmptyString) = String ch a).
  rewrite IH. reflexivity.
Qed.

Lemma length_append (a b : string) :
  String.length (String.append a b) = (String.length a + String.length b)%nat.
Proof.
  induction a as [|ch a IH]; [reflexivity|].
  change (S (String.length (String.append a b))
          = S (String.length a + String.length b)).
  rewrite IH. reflexivity.
Qed.

Lemma stepCodes_app (steps1 steps2 : list (RoomPosition.t * RoomPosition.t)) :
  stepCodes getDirectionTo (steps1 ++ steps2)
  = String.append (stepCodes getDirectionTo steps1) (stepCodes getDirectionTo steps2).
Proof.
  induction steps1 as [|step rest IH]; [reflexivity|].
  cbn [app stepCodes fold_right]. fold (stepCodes getDirectionTo (rest ++ steps2)).
  fold (stepCodes getDirectionTo rest). rewrite IH, append_assoc. reflexivity.
Qed.

Lemma last_cons_default {A} (a d : A) (l : list A) :
  List.last (a :: l) d = List.last l a.
Proof.
  revert a d. induction l as [|b l IH]; intros a d; [reflexivity|].
  change (List.last (a :: b :: l) d) with (List.last (b :: l) d).
  rewrite (IH b d), (IH b a). reflexivity.
Qed.

Lemma sameRoomSteps_app (lastPosition : RoomPosition.t) (path1 path2 : list RoomPosition.t) :
  sameRoomSteps lastPosition (path1 ++ path2)
  = sameRoomSteps lastPosition path1
    ++ sameRoomSteps (List.last path1 lastPosition) path2.
Proof.
  revert lastPosition. induction path1 as [|position rest IH]; intros lastPosition;
    [reflexivity|].
  cbn [app sameRoomSteps]. rewrite IH, <- app_assoc, last_cons_default.
  reflexivity.
Qed.

(** The loop of [serializePath], started anywhere. *)
Lemma serialize_fold (color : string) (path : list RoomPosition.t)
    (serializedPath : string) (lastPosition : RoomPosition.t) (lines : list VisualLine) :
  fold_left (serializeStep getDirectionTo color) path (serializedPath, lastPosition, lines)
  = (String.append serializedPath
                   (stepCodes getDirectionTo (sameRoomSteps lastPosition path)),
     List.last path lastPosition,
     lines ++ map (stepLine color) (sameRoomSteps lastPosition path)).
Proof.
  revert serializedPath lastPosition lines.
  induction path as [|position rest IH]; intros serializedPath lastPosition lines.
  - cbn [fold_left sameRoomSteps stepCodes fold_right map List.last].
    rewrite append_empty_r, app_nil_r. reflexivity.
  - cbn [fold_left sameRoomSteps]. unfold serializeStep at 2.
    destruct (String.eqb _ _).
    + rewrite IH. cbn [app map stepCodes fold_right fst snd].
      fold (stepCodes getDirectionTo (sameRoomSteps position rest)).
      rewrite append_assoc, <- app_assoc, last_cons_default. reflexivity.
    + rewrite IH, last_cons_default. reflexivity.
Qed.

Lemma serializePath_steps (startPos : RoomPosition.t) (path : list RoomPosition.t)
    (color : string) :
  serializePath getDirectionTo startPos path color
  = (stepCodes getDirectionTo (sameRoomSteps startPos path),
     map (stepLine color) (sameRoomSteps startPos path)).
Proof. unfold serializePath. rewrite serialize_fold. reflexivity. Qed.

Lemma pretty_direction (d : Z) :
  1 <= d <= 9 ->
  exists c, pretty d = String c EmptyString /\ parseIntChar c = Num d.
Proof.
  intros Hd.
  assert (Hcases : d = 1 \/ d = 2 \/ d = 3 \/ d = 4 \/ d = 5 \/ d = 6 \/ d = 7
                   \/ d = 8 \/ d = 9) by lia.
  destruct Hcases as [->|[->|[->|[->|[->|[->|[->|[->| ->]]]]]]]];
    eexists; split; vm_compute; reflexivity.
Qed.

Lemma sameRoomSteps_length (lastPosition : RoomPosition.t) (path : list RoomPosition.t) :
  (length (sameRoomSteps lastPosition path) <= length path)%nat
  /\ ((forall p, In p path ->
         RoomPosition.roomName p = RoomPosition.roomName lastPosition) ->
      length (sameRoomSteps lastPosition path) = length path).
Proof.
  revert lastPosition. induction path as [|position rest IH]; intros lastPosition.
  - split; [apply Nat.le_refl | reflexivity].
  - destruct (IH position) as [Hle Heq]. cbn [sameRoomSteps]. split.
    + rewrite length_app. destruct (String.eqb _ _); cbn [length]; lia.
    + intros Hroom.
      assert (Hhere : RoomPosition.roomName position = RoomPosition.roomName lastPosition)
        by (apply Hroom; left; reflexivity).
      rewrite (proj2 (String.eqb_eq _ _) Hhere). cbn [app length]. f_equal.
      apply Heq. intros p Hp. rewrite Hhere. apply Hroom. right. exact Hp.
Qed.

Lemma stepCodes_length (steps : list (RoomPosition.t * RoomPosition.t)) :
  (forall a b, In (a, b) steps ->
               exists d, getDirectionTo a b = Some d /\ 1 <= d <= 8) ->
  String.length (stepCodes getDirectionTo steps) = length steps.
Proof.
  induction steps as [|[a b] rest IH]; intros Hdigit; [reflexivity|].
  cbn [stepCodes fold_right fst snd]. fold (stepCodes getDirectionTo rest).
  destruct (Hdigit a b (or_introl eq_refl)) as [d [Hd Hrange]].
  rewrite Hd. cbn [directionText].
  destruct (pretty_direction d) as [c [Hc _]]; [lia|].
  rewrite length_append, Hc, IH; [reflexivity|].
  intros a' b' Hin. apply Hdigit. right. exact Hin.
Qed.

(** X5: serializing a path in two pieces gives the same string and the same
    lines as serializing it at once, when the second piece starts from the
    last position of the first (from the start position when the first piece
    is empty). *)
Theorem serializePath_concat (startPos : RoomPosition.t)
    (path1 path2 : list RoomPosition.t) (color : string) :
  serializePath getDirectionTo startPos (path1 ++ path2) color
  = (String.append
       (fst (serializePath getDirectionTo startPos path1 color))
       (fst (serializePath getDirectionTo (List.last path1 startPos) path2 color)),
     snd (serializePath getDirectionTo startPos path1 color)
     ++ snd (serializePath getDirectionTo (List.last path1 startPos) path2 color)).
Proof.
  rewrite !serializePath_steps, sameRoomSteps_app, stepCodes_app, map_app.
  reflexivity.
Qed.

(** X6: when the engine gives a direction 1 to 8 for every step of the path
    that stays in one room, the serialized path has one character per line
    drawn, at most one per position of the path, and exactly one per position
    when the whole path lies in the room of the start position. *)
Theorem serializePath_one_digit_per_step (startPos : RoomPosition.t)
    (path : list RoomPosition.t) (color : string) :
  (forall a b, In (a, b) (sameRoomSteps startPos path) ->
               exists d, getDirectionTo a b = Some d /\ 1 <= d <= 8) ->
  String.length (fst (serializePath getDirectionTo startPos path color))
  = length (snd (serializePath getDirectionTo startPos path color))
  /\ (String.length (fst (serializePath getDirectionTo startPos path color))
      <= length path)%nat
  /\ ((forall p, In p path ->
         RoomPosition.roomName p = RoomPosition.roomName startPos) ->
      String.length (fst (serializePath getDirectionTo startPos path color))
      = length path).
Proof.
  intros Hdigit. rewrite serializePath_steps. cbn [fst snd].
  rewrite length_map, (stepCodes_length _ Hdigit).
  destruct (sameRoomSteps_length startPos path) as [Hle Heq].
  split; [reflexivity | split; [exact Hle | exact Heq]].
Qed.

(** X7: a creep that stores the serialization of a path starting at its own
    position reads the path's first step back: when the first position of the
    path is the neighbour of the creep's position in some direction, in the
    same room, and the engine reports that direction, [nextDirectionInPath] is
    the code of the direction and [nextPositionInPath] is that first position. *)
Theorem nextPositionInPath_reads_serializePath (creep : Zerg)
    (position : RoomPosition.t) (rest : list RoomPosition.t) (color : string)
    (direction : DirectionConstant) :
  RoomPosition.roomName position = RoomPosition.roomName (zerg_pos creep) ->
  RoomPosition.x position
    = RoomPosition.x (zerg_pos creep) + fst (directionOffset direction) ->
  RoomPosition.y position
    = RoomPosition.y (zerg_pos creep) + snd (directionOffset direction) ->
  onGrid position ->
  getDirectionTo (zerg_pos creep) position = Some (directionCode direction) ->
  memory_go creep
    = Some (mkMoveData
              (Some (fst (serializePath getDirectionTo (zerg_pos creep)
                                        (position :: rest) color)))) ->
  nextDirectionInPath creep = Some (Num (directionCode direction))
  /\ nextPositionInPath creep = position_at position.
Proof.
  intros Hroom Hx Hy Hgrid Hdir Hmemory.
  assert (Hnext : nextDirectionInPath creep = Some (Num (directionCode direction))).
  { unfold nextDirectionInPath. rewrite Hmemory. cbn [md_path].
    rewrite serializePath_steps. cbn [fst sameRoomSteps].
    rewrite (proj2 (String.eqb_eq _ _) Hroom).
    cbn [app stepCodes fold_right fst snd]. rewrite Hdir. cbn [directionText].
    destruct (pretty_direction (directionCode direction)) as [c [Hc Hparse]];
      [destruct direction; cbn [directionCode]; lia|].
    rewrite Hc.
    match goal with
    | |- context [String.append (String c EmptyString) ?tail] =>
        change (String.append (String c EmptyString) tail) with (String c tail)
    end.
    cbv beta iota. rewrite Hparse. reflexivity. }
  split; [exact Hnext|].
  unfold nextPositionInPath. rewrite Hnext.
  replace (directionCode direction =? 0) with false
    by (destruct direction; reflexivity).
  rewrite positionAtDirection_code. cbv zeta. rewrite <- Hx, <- Hy, <- Hroom.
  unfold onGrid in Hgrid. rewrite Hgrid. destruct position; reflexivity.
Qed.

End SerializedPaths.

Lemma serializePath_one_digit_per_step_witness :
  (forall a b,
     In (a, b) (sameRoomSteps (RoomPosition.mk 47 5 "W1N1") MoreSamples.crossing) ->
     exists d, MoreSamples.compassTo a b = Some d /\ 1 <= d <= 8)
  /\ String.length (fst (serializePath MoreSamples.compassTo
                           (RoomPosition.mk 47 5 "W1N1") MoreSamples.crossing "orange"))
     = length (snd (serializePath MoreSamples.compassTo
                      (RoomPosition.mk 47 5 "W1N1") MoreSamples.crossing "orange")).
Proof.
  assert (Hdigit : forall a b,
     In (a, b) (sameRoomSteps (RoomPosition.mk 47 5 "W1N1") MoreSamples.crossing) ->
     exists d, MoreSamples.compassTo a b = Some d /\ 1 <= d <= 8).
  { intros a b Hin. vm_compute in Hin.
    destruct Hin as [[= <- <-]|[[= <- <-]|[[= <- <-]|[]]]];
      eexists; (split; [vm_compute; reflexivity | lia]). }
  split; [exact Hdigit|].
  exact (proj1 (serializePath_one_digit_per_step MoreSamples.compassTo
                  (RoomPosition.mk 47 5 "W1N1") MoreSamples.crossing "orange" Hdigit)).
Defined.

Lemma nextPositionInPath_reads_serializePath_witness :
  fst (serializePath MoreSamples.compassTo (RoomPosition.mk 47 5 "W1N1")
                     MoreSamples.crossing "orange") = "343"%string
  /\ nextDirectionInPath (MoreSamples.walker "343") = Some (Num (directionCode RIGHT))
  /\ nextPositionInPath (MoreSamples.walker "343")
     = position_at (RoomPosition.mk 48 5 "W1N1").
Proof.
  split; [reflexivity|].
  exact (nextPositionInPath_reads_serializePath MoreSamples.compassTo
           (MoreSamples.walker "343") (RoomPosition.mk 48 5 "W1N1")
           (tl MoreSamples.crossing) "orange" RIGHT
           eq_refl eq_refl eq_refl eq_refl eq_refl eq_refl).
Defined.

(** ** Reading a stored path *)

Import Stdlib.Strings.Ascii.

Lemma parseIntChar_digit (c : Ascii.ascii) (n : Z) :
  parseIntChar c = Num n ->
  0 <= n <= 9 /\ c = Ascii.ascii_of_nat (Z.to_nat (n + 48)).
Proof.
  unfold parseIntChar. cbv zeta.
  destruct (Z.leb_spec 48 (Z.of_nat (Ascii.nat_of_ascii c))); [|discriminate].
  destruct (Z.leb_spec (Z.of_nat (Ascii.nat_of_ascii c)) 57); [|discriminate].
  cbn [andb]. intros [= <-]. split; [lia|].
  replace (Z.of_nat (Ascii.nat_of_ascii c) - 48 + 48)
    with (Z.of_nat (Ascii.nat_of_ascii c)) by lia.
  rewrite Nat2Z.id, Ascii.ascii_nat_embedding. reflexivity.
Qed.

Lemma nextDirectionInPath_digit (creep : Zerg) (n : Z) :
  nextDirectionInPath creep = Some (Num n) ->
  0 <= n <= 9
  /\ exists moveData rest,
       memory_go creep = Some moveData
       /\ md_path moveData
          = Some (String (Ascii.ascii_of_nat (Z.to_nat (n + 48))) rest).
Proof.
  unfold nextDirectionInPath.
  destruct (memory_go creep) as [moveData|]; [|discriminate].
  destruct (md_path moveData) as [[|first rest]|] eqn:Hpath; try discriminate.
  intros [= Hparse]. apply parseIntChar_digit in Hparse as [Hrange ->].
  split; [exact Hrange|]. exists moveData, rest. split; [reflexivity | exact Hpath].
Qed.

Lemma code_cases (n : Z) :
  1 <= n <= 9 -> n = 9 \/ exists direction, n = directionCode direction.
Proof.
  intros Hn.
  assert (Hcases : n = 1 \/ n = 2 \/ n = 3 \/ n = 4 \/ n = 5 \/ n = 6 \/ n = 7
                   \/ n = 8 \/ n = 9) by lia.
  destruct Hcases as [->|[->|[->|[->|[->|[->|[->|[->| ->]]]]]]]];
    [right; exists TOP | right; exists TOP_RIGHT | right; exists RIGHT
     | right; exists BOTTOM_RIGHT | right; exists BOTTOM | right; exists BOTTOM_LEFT
     | right; exists LEFT | right; exists TOP_LEFT | left]; reflexivity.
Qed.

(** X8: whatever a creep has stored as its path, a position returned by
    [nextPositionInPath] is a tile of the grid in the creep's room at range 1
    from the creep. *)
Theorem nextPositionInPath_adjacent (creep : Zerg) (p : RoomPosition.t) :
  nextPositionInPath creep = position_at p ->
  RoomPosition.roomName p = RoomPosition.roomName (zerg_pos creep)
  /\ onGrid p /\ rangeBetween p (zerg_pos creep) = 1.
Proof.
  unfold nextPositionInPath.
  destruct (nextDirectionInPath creep) as [[|n]|] eqn:Hnext; try discriminate.
  destruct (Z.eqb_spec n 0) as [|Hnonzero]; [discriminate|].
  apply nextDirectionInPath_digit in Hnext as [Hrange _].
  destruct (code_cases n) as [->|[direction ->]]; [lia|discriminate|].
  rewrite positionAtDirection_code. cbv zeta.
  destruct (CostMatrix.in_grid _ _) eqn:Hgrid; [|discriminate].
  intros [= <-]. unfold onGrid, rangeBetween.
  cbn [RoomPosition.x RoomPosition.y RoomPosition.roomName].
  split; [reflexivity | split; [exact Hgrid|]].
  destruct direction; cbn [directionOffset fst snd]; lia.
Qed.

Lemma nextPositionInPath_adjacent_witness :
  nextPositionInPath (MoreSamples.walker "343")
    = position_at (RoomPosition.mk 48 5 "W1N1")
  /\ onGrid (RoomPosition.mk 48 5 "W1N1")
  /\ rangeBetween (RoomPosition.mk 48 5 "W1N1")
                  (zerg_pos (MoreSamples.walker "343")) = 1.
Proof.
  assert (Hnext : nextPositionInPath (MoreSamples.walker "343")
                  = position_at (RoomPosition.mk 48 5 "W1N1")) by reflexivity.
  split; [exact Hnext|].
  exact (proj2 (nextPositionInPath_adjacent _ _ Hnext)).
Defined.

(** X9: [nextPositionInPath] throws, in the position constructor, exactly
    when the stored path starts with the digit 9; on every other stored
    path it returns a tile or undefined. *)
Theorem nextPositionInPath_throws (creep : Zerg) :
  nextPositionInPath creep = constructor_throws
  <-> exists moveData rest,
        memory_go creep = Some moveData
        /\ md_path moveData = Some (String "9"%char rest).
Proof.
  split.
  - unfold nextPositionInPath.
    destruct (nextDirectionInPath creep) as [[|n]|] eqn:Hnext; try discriminate.
    destruct (Z.eqb_spec n 0) as [|Hnonzero]; [discriminate|].
    apply nextDirectionInPath_digit in Hnext as [Hrange Hpath].
    destruct (code_cases n) as [->|[direction ->]]; [lia| |].
    + intros _. exact Hpath.
    + rewrite positionAtDirection_code. cbv zeta.
      destruct (CostMatrix.in_grid _ _); discriminate.
  - intros [moveData [rest [Hmemory Hpath]]].
    unfold nextPositionInPath, nextDirectionInPath. rewrite Hmemory, Hpath.
    reflexivity.
Qed.

(** ** Painting tiles of a matrix *)

Section Painting.

Import CostMatrix CostMatrixFacts.

(** What a computation that rewrites one matrix leaves alone. *)
Lemma updates_frame (r : MatrixRef) (F : CostMatrix.t -> CostMatrix.t)
    (c : ST Store unit) (s : Store) :
  updates r F c -> (r < length (heap s))%nat ->
  deref (snd (c s)) r = F (deref s r)
  /\ (forall r', r' <> r -> deref (snd (c s)) r' = deref s r')
  /\ roomCache (snd (c s)) = roomCache s
  /\ length (heap (snd (c s))) = length (heap s).
Proof.
  intros Hc Hr. rewrite (Hc s Hr). cbn [snd]. split; [|split; [|split]].
  - apply deref_insert. exact Hr.
  - intros r' Hne. unfold deref. cbn [heap].
    rewrite list_lookup_insert_ne by congruence. reflexivity.
  - reflexivity.
  - cbn [heap]. apply length_insert.
Qed.

Lemma existsb_fromTo (lo hi k : Z) :
  existsb (Z.eqb k) (fromTo lo hi) = (lo <=? k) && (k <=? hi).
Proof.
  apply eq_true_iff_eq. rewrite existsb_exists, andb_true_iff, !Z.leb_le. split.
  - intros [k' [Hin Heq]]. apply Z.eqb_eq in Heq as <-. apply In_fromTo in Hin. lia.
  - intros Hk. exists k. split; [apply In_fromTo; lia | apply Z.eqb_refl].
Qed.

(** Two nested loops that write one value on every tile of a rectangle. *)
Lemma rectangle_get (xs ys : list Z) (v : Z) (m : CostMatrix.t) (x y : Z) :
  length (_bits m) = 2500%nat ->
  length (_bits (fold_left (fun m x' => fold_left (fun m y' => set m x' y' v) ys m) xs m))
  = 2500%nat
  /\ get (fold_left (fun m x' => fold_left (fun m y' => set m x' y' v) ys m) xs m) x y
     = if in_grid x y && existsb (Z.eqb x) xs && existsb (Z.eqb y) ys
       then clamp v else get m x y.
Proof.
  intros Hlen.
  assert (Hflat :
    fold_left (fun m x' => fold_left (fun m y' => set m x' y' v) ys m) xs m
    = fold_left (fun m c => if (fun _ : Z * Z => true) c
                            then set m (fst c) (snd c) v else m)
                (flat_map (fun x' => map (pair x') ys) xs) m).
  { rewrite fold_left_flat_map. apply fold_left_ext. intros m' x'.
    rewrite fold_left_map. reflexivity. }
  rewrite Hflat.
  split; [rewrite (fold_set_length _ (fun _ => true) fst snd); exact Hlen|].
  rewrite (fold_set_get _ (fun _ => true) fst snd) by exact Hlen.
  rewrite <- andb_assoc.
  replace (existsb (Z.eqb x) xs && existsb (Z.eqb y) ys)
    with (existsb (fun a : Z * Z => true && (fst a =? x) && (snd a =? y))
                  (flat_map (fun x' => map (pair x') ys) xs)); [reflexivity|].
  apply eq_true_iff_eq. rewrite existsb_exists, andb_true_iff, !existsb_exists. split.
  - intros [[x' y'] [Hin Heq]]. cbn [fst snd andb] in Heq.
    apply andb_true_iff in Heq as [Hx Hy].
    apply Z.eqb_eq in Hx as ->. apply Z.eqb_eq in Hy as ->.
    apply in_flat_map in Hin as [x'' [Hx Hin]].
    apply in_map_iff in Hin as [y'' [[= <- <-] Hy]].
    split; eexists; (split; [eassumption | apply Z.eqb_refl]).
  - intros [[x' [Hx Hxeq]] [y' [Hy Hyeq]]].
    apply Z.eqb_eq in Hxeq as <-. apply Z.eqb_eq in Hyeq as <-.
    exists (x, y). split.
    + apply in_flat_map. exists x. split; [exact Hx|].
      apply in_map_iff. exists y. split; [reflexivity | exact Hy].
    + cbn [fst snd andb]. rewrite !Z.eqb_refl. reflexivity.
Qed.

Lemma stepped_done (fuel : nat) (x bound step : Z) :
  bound <= x ->
  stepped fuel x bound step = [] /\ unfinished fuel x bound step = false.
Proof.
  intros Hx. destruct fuel; cbn [stepped unfinished];
    destruct (Z.ltb_spec x bound); try lia; split; reflexivity.
Qed.

(** The edge loops of [blockExits] take two steps, or none. *)
Lemma stepped_edges (fuel : nat) (rangeToEdge : Z) :
  (2 <= fuel)%nat ->
  stepped fuel rangeToEdge (50 - rangeToEdge) (49 - rangeToEdge * 2)
  = (if rangeToEdge <=? 24 then [rangeToEdge; 49 - rangeToEdge] else [])
  /\ unfinished fuel rangeToEdge (50 - rangeToEdge) (49 - rangeToEdge * 2) = false.
Proof.
  intros Hfuel. destruct fuel as [|[|fuel]]; try lia.
  cbn [stepped unfinished].
  destruct (Z.leb_spec rangeToEdge 24);
    destruct (Z.ltb_spec rangeToEdge (50 - rangeToEdge)); try lia;
    [|split; reflexivity].
  destruct (Z.ltb_spec (rangeToEdge + (49 - rangeToEdge * 2)) (50 - rangeToEdge));
    try lia.
  destruct (stepped_done fuel
              (rangeToEdge + (49 - rangeToEdge * 2) + (49 - rangeToEdge * 2))
              (50 - rangeToEdge) (49 - rangeToEdge * 2)) as [-> ->]; [lia|].
  split; [f_equal; f_equal; lia | reflexivity].
Qed.

Lemma blockExits_updates (fuel : nat) (matrix : MatrixRef) (rangeToEdge : Z) :
  updates matrix
    (fun m =>
       fold_left (fun m x =>
                    fold_left (fun m y => set m x y 255)
                      (stepped fuel rangeToEdge (50 - rangeToEdge) (49 - rangeToEdge * 2))
                      m)
         (fromTo rangeToEdge (49 - rangeToEdge))
         (fold_left (fun m x =>
                       fold_left (fun m y => set m x y 255)
                                 (fromTo rangeToEdge (49 - rangeToEdge)) m)
            (stepped fuel rangeToEdge (50 - rangeToEdge) (49 - rangeToEdge * 2)) m))
    (blockExits fuel matrix rangeToEdge).
Proof.
  unfold blockExits.
  apply (updates_bind matrix
           (fun m => fold_left (fun m x =>
                        fold_left (fun m y => set m x y 255)
                                  (fromTo rangeToEdge (49 - rangeToEdge)) m)
                      (stepped fuel rangeToEdge (50 - rangeToEdge)
                               (49 - rangeToEdge * 2)) m)
           (fun m => fold_left (fun m x =>
                        fold_left (fun m y => set m x y 255)
                          (stepped fuel rangeToEdge (50 - rangeToEdge)
                                   (49 - rangeToEdge * 2)) m)
                      (fromTo rangeToEdge (49 - rangeToEdge)) m)).
  - apply (updates_forEach matrix
             (fun x m => fold_left (fun m y => set m x y 255)
                                   (fromTo rangeToEdge (49 - rangeToEdge)) m)).
    intros x. apply (updates_forEach matrix (fun y m => set m x y 255)).
    intros y. apply updates_mset.
  - apply (updates_forEach matrix
             (fun x m => fold_left (fun m y => set m x y 255)
                           (stepped fuel rangeToEdge (50 - rangeToEdge)
                                    (49 - rangeToEdge * 2)) m)).
    intros x. apply (updates_forEach matrix (fun y m => set m x y 255)).
    intros y. apply updates_mset.
Qed.

End Painting.

(** X10: [blockExits] on a matrix of the heap, with enough fuel for two
    steps of the edge loops: the loops end by themselves; every tile of the
    grid on the square ring at distance [rangeToEdge] from the edge costs 255
    afterwards and every other tile keeps its cost, so that nothing changes
    when [rangeToEdge] is 25 or more; no other matrix and no cache slot is
    touched. *)
Theorem blockExits_cells (fuel : nat) (matrix : MatrixRef) (rangeToEdge : Z) (s : Store) :
  (2 <= fuel)%nat ->
  (matrix < length (heap s))%nat ->
  CostMatrix.wf (deref s matrix) ->
  let s' := snd (blockExits fuel matrix rangeToEdge s) in
  unfinished fuel rangeToEdge (50 - rangeToEdge) (49 - rangeToEdge * 2) = false
  /\ (forall x y,
        CostMatrix.get (deref s' matrix) x y
        = if CostMatrix.in_grid x y && onRing rangeToEdge x y then 255
          else CostMatrix.get (deref s matrix) x y)
  /\ (25 <= rangeToEdge ->
      forall x y, CostMatrix.get (deref s' matrix) x y
                  = CostMatrix.get (deref s matrix) x y)
  /\ (forall r, r <> matrix -> deref s' r = deref s r)
  /\ roomCache s' = roomCache s.
Proof.
  intros Hfuel Hmatrix [Hlen _]. cbv zeta.
  destruct (stepped_edges fuel rangeToEdge Hfuel) as [Hsteps Hdone].
  destruct (updates_frame matrix _ _ s (blockExits_updates fuel matrix rangeToEdge)
                          Hmatrix) as [Hcells [Hothers [Hcache _]]].
  assert (Hget : forall x y,
    CostMatrix.get (deref (snd (blockExits fuel matrix rangeToEdge s)) matrix) x y
    = if CostMatrix.in_grid x y && onRing rangeToEdge x y then 255
      else CostMatrix.get (deref s matrix) x y).
  { intros x y. rewrite Hcells.
    destruct (rectangle_get
                (stepped fuel rangeToEdge (50 - rangeToEdge) (49 - rangeToEdge * 2))
                (fromTo rangeToEdge (49 - rangeToEdge)) 255 (deref s matrix) x y Hlen)
      as [Hlen1 Hget1].
    rewrite (proj2 (rectangle_get _ _ 255 _ x y Hlen1)), Hget1.
    rewrite !existsb_fromTo, Hsteps. unfold onRing.
    change (CostMatrix.clamp 255) with 255.
    destruct (CostMatrix.in_grid x y); cbn [andb]; [|reflexivity].
    destruct (Z.leb_spec rangeToEdge 24); cbn [existsb];
      repeat match goal with
             | |- context [?a <=? ?b] => destruct (Z.leb_spec a b)
             | |- context [?a =? ?b] => destruct (Z.eqb_spec a b)
             end; cbn [andb orb]; try reflexivity; lia. }
  split; [exact Hdone | split; [exact Hget | split; [|split]]].
  - intros Hwide x y. rewrite Hget.
    replace (onRing rangeToEdge x y) with false; [rewrite andb_false_r; reflexivity|].
    unfold onRing.
    destruct (Z.leb_spec rangeToEdge x); [|reflexivity].
    destruct (Z.leb_spec x (49 - rangeToEdge)); [lia | reflexivity].
  - exact Hothers.
  - exact Hcache.
Qed.

Lemma blockExits_cells_witness :
  (2 <= 2)%nat
  /\ (0 < length (heap (mkStore [CostMatrix.new] ∅)))%nat
  /\ CostMatrix.get
       (deref (snd (blockExits 2 0%nat 1 (mkStore [CostMatrix.new] ∅))) 0%nat) 1 30
     = 255.
Proof.
  assert (Hfuel : (2 <= 2)%nat) by lia.
  assert (Hmatrix : (0 < length (heap (mkStore [CostMatrix.new] ∅)))%nat)
    by (cbn [heap length]; lia).
  split; [exact Hfuel | split; [exact Hmatrix|]].
  exact (proj1 (proj2 (blockExits_cells 2 0%nat 1 (mkStore [CostMatrix.new] ∅)
                         Hfuel Hmatrix CostMatrixFacts.wf_new)) 1 30).
Defined.

(** ** Costs in range of a position *)

Section CostsInRange.

Import CostMatrix CostMatrixFacts.

Variable W : World.

Lemma pointStep_length (upd : Z -> Z -> Z -> option Z) (cells : list (Z * Z))
    (m : CostMatrix.t) :
  length (_bits (fold_left (pointStep upd) cells m)) = length (_bits m).
Proof.
  revert m. induction cells as [|c rest IH]; intros m; cbn [fold_left]; [reflexivity|].
  rewrite IH. unfold pointStep. destruct (upd _ _ _); [apply length_set | reflexivity].
Qed.

Lemma pointStep_wf (upd : Z -> Z -> Z -> option Z) (cells : list (Z * Z))
    (m : CostMatrix.t) :
  wf m -> wf (fold_left (pointStep upd) cells m).
Proof.
  revert m. induction cells as [|c rest IH]; intros m Hwf; cbn [fold_left]; [exact Hwf|].
  apply IH. unfold pointStep. destruct (upd _ _ _); [apply wf_set|]; exact Hwf.
Qed.

(** A loop that visits every tile at most once and rewrites it from its own
    cost: each visited tile is rewritten from the cost it had before the
    loop. *)
Lemma pointStep_get (upd : Z -> Z -> Z -> option Z) (cells : list (Z * Z))
    (m : CostMatrix.t) (x y : Z) :
  NoDup cells -> length (_bits m) = 2500%nat ->
  get (fold_left (pointStep upd) cells m) x y
  = if in_grid x y && existsb (fun c => (fst c =? x) && (snd c =? y)) cells
    then match upd x y (get m x y) with
         | Some v => clamp v
         | None => get m x y
         end
    else get m x y.
Proof.
  revert m. induction cells as [|[cx cy] rest IH]; intros m Hnd Hlen;
    cbn [fold_left existsb fst snd].
  - rewrite andb_false_r. reflexivity.
  - apply NoDup_cons in Hnd as [Hfresh Hnd].
    rewrite IH; [|exact Hnd|].
    2:{ unfold pointStep. destruct (upd _ _ _); [rewrite length_set|]; exact Hlen. }
    destruct (in_grid x y) eqn:Hgrid; cbn [andb].
    2:{ unfold pointStep. cbn [fst snd].
        destruct (upd cx cy _); [|reflexivity].
        rewrite !get_outside by exact Hgrid. reflexivity. }
    destruct (Z.eqb_spec cx x) as [->|Hx]; cbn [andb orb].
    + destruct (Z.eqb_spec cy y) as [->|Hy]; cbn [orb].
      * assert (Hrest : existsb (fun c => (fst c =? x) && (snd c =? y)) rest = false).
        { apply not_true_is_false. intros Hin. apply existsb_exists in Hin
            as [[x' y'] [Hin Heq]]. cbn [fst snd] in Heq.
          apply andb_true_iff in Heq as [Hx' Hy'].
          apply Z.eqb_eq in Hx' as ->. apply Z.eqb_eq in Hy' as ->.
          apply Hfresh, list_elem_of_In, Hin. }
        rewrite Hrest. unfold pointStep. cbn [fst snd].
        destruct (upd x y (get m x y)); [|reflexivity].
        apply get_set_same; assumption.
      * assert (Hsame : get (pointStep upd m (x, cy)) x y = get m x y).
        { unfold pointStep. cbn [fst snd]. destruct (upd _ _ _); [|reflexivity].
          apply get_set_other. congruence. }
        rewrite Hsame. reflexivity.
    + assert (Hsame : get (pointStep upd m (cx, cy)) x y = get m x y).
      { unfold pointStep. cbn [fst snd]. destruct (upd _ _ _); [|reflexivity].
        apply get_set_other. congruence. }
      rewrite Hsame. reflexivity.
Qed.

Lemma NoDup_fromTo (lo hi : Z) : NoDup (fromTo lo hi).
Proof.
  unfold fromTo.
  change (NoDup ((fun k => lo + Z.of_nat k) <$> seq 0 (Z.to_nat (hi - lo + 1)))).
  apply NoDup_fmap_2; [|apply NoDup_seq].
  intros a b Hab. lia.
Qed.

Lemma NoDup_offsetCells (cx cy : Z) (dxs dys : list Z) :
  NoDup dxs -> NoDup dys ->
  NoDup (flat_map (fun dx => map (fun dy => (cx + dx, cy + dy)) dys) dxs).
Proof.
  intros Hdxs Hdys. induction dxs as [|dx rest IH]; cbn [flat_map]; [constructor|].
  apply NoDup_cons in Hdxs as [Hfresh Hnd].
  apply NoDup_app. split; [|split].
  - change (NoDup ((fun dy => (cx + dx, cy + dy)) <$> dys)).
    apply NoDup_fmap_2; [|exact Hdys].
    intros a b [= Hab]. lia.
  - intros [x y] Hin Hin'. apply list_elem_of_In in Hin, Hin'.
    apply in_map_iff in Hin as [dy [[= <- <-] _]].
    apply in_flat_map in Hin' as [dx' [Hdx' Hin']].
    apply in_map_iff in Hin' as [dy' [[= Hx Hy] _]].
    assert (dx' = dx) by lia. subst dx'.
    apply Hfresh, list_elem_of_In, Hdx'.
  - apply IH, Hnd.
Qed.

Lemma NoDup_rangeCells (centre : RoomPosition.t) (range : Z) :
  NoDup (rangeCells centre range).
Proof. apply NoDup_offsetCells; apply NoDup_fromTo. Qed.

Lemma existsb_rangeCells (centre : RoomPosition.t) (range x y : Z) :
  existsb (fun c => (fst c =? x) && (snd c =? y)) (rangeCells centre range)
  = inRangeOf centre range x y.
Proof.
  apply eq_true_iff_eq. unfold inRangeOf, rangeCells.
  rewrite existsb_exists, andb_true_iff, !Z.leb_le. split.
  - intros [[x' y'] [Hin Heq]]. cbn [fst snd] in Heq.
    apply andb_true_iff in Heq as [Hx Hy].
    apply Z.eqb_eq in Hx as ->. apply Z.eqb_eq in Hy as ->.
    apply in_flat_map in Hin as [dx [Hdx Hin]].
    apply in_map_iff in Hin as [dy [[= <- <-] Hdy]].
    apply In_fromTo in Hdx, Hdy. lia.
  - intros Hrange. exists (x, y). split.
    + apply in_flat_map. exists (x - RoomPosition.x centre).
      split; [apply In_fromTo; lia|].
      apply in_map_iff. exists (y - RoomPosition.y centre).
      split; [f_equal; lia | apply In_fromTo; lia].
    + cbn [fst snd]. rewrite !Z.eqb_refl. reflexivity.
Qed.

Lemma pointStep_outside (roomName : string) (cost : Z) (add : bool)
    (cells : list (Z * Z)) (m : CostMatrix.t) :
  (forall c, In c cells -> in_grid (fst c) (snd c) = false) ->
  fold_left (pointStep (writeInRange W roomName cost add)) cells m = m.
Proof.
  revert m. induction cells as [|c rest IH]; intros m Hout; cbn [fold_left];
    [reflexivity|].
  unfold pointStep at 2, writeInRange. rewrite (Hout c (or_introl eq_refl)).
  apply IH. intros c' Hin. apply Hout. right. exact Hin.
Qed.

(** The body of the inner loop of [setCostsInRange]. *)
Lemma setCostsInRange_tile (matrix : MatrixRef) (roomName : string) (cost : Z)
    (add : bool) (x y : Z) :
  (x <? 0) || (49 <? x) = false ->
  updates matrix (fun m => pointStep (writeInRange W roomName cost add) m (x, y))
    (if (y <? 0) || (49 <? y) then pure tt
     else
       let terrain := getTerrainAt W x y roomName in
       match terrain with
       | wall => pure tt
       | _ =>
           do currentCost <- mget matrix x y;
           let currentCost :=
             if currentCost =? 0
             then match terrain with
                  | plain => currentCost + 2
                  | _ => currentCost + 10
                  end
             else currentCost in
           if (255 <=? currentCost) || (cost <? currentCost) then pure tt
           else mset matrix x y
                     (if add then Z.min (cost + currentCost) 200 else cost)
       end).
Proof.
  intros Hx s Hr. unfold pointStep, writeInRange. cbn [fst snd].
  assert (Hgrid : in_grid x y = negb ((y <? 0) || (49 <? y))).
  { apply orb_false_iff in Hx as [Hx0 Hx49].
    apply Z.ltb_ge in Hx0, Hx49. unfold in_grid.
    destruct (Z.leb_spec 0 x); [|lia]. destruct (Z.leb_spec x 49); [|lia].
    destruct (Z.ltb_spec y 0); destruct (Z.leb_spec 0 y); try lia;
      destruct (Z.ltb_spec 49 y); destruct (Z.leb_spec y 49); try lia; reflexivity. }
  rewrite Hgrid. destruct ((y <? 0) || (49 <? y)); cbn [negb];
    [exact (updates_pure matrix s Hr)|].
  cbv zeta. unfold rangeCost, effectiveCost.
  destruct (getTerrainAt W x y roomName); try exact (updates_pure matrix s Hr);
    unfold bind, mget, gets; cbv zeta;
    match goal with
    | |- context [(255 <=? ?c) || (cost <? ?c)] =>
        destruct ((255 <=? c) || (cost <? c))
    end; (exact (updates_pure matrix s Hr) || reflexivity).
Qed.

Lemma setCostsInRange_updates (matrix : MatrixRef) (pos : Obstacle) (range cost : Z)
    (add : bool) :
  updates matrix
    (fun m =>
       fold_left (pointStep (writeInRange W (RoomPosition.roomName (normalizePos pos))
                                          cost add))
                 (rangeCells (normalizePos pos) range) m)
    (setCostsInRange W matrix pos range cost add).
Proof.
  unfold setCostsInRange, rangeCells. cbv zeta.
  eapply updates_ext; cycle 1.
  - apply (updates_forEach matrix
             (fun dx m =>
                fold_left (pointStep (writeInRange W
                                        (RoomPosition.roomName (normalizePos pos))
                                        cost add))
                          (map (fun dy => (RoomPosition.x (normalizePos pos) + dx,
                                           RoomPosition.y (normalizePos pos) + dy))
                               (fromTo (- range) range)) m)).
    intros dx.
    destruct ((RoomPosition.x (normalizePos pos) + dx <? 0)
              || (49 <? RoomPosition.x (normalizePos pos) + dx)) eqn:Hx.
    + eapply updates_ext; [|apply updates_pure].
      intros m. symmetry. apply pointStep_outside.
      intros c Hin. apply in_map_iff in Hin as [dy [<- _]]. cbn [fst snd].
      unfold in_grid. apply orb_true_iff in Hx as [Hx|Hx];
        [apply Z.ltb_lt in Hx; destruct (Z.leb_spec 0 (RoomPosition.x (normalizePos pos) + dx));
         [lia | reflexivity]
        |apply Z.ltb_lt in Hx; destruct (Z.leb_spec (RoomPosition.x (normalizePos pos) + dx) 49);
         [lia | rewrite andb_false_r; reflexivity]].
    + eapply updates_ext; cycle 1.
      * apply (updates_forEach matrix
                 (fun dy m =>
                    pointStep (writeInRange W (RoomPosition.roomName (normalizePos pos))
                                            cost add) m
                      (RoomPosition.x (normalizePos pos) + dx,
                       RoomPosition.y (normalizePos pos) + dy))).
        intros dy. apply setCostsInRange_tile. exact Hx.
      * intros m. cbv beta. rewrite fold_left_map. reflexivity.
  - intros m. cbv beta. rewrite fold_left_flat_map. reflexivity.
Qed.

(** The cost of a tile after [setCostsInRange]. *)
Lemma setCostsInRange_get (matrix : MatrixRef) (pos : Obstacle) (range cost : Z)
    (add : bool) (s : Store) (x y : Z) :
  (matrix < length (heap s))%nat ->
  wf (deref s matrix) ->
  get (deref (snd (setCostsInRange W matrix pos range cost add s)) matrix) x y
  = if in_grid x y && inRangeOf (normalizePos pos) range x y
    then match rangeCost (getTerrainAt W x y (RoomPosition.roomName (normalizePos pos)))
                         cost add (get (deref s matrix) x y) with
         | Some v => clamp v
         | None => get (deref s matrix) x y
         end
    else get (deref s matrix) x y.
Proof.
  intros Hmatrix [Hlen _].
  destruct (updates_frame matrix _ _ s
              (setCostsInRange_updates matrix pos range cost add) Hmatrix)
    as [-> _].
  rewrite pointStep_get by (exact Hlen || apply NoDup_rangeCells).
  rewrite existsb_rangeCells. unfold writeInRange.
  destruct (in_grid x y); reflexivity.
Qed.

End CostsInRange.

(** X11: the cost of every tile after [setCostsInRange] on a matrix of the
    heap.  A tile of the grid within [range] of the position in both
    coordinates that is not a wall, whose cost (an unset tile counting 2 on
    plain and 10 on swamp) is below 255 and at most [cost], gets [cost], or
    with [add] the sum of the two capped at 200; every other tile keeps its
    cost.  The matrix stays a grid of bytes, and no other matrix and no cache
    slot is touched. *)
Theorem setCostsInRange_cells (W : World) (matrix : MatrixRef) (pos : Obstacle)
    (range cost : Z) (add : bool) (s : Store) :
  (matrix < length (heap s))%nat ->
  CostMatrix.wf (deref s matrix) ->
  let s' := snd (setCostsInRange W matrix pos range cost add s) in
  let centre := normalizePos pos in
  (forall x y,
     CostMatrix.get (deref s' matrix) x y
     = if CostMatrix.in_grid x y && inRangeOf centre range x y
       then match rangeCost (getTerrainAt W x y (RoomPosition.roomName centre))
                            cost add (CostMatrix.get (deref s matrix) x y) with
            | Some v => CostMatrix.clamp v
            | None => CostMatrix.get (deref s matrix) x y
            end
       else CostMatrix.get (deref s matrix) x y)
  /\ CostMatrix.wf (deref s' matrix)
  /\ (forall r, r <> matrix -> deref s' r = deref s r)
  /\ roomCache s' = roomCache s.
Proof.
  intros Hmatrix Hwf. cbv zeta. split.
  - intros x y. apply setCostsInRange_get; assumption.
  - destruct (updates_frame matrix _ _ s
                (setCostsInRange_updates W matrix pos range cost add) Hmatrix)
      as [Hcells [Hothers [Hcache _]]].
    split; [|split; assumption].
    rewrite Hcells. apply pointStep_wf. exact Hwf.
Qed.

Lemma setCostsInRange_cells_witness :
  (0 < length (heap (mkStore [CostMatrix.new] ∅)))%nat
  /\ CostMatrix.get
       (deref (snd (setCostsInRange (Samples.twoWallsWorld Samples.bareRoom) 0%nat
                      (IsPos (RoomPosition.mk 12 12 "W1N1")) 1 30 false
                      (mkStore [CostMatrix.new] ∅))) 0%nat) 12 13
     = 30
  /\ CostMatrix.get
       (deref (snd (setCostsInRange (Samples.twoWallsWorld Samples.bareRoom) 0%nat
                      (IsPos (RoomPosition.mk 12 12 "W1N1")) 1 30 false
                      (mkStore [CostMatrix.new] ∅))) 0%nat) 11 11
     = 0.
Proof.
  assert (Hmatrix : (0 < length (heap (mkStore [CostMatrix.new] ∅)))%nat)
    by (cbn [heap length]; lia).
  split; [exact Hmatrix|].
  pose proof (proj1 (setCostsInRange_cells (Samples.twoWallsWorld Samples.bareRoom) 0%nat
                       (IsPos (RoomPosition.mk 12 12 "W1N1")) 1 30 false
                       (mkStore [CostMatrix.new] ∅) Hmatrix CostMatrixFacts.wf_new))
    as Hcells.
  split; [exact (Hcells 12 13) | exact (Hcells 11 11)].
Defined.

(** X12: what [setCostsInRange] respects.  A wall tile and a tile that costs
    255 keep their cost; without [add] no cost is lowered; with [add] no cost
    of 200 or less is lowered, and a cost that changes is at most 200
    afterwards. *)
Theorem setCostsInRange_respects (W : World) (matrix : MatrixRef) (pos : Obstacle)
    (range cost : Z) (add : bool) (s : Store) (x y : Z) :
  (matrix < length (heap s))%nat ->
  CostMatrix.wf (deref s matrix) ->
  let before := CostMatrix.get (deref s matrix) x y in
  let after :=
    CostMatrix.get (deref (snd (setCostsInRange W matrix pos range cost add s)) matrix)
                   x y in
  (getTerrainAt W x y (RoomPosition.roomName (normalizePos pos)) = wall ->
   after = before)
  /\ (before = 255 -> after = 255)
  /\ (add = false -> before <= after)
  /\ (add = true -> before <= 200 -> before <= after)
  /\ (add = true -> after <> before -> after <= 200).
Proof.
  intros Hmatrix Hwf. cbv zeta.
  rewrite (setCostsInRange_get W matrix pos range cost add s x y Hmatrix Hwf).
  pose proof (CostMatrixFacts.get_byte _ x y Hwf) as Hbyte.
  destruct (CostMatrix.in_grid x y && inRangeOf _ range x y);
    [|repeat split; intros; (reflexivity || assumption || lia || contradiction)].
  unfold rangeCost, effectiveCost, CostMatrix.clamp.
  destruct (getTerrainAt W x y _);
    repeat match goal with
           | |- context [?a <=? ?b] => destruct (Z.leb_spec a b)
           | |- context [?a <? ?b] => destruct (Z.ltb_spec a b)
           | |- context [?a =? ?b] => destruct (Z.eqb_spec a b)
           end; cbn [orb];
    repeat split; intros; subst; try discriminate; try reflexivity; try lia.
Qed.

Lemma setCostsInRange_respects_witness :
  (0 < length (heap (mkStore [CostMatrix.set CostMatrix.new 12 13 40] ∅)))%nat
  /\ CostMatrix.get (deref (mkStore [CostMatrix.set CostMatrix.new 12 13 40] ∅) 0%nat)
                    12 13
     <= CostMatrix.get
          (deref (snd (setCostsInRange (Samples.twoWallsWorld Samples.bareRoom) 0%nat
                         (IsPos (RoomPosition.mk 12 12 "W1N1")) 1 30 false
                         (mkStore [CostMatrix.set CostMatrix.new 12 13 40] ∅))) 0%nat)
          12 13.
Proof.
  assert (Hmatrix :
    (0 < length (heap (mkStore [CostMatrix.set CostMatrix.new 12 13 40] ∅)))%nat)
    by (cbn [heap length]; lia).
  split; [exact Hmatrix|].
  exact (proj1 (proj2 (proj2
           (setCostsInRange_respects (Samples.twoWallsWorld Samples.bareRoom) 0%nat
              (IsPos (RoomPosition.mk 12 12 "W1N1")) 1 30 false
              (mkStore [CostMatrix.set CostMatrix.new 12 13 40] ∅) 12 13 Hmatrix
              (CostMatrixFacts.wf_set _ 12 13 40 CostMatrixFacts.wf_new))))
         eq_refl).
Defined.

(** X13: with [add], [setCostsInRange] lowers a high cost: a tile in range
    that is not a wall and costs more than 200, less than 255 and at most
    [cost], costs 200 afterwards. *)
Theorem setCostsInRange_add_lowers_high_costs (W : World) (matrix : MatrixRef)
    (pos : Obstacle) (range cost : Z) (s : Store) (x y : Z) :
  (matrix < length (heap s))%nat ->
  CostMatrix.wf (deref s matrix) ->
  CostMatrix.in_grid x y = true ->
  inRangeOf (normalizePos pos) range x y = true ->
  getTerrainAt W x y (RoomPosition.roomName (normalizePos pos)) <> wall ->
  200 < CostMatrix.get (deref s matrix) x y < 255 ->
  CostMatrix.get (deref s matrix) x y <= cost ->
  CostMatrix.get (deref (snd (setCostsInRange W matrix pos range cost true s)) matrix) x y
  = 200.
Proof.
  intros Hmatrix Hwf Hgrid Hrange Hterrain Hhigh Hcost.
  rewrite (setCostsInRange_get W matrix pos range cost true s x y Hmatrix Hwf).
  rewrite Hgrid, Hrange. cbn [andb].
  unfold rangeCost, effectiveCost, CostMatrix.clamp.
  destruct (getTerrainAt W x y _); try contradiction;
    repeat match goal with
           | |- context [?a <=? ?b] => destruct (Z.leb_spec a b)
           | |- context [?a <? ?b] => destruct (Z.ltb_spec a b)
           | |- context [?a =? ?b] => destruct (Z.eqb_spec a b)
           end; cbn [orb]; lia.
Qed.

Lemma setCostsInRange_add_lowers_high_costs_witness :
  CostMatrix.get (deref (mkStore [CostMatrix.set CostMatrix.new 12 13 254] ∅) 0%nat)
                 12 13 = 254
  /\ CostMatrix.get
       (deref (snd (setCostsInRange (Samples.twoWallsWorld Samples.bareRoom) 0%nat
                      (IsPos (RoomPosition.mk 12 12 "W1N1")) 1 254 true
                      (mkStore [CostMatrix.set CostMatrix.new 12 13 254] ∅))) 0%nat)
       12 13 = 200.
Proof.
  split; [reflexivity|].
  apply (setCostsInRange_add_lowers_high_costs
           (Samples.twoWallsWorld Samples.bareRoom) 0%nat
           (IsPos (RoomPosition.mk 12 12 "W1N1")) 1 254
           (mkStore [CostMatrix.set CostMatrix.new 12 13 254] ∅) 12 13).
  - cbn [heap length]. lia.
  - exact (CostMatrixFacts.wf_set _ 12 13 254 CostMatrixFacts.wf_new).
  - reflexivity.
  - reflexivity.
  - discriminate.
  - split; vm_compute; reflexivity.
  - vm_compute. discriminate.
Defined.

(** ** The direct, creep and keeper matrices *)

Section MoreMatrices.

Import CostMatrix CostMatrixFacts.

Lemma unwalkable_filter (xs : list Structure) (acc : list Structure) :
  fold_left (fun acc s => if negb (isWalkable s) then acc ++ [s] else acc) xs acc
  = acc ++ List.filter (fun s => negb (isWalkable s)) xs.
Proof.
  revert acc. induction xs as [|s rest IH]; intros acc; cbn [fold_left List.filter].
  - rewrite app_nil_r. reflexivity.
  - rewrite IH. destruct (negb (isWalkable s)); [|reflexivity].
    rewrite <- app_assoc. reflexivity.
Qed.

Lemma directContent_get (room : Room) (x y : Z) :
  get (directContent room) x y
  = if in_grid x y && (blockingSiteAt room x y || unwalkableAt room x y) then 255 else 0.
Proof.
  unfold directContent. cbv zeta.
  rewrite fold_set_get
    by (rewrite (fold_set_length _ (fun _ => true)); apply length_new).
  rewrite (fold_set_get _ (fun _ => true)) by apply length_new.
  rewrite get_new, unwalkable_filter, app_nil_l, existsb_filter.
  unfold blockingSiteAt, unwalkableAt, onTile. change (clamp 255) with 255.
  rewrite (existsb_ext
             (fun a => negb (isWalkable a)
                       && (true && (RoomPosition.x (s_pos a) =? x)
                           && (RoomPosition.y (s_pos a) =? y)))
             (fun s => negb (isWalkable s)
                       && ((RoomPosition.x (s_pos s) =? x)
                           && (RoomPosition.y (s_pos s) =? y))))
    by (intros a; reflexivity).
  rewrite (existsb_ext
             (fun a => my a && negb (site_isWalkable a)
                       && (RoomPosition.x (site_pos a) =? x)
                       && (RoomPosition.y (site_pos a) =? y))
             (fun site => my site && negb (site_isWalkable site)
                          && ((RoomPosition.x (site_pos site) =? x)
                              && (RoomPosition.y (site_pos site) =? y))))
    by (intros a; rewrite !andb_assoc; reflexivity).
  destruct (in_grid x y); cbn [andb]; [|reflexivity].
  destruct (existsb _ (find_construction_sites room)); cbn [orb]; [reflexivity|].
  destruct (existsb _ (find_structures room)); reflexivity.
Qed.

Lemma creepContent_get (room : Room) (m : CostMatrix.t) (x y : Z) :
  length (_bits m) = 2500%nat ->
  get (creepContent room m) x y
  = if in_grid x y && creepAt room x y then 255 else get m x y.
Proof.
  intros Hlen. unfold creepContent.
  rewrite (fold_set_get _ (fun _ => true)) by exact Hlen.
  unfold creepAt, onTile. change (clamp 255) with 255.
  rewrite (existsb_ext
             (fun a => true && (RoomPosition.x (c_pos a) =? x)
                       && (RoomPosition.y (c_pos a) =? y))
             (fun c => (RoomPosition.x (c_pos c) =? x)
                       && (RoomPosition.y (c_pos c) =? y)))
    by (intros a; reflexivity).
  reflexivity.
Qed.

Lemma existsb_map {A B} (p : B -> bool) (f : A -> B) (xs : list A) :
  existsb p (map f xs) = existsb (fun a => p (f a)) xs.
Proof.
  induction xs as [|a rest IH]; cbn [map existsb]; [reflexivity|].
  rewrite IH. reflexivity.
Qed.

Lemma existsb_offsets (centre lo hi k : Z) :
  existsb (Z.eqb k) (map (Z.add centre) (fromTo lo hi))
  = (lo <=? k - centre) && (k - centre <=? hi).
Proof.
  apply eq_true_iff_eq. rewrite existsb_exists, andb_true_iff, !Z.leb_le. split.
  - intros [k' [Hin Heq]]. apply Z.eqb_eq in Heq as <-.
    apply in_map_iff in Hin as [d [<- Hd]]. apply In_fromTo in Hd. lia.
  - intros Hk. exists k. split; [|apply Z.eqb_refl].
    apply in_map_iff. exists (k - centre). split; [lia | apply In_fromTo; lia].
Qed.

(** The two offset loops around one lair. *)
Lemma lairSquare_get (lair : Structure) (m : CostMatrix.t) (x y : Z) :
  length (_bits m) = 2500%nat ->
  length (_bits (fold_left (fun m dx =>
                   fold_left (fun m dy =>
                     set m (RoomPosition.x (s_pos lair) + dx)
                           (RoomPosition.y (s_pos lair) + dy) 255)
                     (fromTo (- 5) 5) m)
                   (fromTo (- 5) 5) m)) = 2500%nat
  /\ get (fold_left (fun m dx =>
            fold_left (fun m dy =>
              set m (RoomPosition.x (s_pos lair) + dx)
                    (RoomPosition.y (s_pos lair) + dy) 255)
              (fromTo (- 5) 5) m)
            (fromTo (- 5) 5) m) x y
     = if in_grid x y && inRangeOf (s_pos lair) 5 x y then 255 else get m x y.
Proof.
  intros Hlen.
  assert (Hrect :
    fold_left (fun m dx =>
      fold_left (fun m dy =>
        set m (RoomPosition.x (s_pos lair) + dx) (RoomPosition.y (s_pos lair) + dy) 255)
        (fromTo (- 5) 5) m)
      (fromTo (- 5) 5) m
    = fold_left (fun m x' =>
        fold_left (fun m y' => set m x' y' 255)
                  (map (Z.add (RoomPosition.y (s_pos lair))) (fromTo (- 5) 5)) m)
        (map (Z.add (RoomPosition.x (s_pos lair))) (fromTo (- 5) 5)) m).
  { rewrite fold_left_map. apply fold_left_ext. intros m' dx.
    rewrite fold_left_map. reflexivity. }
  rewrite Hrect.
  destruct (rectangle_get
              (map (Z.add (RoomPosition.x (s_pos lair))) (fromTo (- 5) 5))
              (map (Z.add (RoomPosition.y (s_pos lair))) (fromTo (- 5) 5))
              255 m x y Hlen) as [Hlen' Hget].
  split; [exact Hlen'|].
  rewrite Hget, !existsb_offsets. unfold inRangeOf.
  destruct (in_grid x y); cbn [andb]; [|reflexivity].
  repeat match goal with
         | |- context [?a <=? ?b] => destruct (Z.leb_spec a b)
         end; cbn [andb]; try reflexivity; lia.
Qed.

Lemma skContent_get (room : Room) (m : CostMatrix.t) (x y : Z) :
  length (_bits m) = 2500%nat ->
  length (_bits (skContent room m)) = 2500%nat
  /\ get (skContent room m) x y
     = if in_grid x y && lairNear room x y then 255 else get m x y.
Proof.
  unfold skContent, lairNear. revert m.
  induction (keeperLairs room) as [|lair rest IH]; intros m Hlen;
    cbn [fold_left existsb].
  - rewrite andb_false_r. split; [exact Hlen | reflexivity].
  - destruct (lairSquare_get lair m x y Hlen) as [Hlen' Hget].
    destruct (IH _ Hlen') as [Hlen'' Hrest].
    split; [exact Hlen''|].
    rewrite Hrest, Hget.
    destruct (in_grid x y); cbn [andb]; [|reflexivity].
    destruct (existsb _ rest); [rewrite orb_true_r; reflexivity|].
    rewrite orb_false_r. reflexivity.
Qed.

End MoreMatrices.

(** X14: a direct matrix that is built (the slot of the room is empty)
    marks, on the grid, 255 on every tile with a non-walkable structure or a
    non-walkable construction site of the player and 0 on every other tile:
    roads are not marked. *)
Theorem getDirectMatrix_cells (room : Room) (s : Store) (x y : Z) :
  _directMatrix (cacheOf s room) = None ->
  CostMatrix.in_grid x y = true ->
  CostMatrix.get (deref (snd (getDirectMatrix room s)) (fst (getDirectMatrix room s))) x y
  = if blockingSiteAt room x y || unwalkableAt room x y then 255 else 0.
Proof.
  intros Hmiss Hgrid. rewrite (getDirectMatrix_miss room s Hmiss). cbn [fst snd].
  rewrite deref_fresh, directContent_get, Hgrid. reflexivity.
Qed.

Lemma getDirectMatrix_cells_witness :
  _directMatrix (cacheOf Samples.emptyStore Samples.builtRoom) = None
  /\ CostMatrix.get
       (deref (snd (getDirectMatrix Samples.builtRoom Samples.emptyStore))
              (fst (getDirectMatrix Samples.builtRoom Samples.emptyStore))) 30 30 = 255
  /\ CostMatrix.get
       (deref (snd (getDirectMatrix Samples.builtRoom Samples.emptyStore))
              (fst (getDirectMatrix Samples.builtRoom Samples.emptyStore))) 11 11 = 0.
Proof.
  assert (Hmiss : _directMatrix (cacheOf Samples.emptyStore Samples.builtRoom) = None)
    by reflexivity.
  split; [exact Hmiss|]. split.
  - exact (getDirectMatrix_cells Samples.builtRoom Samples.emptyStore 30 30 Hmiss eq_refl).
  - exact (getDirectMatrix_cells Samples.builtRoom Samples.emptyStore 11 11 Hmiss eq_refl).
Defined.

(** X15: a creep matrix that is built costs 255 on every tile of the grid
    with a creep and the cost of the default matrix on every other tile.  It
    is a matrix of its own: the default matrix keeps its cells. *)
Theorem getCreepMatrix_cells (room : Room) (s : Store) :
  Forall CostMatrix.wf (heap s) ->
  store_wf s ->
  _creepMatrix (cacheOf s room) = None ->
  let base := deref (snd (getDefaultMatrix room s)) (fst (getDefaultMatrix room s)) in
  let s' := snd (getCreepMatrix room s) in
  (forall x y, CostMatrix.in_grid x y = true ->
     CostMatrix.get (deref s' (fst (getCreepMatrix room s))) x y
     = if creepAt room x y then 255 else CostMatrix.get base x y)
  /\ fst (getCreepMatrix room s) <> fst (getDefaultMatrix room s)
  /\ deref s' (fst (getDefaultMatrix room s)) = base.
Proof.
  intros Hheap Hwf Hmiss. cbv zeta.
  rewrite (getCreepMatrix_miss room s Hmiss).
  pose proof (getDefaultMatrix_wf room s Hheap) as Hheap1.
  pose proof (getDefaultMatrix_ok room s Hwf) as [(_ & _ & Hbase) _].
  destruct (getDefaultMatrix room s) as [base s1]. cbn [fst snd] in *.
  split; [|split].
  - intros x y Hgrid. rewrite deref_fresh.
    rewrite creepContent_get by (apply (deref_wf s1 base Hheap1)).
    rewrite Hgrid. reflexivity.
  - lia.
  - rewrite (deref_old (heap s1) _ (roomCache s1) _ base Hbase).
    destruct s1; reflexivity.
Qed.

Lemma getCreepMatrix_cells_witness :
  Forall CostMatrix.wf (heap Samples.emptyStore)
  /\ store_wf Samples.emptyStore
  /\ _creepMatrix (cacheOf Samples.emptyStore Samples.kitingRoom) = None
  /\ CostMatrix.get
       (deref (snd (getCreepMatrix Samples.kitingRoom Samples.emptyStore))
              (fst (getCreepMatrix Samples.kitingRoom Samples.emptyStore))) 10 10
     = 255.
Proof.
  assert (Hheap : Forall CostMatrix.wf (heap Samples.emptyStore)) by constructor.
  assert (Hwf : store_wf Samples.emptyStore) by exact store_wf_empty.
  assert (Hmiss : _creepMatrix (cacheOf Samples.emptyStore Samples.kitingRoom) = None)
    by reflexivity.
  split; [exact Hheap | split; [exact Hwf | split; [exact Hmiss|]]].
  exact (proj1 (getCreepMatrix_cells Samples.kitingRoom Samples.emptyStore
                  Hheap Hwf Hmiss) 10 10 eq_refl).
Defined.

(** X16: for a room that is no keeper room [getSkMatrix] is
    [getDefaultMatrix]; for a keeper room whose lairs stand at least 5 tiles
    from the edge of the grid, so that the loops around them stay on the
    grid, a keeper matrix that is built costs 255 on every tile within range
    5 of a keeper lair and the cost of the default matrix on every other
    tile. *)
Theorem getSkMatrix_cells (W : World) (room : Room) (s : Store) :
  Forall CostMatrix.wf (heap s) ->
  (roomType W (name room) <> ROOMTYPE_SOURCEKEEPER ->
   getSkMatrix W room s = getDefaultMatrix room s)
  /\ (roomType W (name room) = ROOMTYPE_SOURCEKEEPER ->
      _skMatrix (cacheOf s room) = None ->
      (forall lair, In lair (keeperLairs room) ->
         5 <= RoomPosition.x (s_pos lair) <= 44
         /\ 5 <= RoomPosition.y (s_pos lair) <= 44) ->
      forall x y, CostMatrix.in_grid x y = true ->
        CostMatrix.get (deref (snd (getSkMatrix W room s)) (fst (getSkMatrix W room s)))
                       x y
        = if lairNear room x y then 255
          else CostMatrix.get (deref (snd (getDefaultMatrix room s))
                                     (fst (getDefaultMatrix room s))) x y).
Proof.
  intros Hheap. split; [apply getSkMatrix_other|].
  intros Hsk Hmiss Hinside x y Hgrid.
  rewrite (getSkMatrix_miss W room s Hsk Hmiss).
  pose proof (getDefaultMatrix_wf room s Hheap) as Hheap1.
  destruct (getDefaultMatrix room s) as [base s1]. cbn [fst snd] in *.
  rewrite deref_fresh.
  rewrite (proj2 (skContent_get room _ x y (proj1 (deref_wf s1 base Hheap1)))).
  rewrite Hgrid. reflexivity.
Qed.

Lemma getSkMatrix_cells_witness :
  Forall CostMatrix.wf (heap Samples.emptyStore)
  /\ roomType MoreSamples.keeperWorld (name MoreSamples.keeperRoom)
     = ROOMTYPE_SOURCEKEEPER
  /\ _skMatrix (cacheOf Samples.emptyStore MoreSamples.keeperRoom) = None
  /\ (forall lair, In lair (keeperLairs MoreSamples.keeperRoom) ->
        5 <= RoomPosition.x (s_pos lair) <= 44
        /\ 5 <= RoomPosition.y (s_pos lair) <= 44)
  /\ CostMatrix.get
       (deref (snd (getSkMatrix MoreSamples.keeperWorld MoreSamples.keeperRoom
                                Samples.emptyStore))
              (fst (getSkMatrix MoreSamples.keeperWorld MoreSamples.keeperRoom
                                Samples.emptyStore))) 15 5
     = 255.
Proof.
  assert (Hheap : Forall CostMatrix.wf (heap Samples.emptyStore)) by constructor.
  assert (Hinside : forall lair, In lair (keeperLairs MoreSamples.keeperRoom) ->
            5 <= RoomPosition.x (s_pos lair) <= 44
            /\ 5 <= RoomPosition.y (s_pos lair) <= 44).
  { intros lair [<-|[]]. cbn. lia. }
  split; [exact Hheap | split; [reflexivity | split; [reflexivity|]]].
  split; [exact Hinside|].
  exact (proj2 (getSkMatrix_cells MoreSamples.keeperWorld MoreSamples.keeperRoom
                  Samples.emptyStore Hheap) eq_refl eq_refl Hinside 15 5 eq_refl).
Defined.

(** ** The cached getters together *)

(** X17: each of the five cached getters is idempotent: called again on the
    store the first call left, it returns the same matrix and leaves the
    store as it is. *)
Theorem cached_getters_idempotent (W : World) (room : Room) (s : Store) :
  getDefaultMatrix room (snd (getDefaultMatrix room s)) = getDefaultMatrix room s
  /\ getDirectMatrix room (snd (getDirectMatrix room s)) = getDirectMatrix room s
  /\ getCreepMatrix room (snd (getCreepMatrix room s)) = getCreepMatrix room s
  /\ getKitingMatrix room (snd (getKitingMatrix room s)) = getKitingMatrix room s
  /\ getSkMatrix W room (snd (getSkMatrix W room s)) = getSkMatrix W room s.
Proof.
  assert (Hdefault : getDefaultMatrix room (snd (getDefaultMatrix room s))
                     = getDefaultMatrix room s).
  { destruct (_defaultMatrix (cacheOf s room)) as [r|] eqn:Hc.
    - rewrite (getDefaultMatrix_hit _ _ _ Hc). cbn [snd].
      apply getDefaultMatrix_hit, Hc.
    - rewrite (getDefaultMatrix_miss _ _ Hc). cbn [snd].
      apply getDefaultMatrix_hit. rewrite cacheOf_insert.
      case_decide; [reflexivity | contradiction]. }
  split; [exact Hdefault | split; [|split; [|split]]].
  - destruct (_directMatrix (cacheOf s room)) as [r|] eqn:Hc.
    + rewrite (getDirectMatrix_hit _ _ _ Hc). cbn [snd].
      apply getDirectMatrix_hit, Hc.
    + rewrite (getDirectMatrix_miss _ _ Hc). cbn [snd].
      apply getDirectMatrix_hit. rewrite cacheOf_insert.
      case_decide; [reflexivity | contradiction].
  - destruct (_creepMatrix (cacheOf s room)) as [r|] eqn:Hc.
    + rewrite (getCreepMatrix_hit _ _ _ Hc). cbn [snd].
      apply getCreepMatrix_hit, Hc.
    + rewrite (getCreepMatrix_miss _ _ Hc).
      destruct (getDefaultMatrix room s) as [base s1]. cbn [snd].
      apply getCreepMatrix_hit. rewrite cacheOf_insert.
      case_decide; [reflexivity | contradiction].
  - destruct (_kitingMatrix (cacheOf s room)) as [r|] eqn:Hc.
    + rewrite (getKitingMatrix_hit _ _ _ Hc). cbn [snd].
      apply getKitingMatrix_hit, Hc.
    + rewrite (getKitingMatrix_miss _ _ Hc).
      destruct (getCreepMatrix room s) as [base s1]. cbn [snd].
      apply getKitingMatrix_hit. rewrite cacheOf_insert.
      case_decide; [reflexivity | contradiction].
  - destruct (RoomType_eqb (roomType W (name room)) ROOMTYPE_SOURCEKEEPER) eqn:Htype.
    + assert (Hsk : roomType W (name room) = ROOMTYPE_SOURCEKEEPER)
        by (destruct (roomType W (name room)); (reflexivity || discriminate)).
      destruct (_skMatrix (cacheOf s room)) as [r|] eqn:Hc.
      * rewrite (getSkMatrix_hit W _ _ _ Hsk Hc). cbn [snd].
        apply getSkMatrix_hit; assumption.
      * rewrite (getSkMatrix_miss W _ _ Hsk Hc).
        destruct (getDefaultMatrix room s) as [base s1]. cbn [snd].
        apply getSkMatrix_hit; [exact Hsk|]. rewrite cacheOf_insert.
        case_decide; [reflexivity | contradiction].
    + assert (Hother : roomType W (name room) <> ROOMTYPE_SOURCEKEEPER)
        by (intros Hsk; rewrite Hsk in Htype; discriminate).
      rewrite !(getSkMatrix_other W room _ Hother). exact Hdefault.
Qed.

(** X18: built for a room whose slots are all empty, the derived matrices
    never make a tile cheaper: on every tile the creep matrix costs at least
    as much as the default matrix, the kiting matrix at least as much as the
    creep matrix, and the keeper matrix at least as much as the default
    matrix. *)
Theorem derived_matrices_never_cheaper (W : World) (room : Room) (s : Store) (x y : Z) :
  Forall CostMatrix.wf (heap s) ->
  cacheOf s room = noCache ->
  let cost := fun getter : ST Store MatrixRef =>
                CostMatrix.get (deref (snd (getter s)) (fst (getter s))) x y in
  cost (getDefaultMatrix room) <= cost (getCreepMatrix room)
  /\ cost (getCreepMatrix room) <= cost (getKitingMatrix room)
  /\ cost (getDefaultMatrix room) <= cost (getSkMatrix W room).
Proof.
  intros Hheap Hcache. cbv zeta beta.
  assert (Hcreep : _creepMatrix (cacheOf s room) = None) by (rewrite Hcache; reflexivity).
  assert (Hkiting : _kitingMatrix (cacheOf s room) = None)
    by (rewrite Hcache; reflexivity).
  assert (Hsk : _skMatrix (cacheOf s room) = None) by (rewrite Hcache; reflexivity).
  pose proof (getDefaultMatrix_wf room s Hheap) as Hheap1.
  pose proof (getCreepMatrix_wf room s Hheap) as Hheap2.
  split; [|split].
  - rewrite (getCreepMatrix_miss room s Hcreep).
    destruct (getDefaultMatrix room s) as [base s1]. cbn [fst snd] in *.
    rewrite deref_fresh.
    pose proof (deref_wf s1 base Hheap1) as Hwf.
    rewrite creepContent_get by apply Hwf.
    pose proof (CostMatrixFacts.get_byte _ x y Hwf).
    destruct (CostMatrix.in_grid x y && creepAt room x y); lia.
  - rewrite (getKitingMatrix_miss room s Hkiting).
    destruct (getCreepMatrix room s) as [base s1]. cbn [fst snd] in *.
    rewrite deref_fresh.
    pose proof (deref_wf s1 base Hheap2) as Hwf.
    destruct (CostMatrix.in_grid x y) eqn:Hgrid.
    + unfold kitingContent. rewrite kitingFold_get by assumption.
      pose proof (CostMatrixFacts.get_byte _ x y Hwf).
      pose proof (sum_penalty_nonneg (avoidCreeps room) x y). lia.
    + rewrite !CostMatrixFacts.get_outside by exact Hgrid. lia.
  - destruct (RoomType_eqb (roomType W (name room)) ROOMTYPE_SOURCEKEEPER) eqn:Htype.
    + assert (Hkeeper : roomType W (name room) = ROOMTYPE_SOURCEKEEPER)
        by (destruct (roomType W (name room)); (reflexivity || discriminate)).
      rewrite (getSkMatrix_miss W room s Hkeeper Hsk).
      destruct (getDefaultMatrix room s) as [base s1]. cbn [fst snd] in *.
      rewrite deref_fresh.
      pose proof (deref_wf s1 base Hheap1) as Hwf.
      rewrite (proj2 (skContent_get room _ x y (proj1 Hwf))).
      pose proof (CostMatrixFacts.get_byte _ x y Hwf).
      destruct (CostMatrix.in_grid x y && lairNear room x y); lia.
    + assert (Hother : roomType W (name room) <> ROOMTYPE_SOURCEKEEPER)
        by (intros Hkeeper; rewrite Hkeeper in Htype; discriminate).
      rewrite (getSkMatrix_other W room s Hother). lia.
Qed.

Lemma derived_matrices_never_cheaper_witness :
  Forall CostMatrix.wf (heap Samples.emptyStore)
  /\ cacheOf Samples.emptyStore Samples.kitingRoom = noCache
  /\ CostMatrix.get
       (deref (snd (getCreepMatrix Samples.kitingRoom Samples.emptyStore))
              (fst (getCreepMatrix Samples.kitingRoom Samples.emptyStore))) 11 11
     <= CostMatrix.get
          (deref (snd (getKitingMatrix Samples.kitingRoom Samples.emptyStore))
                 (fst (getKitingMatrix Samples.kitingRoom Samples.emptyStore))) 11 11.
Proof.
  assert (Hheap : Forall CostMatrix.wf (heap Samples.emptyStore)) by constructor.
  assert (Hcache : cacheOf Samples.emptyStore Samples.kitingRoom = noCache)
    by reflexivity.
  split; [exact Hheap | split; [exact Hcache|]].
  exact (proj1 (proj2 (derived_matrices_never_cheaper Samples.routeWorld
                         Samples.kitingRoom Samples.emptyStore 11 11 Hheap Hcache))).
Defined.

(** ** Routes and room callbacks *)

Section RouteRooms.

Variable W : World.

Lemma allowed_fold_lookup (steps : list RouteStep) (allowed : gmap string bool)
    (roomName : string) :
  fold_left (fun allowedRooms value => <[room value := true]> allowedRooms)
            steps allowed !! roomName
  = if existsb (fun step => String.eqb (room step) roomName) steps
    then Some true else allowed !! roomName.
Proof.
  revert allowed. induction steps as [|step rest IH]; intros allowed;
    cbn [fold_left existsb]; [reflexivity|].
  rewrite IH. destruct (existsb _ rest); [rewrite orb_true_r; reflexivity|].
  rewrite orb_false_r. rewrite lookup_insert. case_decide as Heq.
  - rewrite (proj2 (String.eqb_eq _ _) Heq). reflexivity.
  - rewrite (proj2 (String.eqb_neq _ _) Heq). reflexivity.
Qed.

Lemma findRoute_lookup (origin destination : string) (options : MoveOptions)
    (steps : list RouteStep) (st : State) :
  Game_map_findRoute W origin destination
    (findRoute_callback W origin destination options) = Some steps ->
  exists allowedRooms,
    findRoute W origin destination options st = (Some allowedRooms, st)
    /\ forall roomName,
         allowedRooms !! roomName
         = if onRoute origin destination steps roomName then Some true else None.
Proof.
  intros Hroute. rewrite findRoute_unfold, Hroute. eexists. split; [reflexivity|].
  intros roomName. rewrite allowed_fold_lookup. unfold onRoute.
  destruct (existsb _ steps); [rewrite orb_true_r; reflexivity|].
  rewrite orb_false_r, !lookup_insert.
  destruct (String.eqb_spec roomName destination) as [->|Hd].
  - rewrite orb_true_r. case_decide; [reflexivity | contradiction].
  - rewrite orb_false_r. case_decide; [congruence|].
    destruct (String.eqb_spec roomName origin) as [->|Ho];
      case_decide; try congruence; try reflexivity.
Qed.

End RouteRooms.

(** X19: when the engine finds a route, [findRoute] returns as allowed
    exactly the origin, the destination and the rooms of the steps of the
    route, each mapped to true, and leaves the state as it is; when the
    engine finds none, it returns undefined and logs one warning. *)
Theorem findRoute_rooms (W : World) (origin destination : string)
    (options : MoveOptions) (st : State) :
  (forall steps,
     Game_map_findRoute W origin destination
       (findRoute_callback W origin destination options) = Some steps ->
     exists allowedRooms,
       findRoute W origin destination options st = (Some allowedRooms, st)
       /\ forall roomName,
            allowedRooms !! roomName
            = if onRoute origin destination steps roomName then Some true else None)
  /\ (Game_map_findRoute W origin destination
        (findRoute_callback W origin destination options) = None ->
      findRoute W origin destination options st
      = (None, logged (log_warning (CouldntFindRoute origin destination)) st)).
Proof.
  split.
  - intros steps Hroute. apply findRoute_lookup. exact Hroute.
  - intros Hnone. rewrite findRoute_unfold, Hnone. reflexivity.
Qed.

Lemma findRoute_rooms_witness :
  Game_map_findRoute Samples.routeWorld "W1N1" "W3N1"
    (findRoute_callback Samples.routeWorld "W1N1" "W3N1" noOptions)
  = Some [mkStep 7 "W3N1"]
  /\ exists allowedRooms,
       findRoute Samples.routeWorld "W1N1" "W3N1" noOptions Samples.emptyState
       = (Some allowedRooms, Samples.emptyState)
       /\ forall roomName,
            allowedRooms !! roomName
            = if onRoute "W1N1" "W3N1" [mkStep 7 "W3N1"] roomName
              then Some true else None.
Proof.
  assert (Hroute :
    Game_map_findRoute Samples.routeWorld "W1N1" "W3N1"
      (findRoute_callback Samples.routeWorld "W1N1" "W3N1" noOptions)
    = Some [mkStep 7 "W3N1"]) by reflexivity.
  split; [exact Hroute|].
  exact (proj1 (findRoute_rooms Samples.routeWorld "W1N1" "W3N1" noOptions
                  Samples.emptyState) _ Hroute).
Defined.

(** X20: a search that is handed the rooms [findRoute] allowed.  Without a
    modifying callback, [roomCallback] never closes the room of the origin or
    of the destination, flagged to be avoided or not; and it closes every
    room that is neither of the two nor on the route, without building a
    matrix. *)
Theorem roomCallback_follows_route (W : World) (origin destination : RoomPosition.t)
    (options : MoveOptions) (steps : list RouteStep) (st : State) (s : Store)
    (roomName : string) :
  Game_map_findRoute W (RoomPosition.roomName origin) (RoomPosition.roomName destination)
    (findRoute_callback W (RoomPosition.roomName origin)
                        (RoomPosition.roomName destination) options) = Some steps ->
  let allowedRooms :=
    fst (findRoute W (RoomPosition.roomName origin) (RoomPosition.roomName destination)
                   options st) in
  (modifyRoomCallback options = None ->
   roomName = RoomPosition.roomName origin
   \/ roomName = RoomPosition.roomName destination ->
   fst (roomCallback W roomName origin destination allowedRooms options s)
   <> CbBool false)
  /\ (onRoute (RoomPosition.roomName origin) (RoomPosition.roomName destination)
              steps roomName = false ->
      roomCallback W roomName origin destination allowedRooms options s
      = (CbBool false, s)).
Proof.
  intros Hroute. cbv zeta.
  destruct (findRoute_lookup W _ _ options steps st Hroute) as [allowed [-> Hlookup]].
  cbn [fst]. unfold roomCallback. rewrite Hlookup. split.
  - intros Hmodify Hend.
    assert (Hon : onRoute (RoomPosition.roomName origin)
                          (RoomPosition.roomName destination) steps roomName = true).
    { unfold onRoute. destruct Hend as [-> | ->]; rewrite String.eqb_refl;
        [reflexivity | rewrite orb_true_r; reflexivity]. }
    rewrite Hon. change (negb (default false (Some true))) with false. cbv iota.
    assert (Hopen : negb (truthy (allowHostile options)) && shouldAvoid W roomName
                    && negb (String.eqb roomName (RoomPosition.roomName origin))
                    && negb (String.eqb roomName (RoomPosition.roomName destination))
                    = false).
    { destruct Hend as [-> | ->]; rewrite String.eqb_refl; cbn [negb];
        rewrite ?andb_false_r; reflexivity. }
    rewrite Hopen.
    destruct (Game_rooms W roomName) as [room|]; [|discriminate].
    unfold bind. destruct (getCostMatrix W room options false s) as [matrix s1].
    rewrite Hmodify. unfold gets, pure. cbn [fst]. discriminate.
  - intros Hoff. rewrite Hoff. reflexivity.
Qed.

Lemma roomCallback_follows_route_witness :
  Game_map_findRoute Samples.routeWorld "W1N1" "W3N1"
    (findRoute_callback Samples.routeWorld "W1N1" "W3N1" noOptions)
  = Some [mkStep 7 "W3N1"]
  /\ onRoute "W1N1" "W3N1" [mkStep 7 "W3N1"] "W2N1" = false
  /\ roomCallback Samples.routeWorld "W2N1"
       (RoomPosition.mk 5 5 "W1N1") (RoomPosition.mk 5 5 "W3N1")
       (fst (findRoute Samples.routeWorld "W1N1" "W3N1" noOptions Samples.emptyState))
       noOptions Samples.emptyStore
     = (CbBool false, Samples.emptyStore).
Proof.
  assert (Hroute :
    Game_map_findRoute Samples.routeWorld "W1N1" "W3N1"
      (findRoute_callback Samples.routeWorld "W1N1" "W3N1" noOptions)
    = Some [mkStep 7 "W3N1"]) by reflexivity.
  assert (Hoff : onRoute "W1N1" "W3N1" [mkStep 7 "W3N1"] "W2N1" = false) by reflexivity.
  split; [exact Hroute | split; [exact Hoff|]].
  exact (proj2 (roomCallback_follows_route Samples.routeWorld
                  (RoomPosition.mk 5 5 "W1N1") (RoomPosition.mk 5 5 "W3N1") noOptions
                  [mkStep 7 "W3N1"] Samples.emptyState Samples.emptyStore "W2N1" Hroute)
               Hoff).
Defined.

(** X21: the callbacks of the flee searches.  Without a modifying callback,
    the callback of [findFleePath] never closes the room the creep is in,
    flagged to be avoided or not; [kitingRoomCallback] closes no room at
    all. *)
Theorem flee_callbacks_keep_rooms_open (W : World) (creepPos : RoomPosition.t)
    (options : MoveOptions) (roomName : string) (s : Store) :
  (modifyRoomCallback options = None ->
   fst (fleeCallback W creepPos options (RoomPosition.roomName creepPos) s)
   <> CbBool false)
  /\ fst (kitingRoomCallback W roomName s) <> CbBool false.
Proof.
  split.
  - intros Hmodify. unfold fleeCallback. rewrite String.eqb_refl. cbn [negb].
    rewrite andb_false_r.
    destruct (Game_rooms W (RoomPosition.roomName creepPos)) as [room|]; [|discriminate].
    unfold bind. destruct (getCostMatrix W room options false s) as [matrix s1].
    rewrite Hmodify. unfold gets, pure. cbn [fst]. discriminate.
  - unfold kitingRoomCallback.
    destruct (Game_rooms W roomName) as [room|]; [|discriminate].
    unfold bind. destruct (getKitingMatrix room s) as [matrix s1].
    unfold gets, pure. cbn [fst]. discriminate.
Qed.

Lemma flee_callbacks_keep_rooms_open_witness :
  modifyRoomCallback noOptions = None
  /\ fst (fleeCallback Samples.routeWorld (RoomPosition.mk 5 5 "W1N1") noOptions
                       "W1N1" Samples.emptyStore)
     <> CbBool false.
Proof.
  split; [reflexivity|].
  exact (proj1 (flee_callbacks_keep_rooms_open Samples.routeWorld
                  (RoomPosition.mk 5 5 "W1N1") noOptions "W1N1" Samples.emptyStore)
               eq_refl).
Defined.

(** ** The distance memo and the path weight *)

Section MemoSlots.

Variable W : World.

Lemma insert2_lookup2_other (table : gmap string (gmap string Z))
    (k1 k2 n1 n2 : string) (v : Z) :
  (k1, k2) <> (n1, n2) ->
  lookup2 (insert2 n1 n2 v table) k1 k2 = lookup2 table k1 k2.
Proof.
  intros Hne. unfold insert2, lookup2. rewrite lookup_insert.
  case_decide as Hk1; [|reflexivity]. subst k1.
  rewrite lookup_insert. case_decide as Hk2; [congruence|].
  destruct (table !! n1); [reflexivity | apply lookup_empty].
Qed.

Lemma tileWeight_bounds (pos : RoomPosition.t) : 0 <= tileWeight W pos <= 10.
Proof.
  unfold tileWeight. destruct (pos_room W pos); [|lia].
  destruct (lookForStructure _ _ _); [lia|].
  destruct (lookForTerrain W pos); lia.
Qed.

Lemma weight_fold (positions : list RoomPosition.t) (weight : Z) :
  fold_left (fun weight pos => weight + tileWeight W pos) positions weight
  = weight + sumZ (map (tileWeight W) positions).
Proof.
  revert weight. induction positions as [|pos rest IH]; intros weight;
    cbn [fold_left map sumZ fold_right]; [lia|].
  rewrite IH. unfold sumZ. lia.
Qed.

Lemma weight_sum_bounds (positions : list RoomPosition.t) :
  0 <= sumZ (map (tileWeight W) positions) <= 10 * Z.of_nat (length positions).
Proof.
  induction positions as [|pos rest IH]; cbn [map sumZ fold_right length]; [lia|].
  pose proof (tileWeight_bounds pos). unfold sumZ in IH. lia.
Qed.

Lemma weight_sum_unseen (positions : list RoomPosition.t) :
  (forall pos, In pos positions -> Game_rooms W (RoomPosition.roomName pos) = None) ->
  sumZ (map (tileWeight W) positions) = Z.of_nat (length positions).
Proof.
  induction positions as [|pos rest IH]; intros Hunseen;
    cbn [map sumZ fold_right length]; [reflexivity|].
  unfold sumZ in IH. rewrite IH by (intros p Hp; apply Hunseen; right; exact Hp).
  unfold tileWeight, pos_room. rewrite (Hunseen pos (or_introl eq_refl)). lia.
Qed.

End MemoSlots.

(** X22: [distance] on a slot that holds no number or 0, when the search it
    runs is complete: the call returns the length of the path found and
    stores it in the slot of the sorted pair of names; every other slot of
    the table and the table of weighted distances are as before; and if the
    length is not 0 the same call again returns it from the slot and changes
    nothing. *)
Theorem distance_stores_complete_search (W : World) (arg1 arg2 : RoomPosition.t)
    (st : State) :
  let name1 := fst (sortNames (pos_name W arg1) (pos_name W arg2)) in
  let name2 := snd (sortNames (pos_name W arg1) (pos_name W arg2)) in
  let ret :=
    fst (findShortestPath W arg1 arg2 noOptions
           (mkState (store st) (ensureRow name1 (distances st))
                    (weightedDistances st) (log st))) in
  let n := Z.of_nat (length (path ret)) in
  let st' := snd (distance W arg1 arg2 st) in
  falsyNum (lookup2 (distances st) name1 name2) = true ->
  incomplete ret = false ->
  fst (distance W arg1 arg2 st) = Some n
  /\ lookup2 (distances st') name1 name2 = Some n
  /\ (forall k1 k2, (k1, k2) <> (name1, name2) ->
        lookup2 (distances st') k1 k2 = lookup2 (distances st) k1 k2)
  /\ weightedDistances st' = weightedDistances st
  /\ (n <> 0 -> distance W arg1 arg2 st' = (Some n, st')).
Proof.
  cbv zeta. intros Hfalsy Hcomplete.
  assert (Hrun :
    fst (distance W arg1 arg2 st)
    = Some (Z.of_nat (length (path (fst (findShortestPath W arg1 arg2 noOptions
              (mkState (store st)
                 (ensureRow (fst (sortNames (pos_name W arg1) (pos_name W arg2)))
                            (distances st))
                 (weightedDistances st) (log st)))))))
    /\ (forall k1 k2,
          (k1, k2) <> (fst (sortNames (pos_name W arg1) (pos_name W arg2)),
                       snd (sortNames (pos_name W arg1) (pos_name W arg2))) ->
          lookup2 (distances (snd (distance W arg1 arg2 st))) k1 k2
          = lookup2 (distances st) k1 k2)
    /\ weightedDistances (snd (distance W arg1 arg2 st)) = weightedDistances st).
  { rewrite distance_unfold. cbv zeta. rewrite Hfalsy.
    match goal with
    | |- context [findShortestPath W arg1 arg2 noOptions ?s0] =>
        pose proof (findShortestPath_memo W arg1 arg2 noOptions s0) as [Hd Hw]
    end.
    destruct (findShortestPath W arg1 arg2 noOptions _) as [ret st1].
    cbn [fst snd distances weightedDistances] in *. rewrite Hcomplete.
    cbn [negb fst snd distances weightedDistances].
    split; [apply insert2_lookup2 | split; [|exact Hw]].
    intros k1 k2 Hne. rewrite insert2_lookup2_other by exact Hne.
    rewrite Hd. apply ensureRow_lookup2. }
  destruct Hrun as [Hret [Hothers Hweighted]].
  assert (Hslot := distance_returns_slot W arg1 arg2 st). rewrite Hret in Hslot.
  split; [exact Hret | split; [symmetry; exact Hslot | split; [exact Hothers|]]].
  split; [exact Hweighted|].
  intros Hn. apply distance_cached; [symmetry; exact Hslot | exact Hn].
Qed.

Lemma distance_stores_complete_search_witness :
  fst (distance Samples.straightWorld Samples.posA Samples.posB Samples.emptyState)
  = Some 2
  /\ distance Samples.straightWorld Samples.posA Samples.posB
       (snd (distance Samples.straightWorld Samples.posA Samples.posB
                      Samples.emptyState))
     = (Some 2,
        snd (distance Samples.straightWorld Samples.posA Samples.posB
                      Samples.emptyState)).
Proof.
  pose proof (distance_stores_complete_search Samples.straightWorld Samples.posA
                Samples.posB Samples.emptyState eq_refl eq_refl) as Hmemo.
  split; [exact (proj1 Hmemo)|].
  apply (proj2 (proj2 (proj2 (proj2 Hmemo)))). vm_compute. discriminate.
Defined.

(** X23: the weight [calculatePathWeight] returns is the sum of the tile
    weights of the path [findPath] finds with the default range 1; it lies
    between 0 and ten times the length of the path, and equals the length of
    the path when no room on the path is observed.  The call changes the
    state as that one call of [findPath] does. *)
Theorem calculatePathWeight_bounds (W : World) (startPos endPos : RoomPosition.t)
    (options : MoveOptions) (st : State) :
  let search :=
    findPath W startPos endPos (with_range (dflt (range options) 1) options) st in
  let weight := fst (calculatePathWeight W startPos endPos options st) in
  weight = sumZ (map (tileWeight W) (path (fst search)))
  /\ 0 <= weight <= 10 * Z.of_nat (length (path (fst search)))
  /\ ((forall pos, In pos (path (fst search)) ->
         Game_rooms W (RoomPosition.roomName pos) = None) ->
      weight = Z.of_nat (length (path (fst search))))
  /\ snd (calculatePathWeight W startPos endPos options st) = snd search.
Proof.
  cbv zeta. unfold calculatePathWeight. cbv zeta. unfold bind.
  destruct (findPath W startPos endPos _ st) as [ret st1].
  unfold pure. cbn [fst snd]. rewrite weight_fold, Z.add_0_l.
  split; [reflexivity | split; [apply weight_sum_bounds | split; [|reflexivity]]].
  apply weight_sum_unseen.
Qed.

(** ** The matrix handed to a search *)

Section HandedMatrix.

Import CostMatrix CostMatrixFacts.

Variable W : World.

Lemma directContent_wf (room : Room) : wf (directContent room).
Proof.
  unfold directContent. cbv zeta. apply fold_set_wf.
  apply (fold_set_wf _ (fun _ => true)). apply wf_new.
Qed.

Lemma square_wf (cx cy v : Z) (dxs dys : list Z) (m : CostMatrix.t) :
  wf m ->
  wf (fold_left (fun m dx => fold_left (fun m dy => set m (cx + dx) (cy + dy) v) dys m)
                dxs m).
Proof.
  revert m. induction dxs as [|dx rest IH]; intros m Hwf; cbn [fold_left];
    [exact Hwf|].
  apply IH. clear IH. revert m Hwf.
  induction dys as [|dy dys IH]; intros m Hwf; cbn [fold_left]; [exact Hwf|].
  apply IH, wf_set, Hwf.
Qed.

Lemma skContent_wf (room : Room) (m : CostMatrix.t) : wf m -> wf (skContent room m).
Proof.
  unfold skContent. revert m.
  induction (keeperLairs room) as [|lair rest IH]; intros m Hwf; cbn [fold_left];
    [exact Hwf|].
  apply IH, square_wf, Hwf.
Qed.

Lemma baseMatrix_wf (room : Room) (options : MoveOptions) (s : Store) :
  Forall wf (heap s) -> Forall wf (heap (snd (baseMatrix W room options s))).
Proof.
  intros Hheap. unfold baseMatrix.
  destruct (bool_decide _); [apply getCreepMatrix_wf, Hheap|].
  destruct (truthy (avoidSK options)).
  { destruct (RoomType_eqb (roomType W (name room)) ROOMTYPE_SOURCEKEEPER) eqn:Htype.
    - assert (Hsk : roomType W (name room) = ROOMTYPE_SOURCEKEEPER)
        by (destruct (roomType W (name room)); (reflexivity || discriminate)).
      destruct (_skMatrix (cacheOf s room)) as [r|] eqn:Hc.
      + rewrite (getSkMatrix_hit W _ _ _ Hsk Hc). exact Hheap.
      + rewrite (getSkMatrix_miss W _ _ Hsk Hc).
        pose proof (getDefaultMatrix_wf room s Hheap) as Hdefault.
        destruct (getDefaultMatrix room s) as [base s1]. cbn [snd heap] in *.
        apply Forall_app. split; [exact Hdefault|].
        apply Forall_cons. split; [|apply Forall_nil_2].
        apply skContent_wf, deref_wf, Hdefault.
    - assert (Hother : roomType W (name room) <> ROOMTYPE_SOURCEKEEPER)
        by (intros Hsk; rewrite Hsk in Htype; discriminate).
      rewrite (getSkMatrix_other W room s Hother). apply getDefaultMatrix_wf, Hheap. }
  destruct (truthy (ignoreStructures options)).
  { unfold newMatrix, alloc. cbn [snd heap]. apply Forall_app. split; [exact Hheap|].
    apply Forall_cons. split; [apply wf_new | apply Forall_nil_2]. }
  destruct (truthy (direct options)); [|apply getDefaultMatrix_wf, Hheap].
  destruct (_directMatrix (cacheOf s room)) as [r|] eqn:Hc.
  - rewrite (getDirectMatrix_hit _ _ _ Hc). exact Hheap.
  - rewrite (getDirectMatrix_miss _ _ Hc). cbn [snd heap].
    apply Forall_app. split; [exact Hheap|].
    apply Forall_cons. split; [apply directContent_wf | apply Forall_nil_2].
Qed.

Lemma registerObstacles_get (room : Room) (obstacles : list RoomPosition.t)
    (m : CostMatrix.t) (x y : Z) :
  length (_bits m) = 2500%nat ->
  get (registerObstacles room obstacles m) x y
  = if in_grid x y && obstacleHere room obstacles x y then 255 else get m x y.
Proof.
  intros Hlen. unfold registerObstacles. rewrite fold_set_get by exact Hlen.
  unfold obstacleHere, onTile. change (clamp 255) with 255.
  rewrite (existsb_ext
             (fun a => String.eqb (RoomPosition.roomName a) (name room)
                       && (RoomPosition.x a =? x) && (RoomPosition.y a =? y))
             (fun obstacle => String.eqb (RoomPosition.roomName obstacle) (name room)
                              && ((RoomPosition.x obstacle =? x)
                                  && (RoomPosition.y obstacle =? y))))
    by (intros a; rewrite andb_assoc; reflexivity).
  reflexivity.
Qed.

End HandedMatrix.

(** X24: the matrix [getCostMatrix] returns costs 255 on every tile of the
    grid that holds one of the caller's obstacles whose room name is the
    room's, and the cost of the matrix the options select on every other
    tile; obstacles of other rooms change nothing. *)
Theorem getCostMatrix_cells (W : World) (room : Room) (options : MoveOptions)
    (clone_ : bool) (s : Store) (x y : Z) :
  store_wf s ->
  Forall CostMatrix.wf (heap s) ->
  CostMatrix.in_grid x y = true ->
  CostMatrix.get (deref (snd (getCostMatrix W room options clone_ s))
                        (fst (getCostMatrix W room options clone_ s))) x y
  = if obstacleHere room (default [] (obstacles options)) x y then 255
    else CostMatrix.get (deref (snd (baseMatrix W room options s))
                               (fst (baseMatrix W room options s))) x y.
Proof.
  intros Hwf Hheap Hgrid.
  pose proof (getCostMatrix_ok W room options clone_ s Hwf) as (_ & _ & Hcells & _).
  cbv zeta in Hcells. rewrite Hcells.
  rewrite registerObstacles_get
    by (apply (deref_wf _ _ (baseMatrix_wf W room options s Hheap))).
  rewrite Hgrid. reflexivity.
Qed.

Lemma getCostMatrix_cells_witness :
  store_wf Samples.emptyStore
  /\ Forall CostMatrix.wf (heap Samples.emptyStore)
  /\ CostMatrix.get
       (deref (snd (getCostMatrix Samples.routeWorld Samples.builtRoom
                      (with_obstacles (Some (Samples.posB :: Samples.obstaclesNorth))
                                      noOptions)
                      true Samples.emptyStore))
              (fst (getCostMatrix Samples.routeWorld Samples.builtRoom
                      (with_obstacles (Some (Samples.posB :: Samples.obstaclesNorth))
                                      noOptions)
                      true Samples.emptyStore))) 6 5
     = 255.
Proof.
  assert (Hwf : store_wf Samples.emptyStore) by exact store_wf_empty.
  assert (Hheap : Forall CostMatrix.wf (heap Samples.emptyStore)) by constructor.
  split; [exact Hwf | split; [exact Hheap|]].
  exact (getCostMatrix_cells Samples.routeWorld Samples.builtRoom
           (with_obstacles (Some (Samples.posB :: Samples.obstaclesNorth)) noOptions)
           true Samples.emptyStore 6 5 Hwf Hheap eq_refl).
Defined.

(** ** Saved paths *)

(** X25: [savePath] throws on an empty path.  On a path that starts at
    [first] and ends at [last] it files the path, with its length and the
    current tick, under the names of these two positions, replacing what was
    filed there, and leaves every other entry of the table as it was. *)
Theorem savePath_files_path (W : World) (Game_time : Z) (first : RoomPosition.t)
    (rest : list RoomPosition.t) (paths : gmap string (gmap string CachedPath)) :
  savePath W Game_time [] paths = None
  /\ exists paths',
       savePath W Game_time (first :: rest) paths = Some paths'
       /\ savedAt paths' (pos_name W first) (pos_name W (List.last rest first))
          = Some (mkCachedPath (first :: rest) (Z.of_nat (length (first :: rest)))
                               Game_time)
       /\ forall originName destinationName,
            (originName, destinationName)
            <> (pos_name W first, pos_name W (List.last rest first)) ->
            savedAt paths' originName destinationName
            = savedAt paths originName destinationName.
Proof.
  split; [reflexivity|].
  unfold savePath. cbv zeta. cbn [head].
  assert (Hlast : last (first :: rest) = Some (List.last rest first)).
  { clear. revert first. induction rest as [|p rest IH]; intros first; [reflexivity|].
    rewrite last_cons, IH, last_cons_default. reflexivity. }
  rewrite Hlast. eexists. split; [reflexivity|]. split.
  - unfold savedAt. rewrite lookup_insert_eq. apply lookup_insert_eq.
  - intros originName destinationName Hne. unfold savedAt.
    rewrite lookup_insert. case_decide as Ho.
    + subst originName. rewrite lookup_insert. case_decide as Hd; [congruence|].
      destruct (paths !! pos_name W first) as [row|] eqn:Hrow.
      * rewrite Hrow. reflexivity.
      * rewrite lookup_insert_eq.
        change (default ∅ (Some (∅ : gmap string CachedPath)) !! destinationName)
          with ((∅ : gmap string CachedPath) !! destinationName).
        apply lookup_empty.
    + destruct (paths !! pos_name W first) as [row|] eqn:Hrow; [reflexivity|].
      rewrite lookup_insert_ne by congruence. reflexivity.
Qed.
